(** * Nextdoor scanner: a shallow embedding of [nextdoor_complete.py]

    The development follows the classes of the source file:
    - [PyStr]: the Python [str] operations the scanner relies on;
    - [Regex]: the fragment of [re] used by the post extractor;
    - [Extractor]: the per-container parsing of [_extract_nextdoor_posts];
    - [Harvester]: the scroll loop [_scroll_and_collect_posts];
    - [Classifier]: [BulqitGroqClient] and [NextdoorGroqFilter];
    - [Verification]: the gist based 2FA channel of [NextdoorScanner];
    - [Report]: [generate_report];
    - [Session]: [_enter_2fa_code] and the 2FA branch of the login;
    - [Orchestrator]: [_search_for_term], the scan part of
      [_login_to_nextdoor] and [run_scan];
    - [ChannelSpec], [SessionSpec], [OrchestratorSpec]: the vocabulary of
      the statements about the 2FA channel, the 2FA entry and a run;
    - [ClientSetup]: the key loading of [BulqitGroqClient.__init__];
    - [Cleaning]: the cleaning of the model's answer in
      [analyze_nextdoor_post].

    A Python [str] is a sequence of Unicode code points; it is modelled as a
    list of code points ([N]).  Literals are written as Rocq strings and
    decoded from UTF-8 by [PyStr.u].  The character tables behind
    [isdigit], [lower], [title], [strip] and the classes [\d] and [\s] of
    [re] are those of CPython 3.11 (Unicode 14.0). *)

From Stdlib Require Import List NArith Arith Bool String Ascii Lia.
From Stdlib Require Import Permutation Sorted.
Import ListNotations.

(* ================================================================== *)
(** * Python strings *)
(* ================================================================== *)

Module PyStr.

Definition char := N.
Definition str := list char.

Fixpoint bytes_of (s : string) : list N :=
  match s with
  | EmptyString => []
  | String a r => N_of_ascii a :: bytes_of r
  end.

(** UTF-8 decoder: [need] continuation bytes are still expected and [acc]
    holds the bits read so far. *)
Fixpoint decode (bs : list N) (need : nat) (acc : N) : str :=
  match bs with
  | [] => []
  | b :: r =>
      match need with
      | O =>
          if (b <? 128)%N then b :: decode r 0 0%N
          else if (b <? 224)%N then decode r 1 (b - 192)%N
          else if (b <? 240)%N then decode r 2 (b - 224)%N
          else decode r 3 (b - 240)%N
      | S k =>
          let acc' := (acc * 64 + (b - 128))%N in
          match k with
          | O => acc' :: decode r 0 0%N
          | S _ => decode r k acc'
          end
      end
  end.

(** [u "..."] is the Python string written between the quotes. *)
Definition u (s : string) : str := decode (bytes_of s) 0 0%N.

Fixpoint eqb (a b : str) : bool :=
  match a, b with
  | [], [] => true
  | x :: a', y :: b' => (x =? y)%N && eqb a' b'
  | _, _ => false
  end.

(** [s.startswith(p)] *)
Fixpoint startswith (p s : str) : bool :=
  match p, s with
  | [], _ => true
  | x :: p', y :: s' => (x =? y)%N && startswith p' s'
  | _ :: _, [] => false
  end.

(** [s.find(sub)], with [None] for Python's [-1]. *)
Fixpoint find (sub s : str) : option nat :=
  if startswith sub s then Some 0
  else match s with
       | [] => None
       | _ :: s' => option_map S (find sub s')
       end.

(** [sub in s] *)
Definition contains (sub s : str) : bool :=
  match find sub s with Some _ => true | None => false end.

(** [s[:n]] and [s[n:]] *)
Definition upto (n : nat) (s : str) : str := firstn n s.
Definition from (n : nat) (s : str) : str := skipn n s.

(** [str.isspace] on one character (CPython's whitespace table). *)
Definition isspace (c : char) : bool :=
  ((9 <=? c) && (c <=? 13) || (28 <=? c) && (c <=? 32)
   || (c =? 133) || (c =? 160) || (c =? 5760)
   || (8192 <=? c) && (c <=? 8202)
   || (c =? 8232) || (c =? 8233) || (c =? 8239) || (c =? 8287)
   || (c =? 12288))%N.

Fixpoint dropwhile (p : char -> bool) (s : str) : str :=
  match s with
  | [] => []
  | c :: s' => if p c then dropwhile p s' else s
  end.

Definition lstrip (s : str) : str := dropwhile isspace s.
Definition rstrip (s : str) : str := rev (dropwhile isspace (rev s)).
(** [s.strip()] *)
Definition strip (s : str) : str := rstrip (lstrip s).

(** ** Character tables

    The tables below are those of CPython 3.11 (Unicode 14.0), on which
    [str.isdigit], the class [\d] of [re], [str.lower] and [str.title]
    rest.  The ranges of a table are in ascending order. *)

Fixpoint in_ranges (c : char) (table : list (N * N)) : bool :=
  match table with
  | [] => false
  | (first, last) :: rest =>
      if (c <? first)%N then false
      else if (c <=? last)%N then true
      else in_ranges c rest
  end.

(** The image of [c] under a table of simple case mappings: an entry
    [(first, last, step, image)] maps [first], [first + step], ... up to
    [last] to [image], [image + step], ... *)
Fixpoint mapped (c : char) (table : list (N * N * N * N)) : option char :=
  match table with
  | [] => None
  | (first, last, step, image) :: rest =>
      if (c <? first)%N then None
      else if (c <=? last)%N && ((c - first) mod step =? 0)%N
      then Some (image + (c - first))%N
      else mapped c rest
  end.

Fixpoint special (c : char) (table : list (N * list N)) : option str :=
  match table with
  | [] => None
  | (c', image) :: rest => if (c =? c')%N then Some image else special c rest
  end.

(** The characters [c] with [c.isdigit()]: Numeric_Type Decimal or Digit. *)
Definition digit_ranges : list (N * N) :=
  [(0x30, 0x39); (0xB2, 0xB3); (0xB9, 0xB9); (0x660, 0x669); (0x6F0, 0x6F9);
   (0x7C0, 0x7C9); (0x966, 0x96F); (0x9E6, 0x9EF); (0xA66, 0xA6F);
   (0xAE6, 0xAEF); (0xB66, 0xB6F); (0xBE6, 0xBEF); (0xC66, 0xC6F);
   (0xCE6, 0xCEF); (0xD66, 0xD6F); (0xDE6, 0xDEF); (0xE50, 0xE59);
   (0xED0, 0xED9); (0xF20, 0xF29); (0x1040, 0x1049); (0x1090, 0x1099);
   (0x1369, 0x1371); (0x17E0, 0x17E9); (0x1810, 0x1819); (0x1946, 0x194F);
   (0x19D0, 0x19DA); (0x1A80, 0x1A89); (0x1A90, 0x1A99); (0x1B50, 0x1B59);
   (0x1BB0, 0x1BB9); (0x1C40, 0x1C49); (0x1C50, 0x1C59); (0x2070, 0x2070);
   (0x2074, 0x2079); (0x2080, 0x2089); (0x2460, 0x2468); (0x2474, 0x247C);
   (0x2488, 0x2490); (0x24EA, 0x24EA); (0x24F5, 0x24FD); (0x24FF, 0x24FF);
   (0x2776, 0x277E); (0x2780, 0x2788); (0x278A, 0x2792); (0xA620, 0xA629);
   (0xA8D0, 0xA8D9); (0xA900, 0xA909); (0xA9D0, 0xA9D9); (0xA9F0, 0xA9F9);
   (0xAA50, 0xAA59); (0xABF0, 0xABF9); (0xFF10, 0xFF19); (0x104A0, 0x104A9);
   (0x10A40, 0x10A43); (0x10D30, 0x10D39); (0x10E60, 0x10E68);
   (0x11052, 0x1105A); (0x11066, 0x1106F); (0x110F0, 0x110F9);
   (0x11136, 0x1113F); (0x111D0, 0x111D9); (0x112F0, 0x112F9);
   (0x11450, 0x11459); (0x114D0, 0x114D9); (0x11650, 0x11659);
   (0x116C0, 0x116C9); (0x11730, 0x11739); (0x118E0, 0x118E9);
   (0x11950, 0x11959); (0x11C50, 0x11C59); (0x11D50, 0x11D59);
   (0x11DA0, 0x11DA9); (0x16A60, 0x16A69); (0x16AC0, 0x16AC9);
   (0x16B50, 0x16B59); (0x1D7CE, 0x1D7FF); (0x1E140, 0x1E149);
   (0x1E2F0, 0x1E2F9); (0x1E950, 0x1E959); (0x1F100, 0x1F10A);
   (0x1FBF0, 0x1FBF9)]%N.

(** The characters the class [\d] of [re] matches in a [str] pattern:
    category Nd. *)
Definition decimal_ranges : list (N * N) :=
  [(0x30, 0x39); (0x660, 0x669); (0x6F0, 0x6F9); (0x7C0, 0x7C9);
   (0x966, 0x96F); (0x9E6, 0x9EF); (0xA66, 0xA6F); (0xAE6, 0xAEF);
   (0xB66, 0xB6F); (0xBE6, 0xBEF); (0xC66, 0xC6F); (0xCE6, 0xCEF);
   (0xD66, 0xD6F); (0xDE6, 0xDEF); (0xE50, 0xE59); (0xED0, 0xED9);
   (0xF20, 0xF29); (0x1040, 0x1049); (0x1090, 0x1099); (0x17E0, 0x17E9);
   (0x1810, 0x1819); (0x1946, 0x194F); (0x19D0, 0x19D9); (0x1A80, 0x1A89);
   (0x1A90, 0x1A99); (0x1B50, 0x1B59); (0x1BB0, 0x1BB9); (0x1C40, 0x1C49);
   (0x1C50, 0x1C59); (0xA620, 0xA629); (0xA8D0, 0xA8D9); (0xA900, 0xA909);
   (0xA9D0, 0xA9D9); (0xA9F0, 0xA9F9); (0xAA50, 0xAA59); (0xABF0, 0xABF9);
   (0xFF10, 0xFF19); (0x104A0, 0x104A9); (0x10D30, 0x10D39);
   (0x11066, 0x1106F); (0x110F0, 0x110F9); (0x11136, 0x1113F);
   (0x111D0, 0x111D9); (0x112F0, 0x112F9); (0x11450, 0x11459);
   (0x114D0, 0x114D9); (0x11650, 0x11659); (0x116C0, 0x116C9);
   (0x11730, 0x11739); (0x118E0, 0x118E9); (0x11950, 0x11959);
   (0x11C50, 0x11C59); (0x11D50, 0x11D59); (0x11DA0, 0x11DA9);
   (0x16A60, 0x16A69); (0x16AC0, 0x16AC9); (0x16B50, 0x16B59);
   (0x1D7CE, 0x1D7FF); (0x1E140, 0x1E149); (0x1E2F0, 0x1E2F9);
   (0x1E950, 0x1E959); (0x1FBF0, 0x1FBF9)]%N.

(** The cased characters (Lu, Ll, Lt, Other_Uppercase, Other_Lowercase). *)
Definition cased_ranges : list (N * N) :=
  [(0x41, 0x5A); (0x61, 0x7A); (0xAA, 0xAA); (0xB5, 0xB5); (0xBA, 0xBA);
   (0xC0, 0xD6); (0xD8, 0xF6); (0xF8, 0x1BA); (0x1BC, 0x1BF); (0x1C4, 0x293);
   (0x295, 0x2B8); (0x2C0, 0x2C1); (0x2E0, 0x2E4); (0x345, 0x345);
   (0x370, 0x373); (0x376, 0x377); (0x37A, 0x37D); (0x37F, 0x37F);
   (0x386, 0x386); (0x388, 0x38A); (0x38C, 0x38C); (0x38E, 0x3A1);
   (0x3A3, 0x3F5); (0x3F7, 0x481); (0x48A, 0x52F); (0x531, 0x556);
   (0x560, 0x588); (0x10A0, 0x10C5); (0x10C7, 0x10C7); (0x10CD, 0x10CD);
   (0x10D0, 0x10FA); (0x10FD, 0x10FF); (0x13A0, 0x13F5); (0x13F8, 0x13FD);
   (0x1C80, 0x1C88); (0x1C90, 0x1CBA); (0x1CBD, 0x1CBF); (0x1D00, 0x1DBF);
   (0x1E00, 0x1F15); (0x1F18, 0x1F1D); (0x1F20, 0x1F45); (0x1F48, 0x1F4D);
   (0x1F50, 0x1F57); (0x1F59, 0x1F59); (0x1F5B, 0x1F5B); (0x1F5D, 0x1F5D);
   (0x1F5F, 0x1F7D); (0x1F80, 0x1FB4); (0x1FB6, 0x1FBC); (0x1FBE, 0x1FBE);
   (0x1FC2, 0x1FC4); (0x1FC6, 0x1FCC); (0x1FD0, 0x1FD3); (0x1FD6, 0x1FDB);
   (0x1FE0, 0x1FEC); (0x1FF2, 0x1FF4); (0x1FF6, 0x1FFC); (0x2071, 0x2071);
   (0x207F, 0x207F); (0x2090, 0x209C); (0x2102, 0x2102); (0x2107, 0x2107);
   (0x210A, 0x2113); (0x2115, 0x2115); (0x2119, 0x211D); (0x2124, 0x2124);
   (0x2126, 0x2126); (0x2128, 0x2128); (0x212A, 0x212D); (0x212F, 0x2134);
   (0x2139, 0x2139); (0x213C, 0x213F); (0x2145, 0x2149); (0x214E, 0x214E);
   (0x2160, 0x217F); (0x2183, 0x2184); (0x24B6, 0x24E9); (0x2C00, 0x2CE4);
   (0x2CEB, 0x2CEE); (0x2CF2, 0x2CF3); (0x2D00, 0x2D25); (0x2D27, 0x2D27);
   (0x2D2D, 0x2D2D); (0xA640, 0xA66D); (0xA680, 0xA69D); (0xA722, 0xA787);
   (0xA78B, 0xA78E); (0xA790, 0xA7CA); (0xA7D0, 0xA7D1); (0xA7D3, 0xA7D3);
   (0xA7D5, 0xA7D9); (0xA7F5, 0xA7F6); (0xA7F8, 0xA7FA); (0xAB30, 0xAB5A);
   (0xAB5C, 0xAB68); (0xAB70, 0xABBF); (0xFB00, 0xFB06); (0xFB13, 0xFB17);
   (0xFF21, 0xFF3A); (0xFF41, 0xFF5A); (0x10400, 0x1044F); (0x104B0, 0x104D3);
   (0x104D8, 0x104FB); (0x10570, 0x1057A); (0x1057C, 0x1058A);
   (0x1058C, 0x10592); (0x10594, 0x10595); (0x10597, 0x105A1);
   (0x105A3, 0x105B1); (0x105B3, 0x105B9); (0x105BB, 0x105BC);
   (0x10780, 0x10780); (0x10783, 0x10785); (0x10787, 0x107B0);
   (0x107B2, 0x107BA); (0x10C80, 0x10CB2); (0x10CC0, 0x10CF2);
   (0x118A0, 0x118DF); (0x16E40, 0x16E7F); (0x1D400, 0x1D454);
   (0x1D456, 0x1D49C); (0x1D49E, 0x1D49F); (0x1D4A2, 0x1D4A2);
   (0x1D4A5, 0x1D4A6); (0x1D4A9, 0x1D4AC); (0x1D4AE, 0x1D4B9);
   (0x1D4BB, 0x1D4BB); (0x1D4BD, 0x1D4C3); (0x1D4C5, 0x1D505);
   (0x1D507, 0x1D50A); (0x1D50D, 0x1D514); (0x1D516, 0x1D51C);
   (0x1D51E, 0x1D539); (0x1D53B, 0x1D53E); (0x1D540, 0x1D544);
   (0x1D546, 0x1D546); (0x1D54A, 0x1D550); (0x1D552, 0x1D6A5);
   (0x1D6A8, 0x1D6C0); (0x1D6C2, 0x1D6DA); (0x1D6DC, 0x1D6FA);
   (0x1D6FC, 0x1D714); (0x1D716, 0x1D734); (0x1D736, 0x1D74E);
   (0x1D750, 0x1D76E); (0x1D770, 0x1D788); (0x1D78A, 0x1D7A8);
   (0x1D7AA, 0x1D7C2); (0x1D7C4, 0x1D7CB); (0x1DF00, 0x1DF09);
   (0x1DF0B, 0x1DF1E); (0x1E900, 0x1E943); (0x1F130, 0x1F149);
   (0x1F150, 0x1F169); (0x1F170, 0x1F189)]%N.

(** The case-ignorable characters, which the Final_Sigma rule of [lower]
    skips. *)
Definition case_ignorable_ranges : list (N * N) :=
  [(0x27, 0x27); (0x2E, 0x2E); (0x3A, 0x3A); (0x5E, 0x5E); (0x60, 0x60);
   (0xA8, 0xA8); (0xAD, 0xAD); (0xAF, 0xAF); (0xB4, 0xB4); (0xB7, 0xB8);
   (0x2B0, 0x36F); (0x374, 0x375); (0x37A, 0x37A); (0x384, 0x385);
   (0x387, 0x387); (0x483, 0x489); (0x559, 0x559); (0x55F, 0x55F);
   (0x591, 0x5BD); (0x5BF, 0x5BF); (0x5C1, 0x5C2); (0x5C4, 0x5C5);
   (0x5C7, 0x5C7); (0x5F4, 0x5F4); (0x600, 0x605); (0x610, 0x61A);
   (0x61C, 0x61C); (0x640, 0x640); (0x64B, 0x65F); (0x670, 0x670);
   (0x6D6, 0x6DD); (0x6DF, 0x6E8); (0x6EA, 0x6ED); (0x70F, 0x70F);
   (0x711, 0x711); (0x730, 0x74A); (0x7A6, 0x7B0); (0x7EB, 0x7F5);
   (0x7FA, 0x7FA); (0x7FD, 0x7FD); (0x816, 0x82D); (0x859, 0x85B);
   (0x888, 0x888); (0x890, 0x891); (0x898, 0x89F); (0x8C9, 0x902);
   (0x93A, 0x93A); (0x93C, 0x93C); (0x941, 0x948); (0x94D, 0x94D);
   (0x951, 0x957); (0x962, 0x963); (0x971, 0x971); (0x981, 0x981);
   (0x9BC, 0x9BC); (0x9C1, 0x9C4); (0x9CD, 0x9CD); (0x9E2, 0x9E3);
   (0x9FE, 0x9FE); (0xA01, 0xA02); (0xA3C, 0xA3C); (0xA41, 0xA42);
   (0xA47, 0xA48); (0xA4B, 0xA4D); (0xA51, 0xA51); (0xA70, 0xA71);
   (0xA75, 0xA75); (0xA81, 0xA82); (0xABC, 0xABC); (0xAC1, 0xAC5);
   (0xAC7, 0xAC8); (0xACD, 0xACD); (0xAE2, 0xAE3); (0xAFA, 0xAFF);
   (0xB01, 0xB01); (0xB3C, 0xB3C); (0xB3F, 0xB3F); (0xB41, 0xB44);
   (0xB4D, 0xB4D); (0xB55, 0xB56); (0xB62, 0xB63); (0xB82, 0xB82);
   (0xBC0, 0xBC0); (0xBCD, 0xBCD); (0xC00, 0xC00); (0xC04, 0xC04);
   (0xC3C, 0xC3C); (0xC3E, 0xC40); (0xC46, 0xC48); (0xC4A, 0xC4D);
   (0xC55, 0xC56); (0xC62, 0xC63); (0xC81, 0xC81); (0xCBC, 0xCBC);
   (0xCBF, 0xCBF); (0xCC6, 0xCC6); (0xCCC, 0xCCD); (0xCE2, 0xCE3);
   (0xD00, 0xD01); (0xD3B, 0xD3C); (0xD41, 0xD44); (0xD4D, 0xD4D);
   (0xD62, 0xD63); (0xD81, 0xD81); (0xDCA, 0xDCA); (0xDD2, 0xDD4);
   (0xDD6, 0xDD6); (0xE31, 0xE31); (0xE34, 0xE3A); (0xE46, 0xE4E);
   (0xEB1, 0xEB1); (0xEB4, 0xEBC); (0xEC6, 0xEC6); (0xEC8, 0xECD);
   (0xF18, 0xF19); (0xF35, 0xF35); (0xF37, 0xF37); (0xF39, 0xF39);
   (0xF71, 0xF7E); (0xF80, 0xF84); (0xF86, 0xF87); (0xF8D, 0xF97);
   (0xF99, 0xFBC); (0xFC6, 0xFC6); (0x102D, 0x1030); (0x1032, 0x1037);
   (0x1039, 0x103A); (0x103D, 0x103E); (0x1058, 0x1059); (0x105E, 0x1060);
   (0x1071, 0x1074); (0x1082, 0x1082); (0x1085, 0x1086); (0x108D, 0x108D);
   (0x109D, 0x109D); (0x10FC, 0x10FC); (0x135D, 0x135F); (0x1712, 0x1714);
   (0x1732, 0x1733); (0x1752, 0x1753); (0x1772, 0x1773); (0x17B4, 0x17B5);
   (0x17B7, 0x17BD); (0x17C6, 0x17C6); (0x17C9, 0x17D3); (0x17D7, 0x17D7);
   (0x17DD, 0x17DD); (0x180B, 0x180F); (0x1843, 0x1843); (0x1885, 0x1886);
   (0x18A9, 0x18A9); (0x1920, 0x1922); (0x1927, 0x1928); (0x1932, 0x1932);
   (0x1939, 0x193B); (0x1A17, 0x1A18); (0x1A1B, 0x1A1B); (0x1A56, 0x1A56);
   (0x1A58, 0x1A5E); (0x1A60, 0x1A60); (0x1A62, 0x1A62); (0x1A65, 0x1A6C);
   (0x1A73, 0x1A7C); (0x1A7F, 0x1A7F); (0x1AA7, 0x1AA7); (0x1AB0, 0x1ACE);
   (0x1B00, 0x1B03); (0x1B34, 0x1B34); (0x1B36, 0x1B3A); (0x1B3C, 0x1B3C);
   (0x1B42, 0x1B42); (0x1B6B, 0x1B73); (0x1B80, 0x1B81); (0x1BA2, 0x1BA5);
   (0x1BA8, 0x1BA9); (0x1BAB, 0x1BAD); (0x1BE6, 0x1BE6); (0x1BE8, 0x1BE9);
   (0x1BED, 0x1BED); (0x1BEF, 0x1BF1); (0x1C2C, 0x1C33); (0x1C36, 0x1C37);
   (0x1C78, 0x1C7D); (0x1CD0, 0x1CD2); (0x1CD4, 0x1CE0); (0x1CE2, 0x1CE8);
   (0x1CED, 0x1CED); (0x1CF4, 0x1CF4); (0x1CF8, 0x1CF9); (0x1D2C, 0x1D6A);
   (0x1D78, 0x1D78); (0x1D9B, 0x1DFF); (0x1FBD, 0x1FBD); (0x1FBF, 0x1FC1);
   (0x1FCD, 0x1FCF); (0x1FDD, 0x1FDF); (0x1FED, 0x1FEF); (0x1FFD, 0x1FFE);
   (0x200B, 0x200F); (0x2018, 0x2019); (0x2024, 0x2024); (0x2027, 0x2027);
   (0x202A, 0x202E); (0x2060, 0x2064); (0x2066, 0x206F); (0x2071, 0x2071);
   (0x207F, 0x207F); (0x2090, 0x209C); (0x20D0, 0x20F0); (0x2C7C, 0x2C7D);
   (0x2CEF, 0x2CF1); (0x2D6F, 0x2D6F); (0x2D7F, 0x2D7F); (0x2DE0, 0x2DFF);
   (0x2E2F, 0x2E2F); (0x3005, 0x3005); (0x302A, 0x302D); (0x3031, 0x3035);
   (0x303B, 0x303B); (0x3099, 0x309E); (0x30FC, 0x30FE); (0xA015, 0xA015);
   (0xA4F8, 0xA4FD); (0xA60C, 0xA60C); (0xA66F, 0xA672); (0xA674, 0xA67D);
   (0xA67F, 0xA67F); (0xA69C, 0xA69F); (0xA6F0, 0xA6F1); (0xA700, 0xA721);
   (0xA770, 0xA770); (0xA788, 0xA78A); (0xA7F2, 0xA7F4); (0xA7F8, 0xA7F9);
   (0xA802, 0xA802); (0xA806, 0xA806); (0xA80B, 0xA80B); (0xA825, 0xA826);
   (0xA82C, 0xA82C); (0xA8C4, 0xA8C5); (0xA8E0, 0xA8F1); (0xA8FF, 0xA8FF);
   (0xA926, 0xA92D); (0xA947, 0xA951); (0xA980, 0xA982); (0xA9B3, 0xA9B3);
   (0xA9B6, 0xA9B9); (0xA9BC, 0xA9BD); (0xA9CF, 0xA9CF); (0xA9E5, 0xA9E6);
   (0xAA29, 0xAA2E); (0xAA31, 0xAA32); (0xAA35, 0xAA36); (0xAA43, 0xAA43);
   (0xAA4C, 0xAA4C); (0xAA70, 0xAA70); (0xAA7C, 0xAA7C); (0xAAB0, 0xAAB0);
   (0xAAB2, 0xAAB4); (0xAAB7, 0xAAB8); (0xAABE, 0xAABF); (0xAAC1, 0xAAC1);
   (0xAADD, 0xAADD); (0xAAEC, 0xAAED); (0xAAF3, 0xAAF4); (0xAAF6, 0xAAF6);
   (0xAB5B, 0xAB5F); (0xAB69, 0xAB6B); (0xABE5, 0xABE5); (0xABE8, 0xABE8);
   (0xABED, 0xABED); (0xFB1E, 0xFB1E); (0xFBB2, 0xFBC2); (0xFE00, 0xFE0F);
   (0xFE13, 0xFE13); (0xFE20, 0xFE2F); (0xFE52, 0xFE52); (0xFE55, 0xFE55);
   (0xFEFF, 0xFEFF); (0xFF07, 0xFF07); (0xFF0E, 0xFF0E); (0xFF1A, 0xFF1A);
   (0xFF3E, 0xFF3E); (0xFF40, 0xFF40); (0xFF70, 0xFF70); (0xFF9E, 0xFF9F);
   (0xFFE3, 0xFFE3); (0xFFF9, 0xFFFB); (0x101FD, 0x101FD); (0x102E0, 0x102E0);
   (0x10376, 0x1037A); (0x10780, 0x10785); (0x10787, 0x107B0);
   (0x107B2, 0x107BA); (0x10A01, 0x10A03); (0x10A05, 0x10A06);
   (0x10A0C, 0x10A0F); (0x10A38, 0x10A3A); (0x10A3F, 0x10A3F);
   (0x10AE5, 0x10AE6); (0x10D24, 0x10D27); (0x10EAB, 0x10EAC);
   (0x10F46, 0x10F50); (0x10F82, 0x10F85); (0x11001, 0x11001);
   (0x11038, 0x11046); (0x11070, 0x11070); (0x11073, 0x11074);
   (0x1107F, 0x11081); (0x110B3, 0x110B6); (0x110B9, 0x110BA);
   (0x110BD, 0x110BD); (0x110C2, 0x110C2); (0x110CD, 0x110CD);
   (0x11100, 0x11102); (0x11127, 0x1112B); (0x1112D, 0x11134);
   (0x11173, 0x11173); (0x11180, 0x11181); (0x111B6, 0x111BE);
   (0x111C9, 0x111CC); (0x111CF, 0x111CF); (0x1122F, 0x11231);
   (0x11234, 0x11234); (0x11236, 0x11237); (0x1123E, 0x1123E);
   (0x112DF, 0x112DF); (0x112E3, 0x112EA); (0x11300, 0x11301);
   (0x1133B, 0x1133C); (0x11340, 0x11340); (0x11366, 0x1136C);
   (0x11370, 0x11374); (0x11438, 0x1143F); (0x11442, 0x11444);
   (0x11446, 0x11446); (0x1145E, 0x1145E); (0x114B3, 0x114B8);
   (0x114BA, 0x114BA); (0x114BF, 0x114C0); (0x114C2, 0x114C3);
   (0x115B2, 0x115B5); (0x115BC, 0x115BD); (0x115BF, 0x115C0);
   (0x115DC, 0x115DD); (0x11633, 0x1163A); (0x1163D, 0x1163D);
   (0x1163F, 0x11640); (0x116AB, 0x116AB); (0x116AD, 0x116AD);
   (0x116B0, 0x116B5); (0x116B7, 0x116B7); (0x1171D, 0x1171F);
   (0x11722, 0x11725); (0x11727, 0x1172B); (0x1182F, 0x11837);
   (0x11839, 0x1183A); (0x1193B, 0x1193C); (0x1193E, 0x1193E);
   (0x11943, 0x11943); (0x119D4, 0x119D7); (0x119DA, 0x119DB);
   (0x119E0, 0x119E0); (0x11A01, 0x11A0A); (0x11A33, 0x11A38);
   (0x11A3B, 0x11A3E); (0x11A47, 0x11A47); (0x11A51, 0x11A56);
   (0x11A59, 0x11A5B); (0x11A8A, 0x11A96); (0x11A98, 0x11A99);
   (0x11C30, 0x11C36); (0x11C38, 0x11C3D); (0x11C3F, 0x11C3F);
   (0x11C92, 0x11CA7); (0x11CAA, 0x11CB0); (0x11CB2, 0x11CB3);
   (0x11CB5, 0x11CB6); (0x11D31, 0x11D36); (0x11D3A, 0x11D3A);
   (0x11D3C, 0x11D3D); (0x11D3F, 0x11D45); (0x11D47, 0x11D47);
   (0x11D90, 0x11D91); (0x11D95, 0x11D95); (0x11D97, 0x11D97);
   (0x11EF3, 0x11EF4); (0x13430, 0x13438); (0x16AF0, 0x16AF4);
   (0x16B30, 0x16B36); (0x16B40, 0x16B43); (0x16F4F, 0x16F4F);
   (0x16F8F, 0x16F9F); (0x16FE0, 0x16FE1); (0x16FE3, 0x16FE4);
   (0x1AFF0, 0x1AFF3); (0x1AFF5, 0x1AFFB); (0x1AFFD, 0x1AFFE);
   (0x1BC9D, 0x1BC9E); (0x1BCA0, 0x1BCA3); (0x1CF00, 0x1CF2D);
   (0x1CF30, 0x1CF46); (0x1D167, 0x1D169); (0x1D173, 0x1D182);
   (0x1D185, 0x1D18B); (0x1D1AA, 0x1D1AD); (0x1D242, 0x1D244);
   (0x1DA00, 0x1DA36); (0x1DA3B, 0x1DA6C); (0x1DA75, 0x1DA75);
   (0x1DA84, 0x1DA84); (0x1DA9B, 0x1DA9F); (0x1DAA1, 0x1DAAF);
   (0x1E000, 0x1E006); (0x1E008, 0x1E018); (0x1E01B, 0x1E021);
   (0x1E023, 0x1E024); (0x1E026, 0x1E02A); (0x1E130, 0x1E13D);
   (0x1E2AE, 0x1E2AE); (0x1E2EC, 0x1E2EF); (0x1E8D0, 0x1E8D6);
   (0x1E944, 0x1E94B); (0x1F3FB, 0x1F3FF); (0xE0001, 0xE0001);
   (0xE0020, 0xE007F); (0xE0100, 0xE01EF)]%N.

(** The simple lowercase mappings: [(first, last, step, image of first)]. *)
Definition lower_groups : list (N * N * N * N) :=
  [(0x41, 0x5A, 1, 0x61); (0xC0, 0xD6, 1, 0xE0); (0xD8, 0xDE, 1, 0xF8);
   (0x100, 0x12E, 2, 0x101); (0x132, 0x136, 2, 0x133);
   (0x139, 0x147, 2, 0x13A); (0x14A, 0x176, 2, 0x14B);
   (0x178, 0x178, 1, 0xFF); (0x179, 0x17D, 2, 0x17A);
   (0x181, 0x181, 1, 0x253); (0x182, 0x184, 2, 0x183);
   (0x186, 0x186, 1, 0x254); (0x187, 0x187, 1, 0x188);
   (0x189, 0x18A, 1, 0x256); (0x18B, 0x18B, 1, 0x18C);
   (0x18E, 0x18E, 1, 0x1DD); (0x18F, 0x18F, 1, 0x259);
   (0x190, 0x190, 1, 0x25B); (0x191, 0x191, 1, 0x192);
   (0x193, 0x193, 1, 0x260); (0x194, 0x194, 1, 0x263);
   (0x196, 0x196, 1, 0x269); (0x197, 0x197, 1, 0x268);
   (0x198, 0x198, 1, 0x199); (0x19C, 0x19C, 1, 0x26F);
   (0x19D, 0x19D, 1, 0x272); (0x19F, 0x19F, 1, 0x275);
   (0x1A0, 0x1A4, 2, 0x1A1); (0x1A6, 0x1A6, 1, 0x280);
   (0x1A7, 0x1A7, 1, 0x1A8); (0x1A9, 0x1A9, 1, 0x283);
   (0x1AC, 0x1AC, 1, 0x1AD); (0x1AE, 0x1AE, 1, 0x288);
   (0x1AF, 0x1AF, 1, 0x1B0); (0x1B1, 0x1B2, 1, 0x28A);
   (0x1B3, 0x1B5, 2, 0x1B4); (0x1B7, 0x1B7, 1, 0x292);
   (0x1B8, 0x1B8, 1, 0x1B9); (0x1BC, 0x1BC, 1, 0x1BD);
   (0x1C4, 0x1C4, 1, 0x1C6); (0x1C5, 0x1C5, 1, 0x1C6);
   (0x1C7, 0x1C7, 1, 0x1C9); (0x1C8, 0x1C8, 1, 0x1C9);
   (0x1CA, 0x1CA, 1, 0x1CC); (0x1CB, 0x1DB, 2, 0x1CC);
   (0x1DE, 0x1EE, 2, 0x1DF); (0x1F1, 0x1F1, 1, 0x1F3);
   (0x1F2, 0x1F4, 2, 0x1F3); (0x1F6, 0x1F6, 1, 0x195);
   (0x1F7, 0x1F7, 1, 0x1BF); (0x1F8, 0x21E, 2, 0x1F9);
   (0x220, 0x220, 1, 0x19E); (0x222, 0x232, 2, 0x223);
   (0x23A, 0x23A, 1, 0x2C65); (0x23B, 0x23B, 1, 0x23C);
   (0x23D, 0x23D, 1, 0x19A); (0x23E, 0x23E, 1, 0x2C66);
   (0x241, 0x241, 1, 0x242); (0x243, 0x243, 1, 0x180);
   (0x244, 0x244, 1, 0x289); (0x245, 0x245, 1, 0x28C);
   (0x246, 0x24E, 2, 0x247); (0x370, 0x372, 2, 0x371);
   (0x376, 0x376, 1, 0x377); (0x37F, 0x37F, 1, 0x3F3);
   (0x386, 0x386, 1, 0x3AC); (0x388, 0x38A, 1, 0x3AD);
   (0x38C, 0x38C, 1, 0x3CC); (0x38E, 0x38F, 1, 0x3CD);
   (0x391, 0x3A1, 1, 0x3B1); (0x3A4, 0x3AB, 1, 0x3C4);
   (0x3CF, 0x3CF, 1, 0x3D7); (0x3D8, 0x3EE, 2, 0x3D9);
   (0x3F4, 0x3F4, 1, 0x3B8); (0x3F7, 0x3F7, 1, 0x3F8);
   (0x3F9, 0x3F9, 1, 0x3F2); (0x3FA, 0x3FA, 1, 0x3FB);
   (0x3FD, 0x3FF, 1, 0x37B); (0x400, 0x40F, 1, 0x450);
   (0x410, 0x42F, 1, 0x430); (0x460, 0x480, 2, 0x461);
   (0x48A, 0x4BE, 2, 0x48B); (0x4C0, 0x4C0, 1, 0x4CF);
   (0x4C1, 0x4CD, 2, 0x4C2); (0x4D0, 0x52E, 2, 0x4D1);
   (0x531, 0x556, 1, 0x561); (0x10A0, 0x10C5, 1, 0x2D00);
   (0x10C7, 0x10C7, 1, 0x2D27); (0x10CD, 0x10CD, 1, 0x2D2D);
   (0x13A0, 0x13EF, 1, 0xAB70); (0x13F0, 0x13F5, 1, 0x13F8);
   (0x1C90, 0x1CBA, 1, 0x10D0); (0x1CBD, 0x1CBF, 1, 0x10FD);
   (0x1E00, 0x1E94, 2, 0x1E01); (0x1E9E, 0x1E9E, 1, 0xDF);
   (0x1EA0, 0x1EFE, 2, 0x1EA1); (0x1F08, 0x1F0F, 1, 0x1F00);
   (0x1F18, 0x1F1D, 1, 0x1F10); (0x1F28, 0x1F2F, 1, 0x1F20);
   (0x1F38, 0x1F3F, 1, 0x1F30); (0x1F48, 0x1F4D, 1, 0x1F40);
   (0x1F59, 0x1F5F, 2, 0x1F51); (0x1F68, 0x1F6F, 1, 0x1F60);
   (0x1F88, 0x1F8F, 1, 0x1F80); (0x1F98, 0x1F9F, 1, 0x1F90);
   (0x1FA8, 0x1FAF, 1, 0x1FA0); (0x1FB8, 0x1FB9, 1, 0x1FB0);
   (0x1FBA, 0x1FBB, 1, 0x1F70); (0x1FBC, 0x1FBC, 1, 0x1FB3);
   (0x1FC8, 0x1FCB, 1, 0x1F72); (0x1FCC, 0x1FCC, 1, 0x1FC3);
   (0x1FD8, 0x1FD9, 1, 0x1FD0); (0x1FDA, 0x1FDB, 1, 0x1F76);
   (0x1FE8, 0x1FE9, 1, 0x1FE0); (0x1FEA, 0x1FEB, 1, 0x1F7A);
   (0x1FEC, 0x1FEC, 1, 0x1FE5); (0x1FF8, 0x1FF9, 1, 0x1F78);
   (0x1FFA, 0x1FFB, 1, 0x1F7C); (0x1FFC, 0x1FFC, 1, 0x1FF3);
   (0x2126, 0x2126, 1, 0x3C9); (0x212A, 0x212A, 1, 0x6B);
   (0x212B, 0x212B, 1, 0xE5); (0x2132, 0x2132, 1, 0x214E);
   (0x2160, 0x216F, 1, 0x2170); (0x2183, 0x2183, 1, 0x2184);
   (0x24B6, 0x24CF, 1, 0x24D0); (0x2C00, 0x2C2F, 1, 0x2C30);
   (0x2C60, 0x2C60, 1, 0x2C61); (0x2C62, 0x2C62, 1, 0x26B);
   (0x2C63, 0x2C63, 1, 0x1D7D); (0x2C64, 0x2C64, 1, 0x27D);
   (0x2C67, 0x2C6B, 2, 0x2C68); (0x2C6D, 0x2C6D, 1, 0x251);
   (0x2C6E, 0x2C6E, 1, 0x271); (0x2C6F, 0x2C6F, 1, 0x250);
   (0x2C70, 0x2C70, 1, 0x252); (0x2C72, 0x2C72, 1, 0x2C73);
   (0x2C75, 0x2C75, 1, 0x2C76); (0x2C7E, 0x2C7F, 1, 0x23F);
   (0x2C80, 0x2CE2, 2, 0x2C81); (0x2CEB, 0x2CED, 2, 0x2CEC);
   (0x2CF2, 0x2CF2, 1, 0x2CF3); (0xA640, 0xA66C, 2, 0xA641);
   (0xA680, 0xA69A, 2, 0xA681); (0xA722, 0xA72E, 2, 0xA723);
   (0xA732, 0xA76E, 2, 0xA733); (0xA779, 0xA77B, 2, 0xA77A);
   (0xA77D, 0xA77D, 1, 0x1D79); (0xA77E, 0xA786, 2, 0xA77F);
   (0xA78B, 0xA78B, 1, 0xA78C); (0xA78D, 0xA78D, 1, 0x265);
   (0xA790, 0xA792, 2, 0xA791); (0xA796, 0xA7A8, 2, 0xA797);
   (0xA7AA, 0xA7AA, 1, 0x266); (0xA7AB, 0xA7AB, 1, 0x25C);
   (0xA7AC, 0xA7AC, 1, 0x261); (0xA7AD, 0xA7AD, 1, 0x26C);
   (0xA7AE, 0xA7AE, 1, 0x26A); (0xA7B0, 0xA7B0, 1, 0x29E);
   (0xA7B1, 0xA7B1, 1, 0x287); (0xA7B2, 0xA7B2, 1, 0x29D);
   (0xA7B3, 0xA7B3, 1, 0xAB53); (0xA7B4, 0xA7C2, 2, 0xA7B5);
   (0xA7C4, 0xA7C4, 1, 0xA794); (0xA7C5, 0xA7C5, 1, 0x282);
   (0xA7C6, 0xA7C6, 1, 0x1D8E); (0xA7C7, 0xA7C9, 2, 0xA7C8);
   (0xA7D0, 0xA7D0, 1, 0xA7D1); (0xA7D6, 0xA7D8, 2, 0xA7D7);
   (0xA7F5, 0xA7F5, 1, 0xA7F6); (0xFF21, 0xFF3A, 1, 0xFF41);
   (0x10400, 0x10427, 1, 0x10428); (0x104B0, 0x104D3, 1, 0x104D8);
   (0x10570, 0x1057A, 1, 0x10597); (0x1057C, 0x1058A, 1, 0x105A3);
   (0x1058C, 0x10592, 1, 0x105B3); (0x10594, 0x10595, 1, 0x105BB);
   (0x10C80, 0x10CB2, 1, 0x10CC0); (0x118A0, 0x118BF, 1, 0x118C0);
   (0x16E40, 0x16E5F, 1, 0x16E60); (0x1E900, 0x1E921, 1, 0x1E922)]%N.

(** The lowercase mappings to more than one character. *)
Definition lower_special : list (N * list N) :=
  [(0x130, [0x69; 0x307])]%N.

(** The simple titlecase mappings: [(first, last, step, image of first)]. *)
Definition title_groups : list (N * N * N * N) :=
  [(0x61, 0x7A, 1, 0x41); (0xB5, 0xB5, 1, 0x39C); (0xE0, 0xF6, 1, 0xC0);
   (0xF8, 0xFE, 1, 0xD8); (0xFF, 0xFF, 1, 0x178); (0x101, 0x12F, 2, 0x100);
   (0x131, 0x131, 1, 0x49); (0x133, 0x137, 2, 0x132);
   (0x13A, 0x148, 2, 0x139); (0x14B, 0x177, 2, 0x14A);
   (0x17A, 0x17E, 2, 0x179); (0x17F, 0x17F, 1, 0x53);
   (0x180, 0x180, 1, 0x243); (0x183, 0x185, 2, 0x182);
   (0x188, 0x188, 1, 0x187); (0x18C, 0x18C, 1, 0x18B);
   (0x192, 0x192, 1, 0x191); (0x195, 0x195, 1, 0x1F6);
   (0x199, 0x199, 1, 0x198); (0x19A, 0x19A, 1, 0x23D);
   (0x19E, 0x19E, 1, 0x220); (0x1A1, 0x1A5, 2, 0x1A0);
   (0x1A8, 0x1A8, 1, 0x1A7); (0x1AD, 0x1AD, 1, 0x1AC);
   (0x1B0, 0x1B0, 1, 0x1AF); (0x1B4, 0x1B6, 2, 0x1B3);
   (0x1B9, 0x1B9, 1, 0x1B8); (0x1BD, 0x1BD, 1, 0x1BC);
   (0x1BF, 0x1BF, 1, 0x1F7); (0x1C4, 0x1C4, 1, 0x1C5);
   (0x1C6, 0x1C6, 1, 0x1C5); (0x1C7, 0x1C7, 1, 0x1C8);
   (0x1C9, 0x1C9, 1, 0x1C8); (0x1CA, 0x1CA, 1, 0x1CB);
   (0x1CC, 0x1DC, 2, 0x1CB); (0x1DD, 0x1DD, 1, 0x18E);
   (0x1DF, 0x1EF, 2, 0x1DE); (0x1F1, 0x1F1, 1, 0x1F2);
   (0x1F3, 0x1F5, 2, 0x1F2); (0x1F9, 0x21F, 2, 0x1F8);
   (0x223, 0x233, 2, 0x222); (0x23C, 0x23C, 1, 0x23B);
   (0x23F, 0x240, 1, 0x2C7E); (0x242, 0x242, 1, 0x241);
   (0x247, 0x24F, 2, 0x246); (0x250, 0x250, 1, 0x2C6F);
   (0x251, 0x251, 1, 0x2C6D); (0x252, 0x252, 1, 0x2C70);
   (0x253, 0x253, 1, 0x181); (0x254, 0x254, 1, 0x186);
   (0x256, 0x257, 1, 0x189); (0x259, 0x259, 1, 0x18F);
   (0x25B, 0x25B, 1, 0x190); (0x25C, 0x25C, 1, 0xA7AB);
   (0x260, 0x260, 1, 0x193); (0x261, 0x261, 1, 0xA7AC);
   (0x263, 0x263, 1, 0x194); (0x265, 0x265, 1, 0xA78D);
   (0x266, 0x266, 1, 0xA7AA); (0x268, 0x268, 1, 0x197);
   (0x269, 0x269, 1, 0x196); (0x26A, 0x26A, 1, 0xA7AE);
   (0x26B, 0x26B, 1, 0x2C62); (0x26C, 0x26C, 1, 0xA7AD);
   (0x26F, 0x26F, 1, 0x19C); (0x271, 0x271, 1, 0x2C6E);
   (0x272, 0x272, 1, 0x19D); (0x275, 0x275, 1, 0x19F);
   (0x27D, 0x27D, 1, 0x2C64); (0x280, 0x280, 1, 0x1A6);
   (0x282, 0x282, 1, 0xA7C5); (0x283, 0x283, 1, 0x1A9);
   (0x287, 0x287, 1, 0xA7B1); (0x288, 0x288, 1, 0x1AE);
   (0x289, 0x289, 1, 0x244); (0x28A, 0x28B, 1, 0x1B1);
   (0x28C, 0x28C, 1, 0x245); (0x292, 0x292, 1, 0x1B7);
   (0x29D, 0x29D, 1, 0xA7B2); (0x29E, 0x29E, 1, 0xA7B0);
   (0x345, 0x345, 1, 0x399); (0x371, 0x373, 2, 0x370);
   (0x377, 0x377, 1, 0x376); (0x37B, 0x37D, 1, 0x3FD);
   (0x3AC, 0x3AC, 1, 0x386); (0x3AD, 0x3AF, 1, 0x388);
   (0x3B1, 0x3C1, 1, 0x391); (0x3C2, 0x3C2, 1, 0x3A3);
   (0x3C3, 0x3CB, 1, 0x3A3); (0x3CC, 0x3CC, 1, 0x38C);
   (0x3CD, 0x3CE, 1, 0x38E); (0x3D0, 0x3D0, 1, 0x392);
   (0x3D1, 0x3D1, 1, 0x398); (0x3D5, 0x3D5, 1, 0x3A6);
   (0x3D6, 0x3D6, 1, 0x3A0); (0x3D7, 0x3D7, 1, 0x3CF);
   (0x3D9, 0x3EF, 2, 0x3D8); (0x3F0, 0x3F0, 1, 0x39A);
   (0x3F1, 0x3F1, 1, 0x3A1); (0x3F2, 0x3F2, 1, 0x3F9);
   (0x3F3, 0x3F3, 1, 0x37F); (0x3F5, 0x3F5, 1, 0x395);
   (0x3F8, 0x3F8, 1, 0x3F7); (0x3FB, 0x3FB, 1, 0x3FA);
   (0x430, 0x44F, 1, 0x410); (0x450, 0x45F, 1, 0x400);
   (0x461, 0x481, 2, 0x460); (0x48B, 0x4BF, 2, 0x48A);
   (0x4C2, 0x4CE, 2, 0x4C1); (0x4CF, 0x4CF, 1, 0x4C0);
   (0x4D1, 0x52F, 2, 0x4D0); (0x561, 0x586, 1, 0x531);
   (0x13F8, 0x13FD, 1, 0x13F0); (0x1C80, 0x1C80, 1, 0x412);
   (0x1C81, 0x1C81, 1, 0x414); (0x1C82, 0x1C82, 1, 0x41E);
   (0x1C83, 0x1C84, 1, 0x421); (0x1C85, 0x1C85, 1, 0x422);
   (0x1C86, 0x1C86, 1, 0x42A); (0x1C87, 0x1C87, 1, 0x462);
   (0x1C88, 0x1C88, 1, 0xA64A); (0x1D79, 0x1D79, 1, 0xA77D);
   (0x1D7D, 0x1D7D, 1, 0x2C63); (0x1D8E, 0x1D8E, 1, 0xA7C6);
   (0x1E01, 0x1E95, 2, 0x1E00); (0x1E9B, 0x1E9B, 1, 0x1E60);
   (0x1EA1, 0x1EFF, 2, 0x1EA0); (0x1F00, 0x1F07, 1, 0x1F08);
   (0x1F10, 0x1F15, 1, 0x1F18); (0x1F20, 0x1F27, 1, 0x1F28);
   (0x1F30, 0x1F37, 1, 0x1F38); (0x1F40, 0x1F45, 1, 0x1F48);
   (0x1F51, 0x1F57, 2, 0x1F59); (0x1F60, 0x1F67, 1, 0x1F68);
   (0x1F70, 0x1F71, 1, 0x1FBA); (0x1F72, 0x1F75, 1, 0x1FC8);
   (0x1F76, 0x1F77, 1, 0x1FDA); (0x1F78, 0x1F79, 1, 0x1FF8);
   (0x1F7A, 0x1F7B, 1, 0x1FEA); (0x1F7C, 0x1F7D, 1, 0x1FFA);
   (0x1F80, 0x1F87, 1, 0x1F88); (0x1F90, 0x1F97, 1, 0x1F98);
   (0x1FA0, 0x1FA7, 1, 0x1FA8); (0x1FB0, 0x1FB1, 1, 0x1FB8);
   (0x1FB3, 0x1FB3, 1, 0x1FBC); (0x1FBE, 0x1FBE, 1, 0x399);
   (0x1FC3, 0x1FC3, 1, 0x1FCC); (0x1FD0, 0x1FD1, 1, 0x1FD8);
   (0x1FE0, 0x1FE1, 1, 0x1FE8); (0x1FE5, 0x1FE5, 1, 0x1FEC);
   (0x1FF3, 0x1FF3, 1, 0x1FFC); (0x214E, 0x214E, 1, 0x2132);
   (0x2170, 0x217F, 1, 0x2160); (0x2184, 0x2184, 1, 0x2183);
   (0x24D0, 0x24E9, 1, 0x24B6); (0x2C30, 0x2C5F, 1, 0x2C00);
   (0x2C61, 0x2C61, 1, 0x2C60); (0x2C65, 0x2C65, 1, 0x23A);
   (0x2C66, 0x2C66, 1, 0x23E); (0x2C68, 0x2C6C, 2, 0x2C67);
   (0x2C73, 0x2C73, 1, 0x2C72); (0x2C76, 0x2C76, 1, 0x2C75);
   (0x2C81, 0x2CE3, 2, 0x2C80); (0x2CEC, 0x2CEE, 2, 0x2CEB);
   (0x2CF3, 0x2CF3, 1, 0x2CF2); (0x2D00, 0x2D25, 1, 0x10A0);
   (0x2D27, 0x2D27, 1, 0x10C7); (0x2D2D, 0x2D2D, 1, 0x10CD);
   (0xA641, 0xA66D, 2, 0xA640); (0xA681, 0xA69B, 2, 0xA680);
   (0xA723, 0xA72F, 2, 0xA722); (0xA733, 0xA76F, 2, 0xA732);
   (0xA77A, 0xA77C, 2, 0xA779); (0xA77F, 0xA787, 2, 0xA77E);
   (0xA78C, 0xA78C, 1, 0xA78B); (0xA791, 0xA793, 2, 0xA790);
   (0xA794, 0xA794, 1, 0xA7C4); (0xA797, 0xA7A9, 2, 0xA796);
   (0xA7B5, 0xA7C3, 2, 0xA7B4); (0xA7C8, 0xA7CA, 2, 0xA7C7);
   (0xA7D1, 0xA7D1, 1, 0xA7D0); (0xA7D7, 0xA7D9, 2, 0xA7D6);
   (0xA7F6, 0xA7F6, 1, 0xA7F5); (0xAB53, 0xAB53, 1, 0xA7B3);
   (0xAB70, 0xABBF, 1, 0x13A0); (0xFF41, 0xFF5A, 1, 0xFF21);
   (0x10428, 0x1044F, 1, 0x10400); (0x104D8, 0x104FB, 1, 0x104B0);
   (0x10597, 0x105A1, 1, 0x10570); (0x105A3, 0x105B1, 1, 0x1057C);
   (0x105B3, 0x105B9, 1, 0x1058C); (0x105BB, 0x105BC, 1, 0x10594);
   (0x10CC0, 0x10CF2, 1, 0x10C80); (0x118C0, 0x118DF, 1, 0x118A0);
   (0x16E60, 0x16E7F, 1, 0x16E40); (0x1E922, 0x1E943, 1, 0x1E900)]%N.

(** The titlecase mappings to more than one character. *)
Definition title_special : list (N * list N) :=
  [(0xDF, [0x53; 0x73]); (0x149, [0x2BC; 0x4E]); (0x1F0, [0x4A; 0x30C]);
   (0x390, [0x399; 0x308; 0x301]); (0x3B0, [0x3A5; 0x308; 0x301]);
   (0x587, [0x535; 0x582]); (0x1E96, [0x48; 0x331]); (0x1E97, [0x54; 0x308]);
   (0x1E98, [0x57; 0x30A]); (0x1E99, [0x59; 0x30A]); (0x1E9A, [0x41; 0x2BE]);
   (0x1F50, [0x3A5; 0x313]); (0x1F52, [0x3A5; 0x313; 0x300]);
   (0x1F54, [0x3A5; 0x313; 0x301]); (0x1F56, [0x3A5; 0x313; 0x342]);
   (0x1FB2, [0x1FBA; 0x345]); (0x1FB4, [0x386; 0x345]);
   (0x1FB6, [0x391; 0x342]); (0x1FB7, [0x391; 0x342; 0x345]);
   (0x1FC2, [0x1FCA; 0x345]); (0x1FC4, [0x389; 0x345]);
   (0x1FC6, [0x397; 0x342]); (0x1FC7, [0x397; 0x342; 0x345]);
   (0x1FD2, [0x399; 0x308; 0x300]); (0x1FD3, [0x399; 0x308; 0x301]);
   (0x1FD6, [0x399; 0x342]); (0x1FD7, [0x399; 0x308; 0x342]);
   (0x1FE2, [0x3A5; 0x308; 0x300]); (0x1FE3, [0x3A5; 0x308; 0x301]);
   (0x1FE4, [0x3A1; 0x313]); (0x1FE6, [0x3A5; 0x342]);
   (0x1FE7, [0x3A5; 0x308; 0x342]); (0x1FF2, [0x1FFA; 0x345]);
   (0x1FF4, [0x38F; 0x345]); (0x1FF6, [0x3A9; 0x342]);
   (0x1FF7, [0x3A9; 0x342; 0x345]); (0xFB00, [0x46; 0x66]);
   (0xFB01, [0x46; 0x69]); (0xFB02, [0x46; 0x6C]);
   (0xFB03, [0x46; 0x66; 0x69]); (0xFB04, [0x46; 0x66; 0x6C]);
   (0xFB05, [0x53; 0x74]); (0xFB06, [0x53; 0x74]); (0xFB13, [0x544; 0x576]);
   (0xFB14, [0x544; 0x565]); (0xFB15, [0x544; 0x56B]);
   (0xFB16, [0x54E; 0x576]); (0xFB17, [0x544; 0x56D])]%N.

(** The classes [[A-Z]] and [[a-z]] of [re]. *)
Definition is_upper (c : char) : bool := ((65 <=? c) && (c <=? 90))%N.
Definition is_lower (c : char) : bool := ((97 <=? c) && (c <=? 122))%N.
(** [c.isdigit()] *)
Definition is_digit (c : char) : bool := in_ranges c digit_ranges.
(** The class [\d] of [re]. *)
Definition is_decimal (c : char) : bool := in_ranges c decimal_ranges.
Definition is_cased (c : char) : bool := in_ranges c cased_ranges.
Definition is_case_ignorable (c : char) : bool :=
  in_ranges c case_ignorable_ranges.

Definition case_map (specials : list (N * list N))
    (groups : list (N * N * N * N)) (c : char) : str :=
  match special c specials with
  | Some image => image
  | None => match mapped c groups with
            | Some c' => [c']
            | None => [c]
            end
  end.

(** The full lowercase and titlecase mappings of one character. *)
Definition lower_full : char -> str := case_map lower_special lower_groups.
Definition title_full : char -> str := case_map title_special title_groups.

Definition capital_sigma : char := 0x3A3%N.
Definition small_sigma : char := 0x3C3%N.
Definition final_sigma : char := 0x3C2%N.

Fixpoint first_not_ignorable (s : str) : option char :=
  match s with
  | [] => None
  | c :: s' => if is_case_ignorable c then first_not_ignorable s' else Some c
  end.

(** The lowercase of a capital sigma: the final form when a cased character
    comes before it and none after it, case-ignorable characters apart.
    [before] holds the characters in front, the nearest first. *)
Definition sigma (before after : str) : char :=
  match first_not_ignorable before with
  | Some b =>
      if is_cased b then
        match first_not_ignorable after with
        | Some a => if is_cased a then small_sigma else final_sigma
        | None => final_sigma
        end
      else small_sigma
  | None => small_sigma
  end.

Definition lower_at (before : str) (c : char) (after : str) : str :=
  if (c =? capital_sigma)%N then [sigma before after] else lower_full c.

Fixpoint lower_go (before s : str) : str :=
  match s with
  | [] => []
  | c :: s' => lower_at before c s' ++ lower_go (c :: before) s'
  end.

(** [s.lower()] *)
Definition lower (s : str) : str := lower_go [] s.

(** [s.isdigit()]: non-empty and made of digits only. *)
Definition isdigit (s : str) : bool :=
  match s with [] => false | _ => forallb is_digit s end.

(** [s.split(sep)] for a non-empty separator.  [skip] counts the characters
    of a separator occurrence that remain to be passed over. *)
Fixpoint split_go (sep s : str) (skip : nat) (cur : str) : list str :=
  match s with
  | [] => [rev cur]
  | c :: s' =>
      match skip with
      | S k => split_go sep s' k cur
      | O =>
          if startswith sep s
          then rev cur :: split_go sep s' (List.length sep - 1) []
          else split_go sep s' 0 (c :: cur)
      end
  end.

Definition split (sep s : str) : list str := split_go sep s 0 [].

(** [s.split(sep, 1)] *)
Definition split1 (sep s : str) : list str :=
  match find sep s with
  | Some i => [upto i s; from (i + List.length sep) s]
  | None => [s]
  end.

(** [sep.join(parts)] *)
Fixpoint join (sep : str) (parts : list str) : str :=
  match parts with
  | [] => []
  | [p] => p
  | p :: rest => p ++ sep ++ join sep rest
  end.

(** [s.replace(a, b)] for single characters. *)
Definition replace_char (a b : char) (s : str) : str :=
  map (fun c => if (c =? a)%N then b else c) s.

(** [s.title()]: a character that follows a cased one is lower-cased,
    any other one is title-cased. *)
Fixpoint title_go (prev_cased : bool) (before s : str) : str :=
  match s with
  | [] => []
  | c :: s' =>
      (if prev_cased then lower_at before c s' else title_full c)
        ++ title_go (is_cased c) (c :: before) s'
  end.
Definition title (s : str) : str := title_go false [] s.

(** Lexicographic comparison of strings by code point: Python's [<=]. *)
Fixpoint leb (a b : str) : bool :=
  match a, b with
  | [], _ => true
  | _ :: _, [] => false
  | x :: a', y :: b' =>
      if (x <? y)%N then true
      else if (y <? x)%N then false
      else leb a' b'
  end.

(** [str(n)] for a natural number. *)
Fixpoint digits_go (fuel n : nat) (acc : str) : str :=
  match fuel with
  | O => acc
  | S f =>
      let d := (48 + N.of_nat (n mod 10))%N in
      if n <? 10 then d :: acc else digits_go f (n / 10) (d :: acc)
  end.
Definition of_nat (n : nat) : str := digits_go (S n) n [].

End PyStr.

Import PyStr.

(* ================================================================== *)
(** * The fragment of [re] used by the extractor *)
(* ================================================================== *)

Module Regex.

Inductive re : Type :=
| Eps
| Chr (p : char -> bool)
| Cat (a b : re)
| Alt (a b : re)
| Star (a : re).

Definition Plus (a : re) : re := Cat a (Star a).
Definition Opt (a : re) : re := Alt a Eps.
Definition Never : re := Chr (fun _ => false).

Fixpoint Lit (s : str) : re :=
  match s with
  | [] => Eps
  | c :: s' => Cat (Chr (N.eqb c)) (Lit s')
  end.

(** [(?:a|b|...)] *)
Definition OneOf (l : list re) : re := fold_right Alt Never l.

Fixpoint Seq (l : list re) : re :=
  match l with
  | [] => Eps
  | [a] => a
  | a :: l' => Cat a (Seq l')
  end.

(** Character classes: [\d], [\s], [[A-Z]], [[a-z]] and [.] (any character
    but a newline, as no flag is passed). *)
Definition d : re := Chr is_decimal.
Definition s : re := Chr isspace.
Definition AZ : re := Chr is_upper.
Definition az : re := Chr is_lower.
Definition dot : re := Chr (fun c => negb (c =? 10)%N).

(** The iteration of a star: every round has to consume input. *)
Fixpoint star_rems (f : str -> list str) (fuel : nat) (x : str) : list str :=
  x :: match fuel with
       | O => []
       | S n =>
           flat_map
             (fun x' =>
                if List.length x' <? List.length x then star_rems f n x' else [])
             (f x)
       end.

(** [rems r x]: the suffixes of [x] that remain once [r] has matched a
    prefix of [x], over all the ways [r] can match. *)
Fixpoint rems (r : re) (x : str) : list str :=
  match r with
  | Eps => [x]
  | Chr p => match x with
             | c :: x' => if p c then [x'] else []
             | [] => []
             end
  | Cat a b => flat_map (rems b) (rems a x)
  | Alt a b => rems a x ++ rems b x
  | Star a => star_rems (rems a) (List.length x) x
  end.

Definition is_nil (x : str) : bool :=
  match x with [] => true | _ :: _ => false end.

(** [r] matches at the start of [x]. *)
Definition matches_at (r : re) (x : str) : bool :=
  match rems r x with [] => false | _ :: _ => true end.

(** [r] matches [x] up to its end. *)
Definition matches_to_end (r : re) (x : str) : bool :=
  existsb is_nil (rems r x).

(** [re.search(r, x).start()], [None] when there is no match. *)
Fixpoint search (r : re) (x : str) : option nat :=
  if matches_at r x then Some 0
  else match x with
       | [] => None
       | _ :: x' => option_map S (search r x')
       end.

(** Start of the leftmost match of [r$] in [x].  For the two patterns of the
    source that end in [\s*$] a match always runs to the end of the string
    (a final newline is taken by [\s*]), so that [re.sub(r$, '', x)] is
    [x[:i]] for the [i] found here. *)
Fixpoint search_to_end (r : re) (x : str) : option nat :=
  if matches_to_end r x then Some 0
  else match x with
       | [] => None
       | _ :: x' => option_map S (search_to_end r x')
       end.

Definition sub_to_end (r : re) (x : str) : str :=
  match search_to_end r x with
  | Some i => upto i x
  | None => x
  end.

End Regex.

(* ================================================================== *)
(** * Data model *)
(* ================================================================== *)

(** A value of the answer as far as the scanner tells values apart: a
    string, or any other JSON value ([null], a number, a boolean, a list, an
    object). *)
Inductive json : Type :=
| JStr (s : str)
| JOther.

(** The dictionary returned by the classifier ([json.loads] of the model's
    answer, or one of the two error dictionaries). *)
Record verdict : Type := {
  relevant : bool;
  service_type : option json;
  reason : option str
}.

(** The post dictionaries built by the extractor and enriched later on. *)
Record post : Type := {
  text : str;
  author : str;
  url : str;
  search_term : str;
  debug_full_text : str;
  scroll_found : option nat;
  analysis : option verdict
}.

Definition truthy (x : str) : bool :=
  match x with [] => false | _ :: _ => true end.

Definition mem (k : str) (seen : list str) : bool := existsb (eqb k) seen.

(* ================================================================== *)
(** * PostExtractor: [_extract_nextdoor_posts] *)
(* ================================================================== *)

Module Extractor.

Import Regex.

(** What the loop reads from one container: [get_text(strip=True)] and the
    [href] of its [BaseLink__kjvg670] anchor, if any. *)
Record container : Type := {
  full_text : str;
  href : option str
}.

Definition locations : list str :=
  map u ["West Studio City"; "Studio City"; "Sherman Oaks"; "Panorama City";
         "Mandeville Canyon"; "Cahuenga Pass"; "Brentwood Place";
         "West Hills"; "North Hollywood"; "Valley Village"; "Los Angeles";
         "West LA"; "Encino"; "Tarzana"; "Burbank"; "Brentwood"; "Palisades";
         "The Highlands"; "Glendale"; "Pasadena"; "Beverly Hills"; "WeHo";
         "Kenter"; "Central"]%string.

(** The [for location in locations] loop: the first known location found at
    a positive index cuts the author name; one found at index 0 is passed
    over. *)
Fixpoint author_before_location (locs : list str) (author_location : str)
  : str :=
  match locs with
  | [] => author_location
  | location :: rest =>
      if contains location author_location then
        match find location author_location with
        | Some (S i) => strip (upto (S i) author_location)
        | _ => author_before_location rest author_location
        end
      else author_before_location rest author_location
  end.

(** [\s*(CA|California)\s*$] *)
Definition trailing_state : re :=
  Seq [Star s; Alt (Lit (u "CA")) (Lit (u "California")); Star s].

Definition reply_places : list str :=
  map u ["Los Angeles"; "Studio City"; "Sherman Oaks"; "Encino"; "Burbank";
         "Panorama City"; "Mandeville"; "Cahuenga"; "Brentwood"; "Palisades";
         "Highlands"; "West"; "Central"; "Kenter"; "WeHo"; "Glendale"]%string.

(** [(\d+)([A-Z][a-z]*\s*[A-Z][a-z]*.*?(?:Los Angeles|...|Glendale))] *)
Definition reply_pattern1 : re :=
  Seq [Plus d; AZ; Star az; Star s; AZ; Star az; Star dot;
       OneOf (map Lit reply_places)].

(** [(\d{2,})([A-Z][A-Z][a-z])] *)
Definition reply_pattern2 : re :=
  Seq [d; d; Star d; AZ; AZ; az].

(** [(\d+\s*hr?\s*ago)([A-Z][a-z]+ [A-Z])] *)
Definition reply_pattern3 : re :=
  Seq [Plus d; Star s; Lit (u "h"); Opt (Lit (u "r")); Star s; Lit (u "ago");
       AZ; Plus az; Lit (u " "); AZ].

Definition reply_patterns : list re :=
  [reply_pattern1; reply_pattern2; reply_pattern3].

(** The [for pattern in reply_patterns] loop: the first pattern that matches
    somewhere cuts the text at the start of its match. *)
Fixpoint cut_reply (patterns : list re) (post_text : str) : str :=
  match patterns with
  | [] => post_text
  | pattern :: rest =>
      match search pattern post_text with
      | Some start => strip (upto start post_text)
      | None => cut_reply rest post_text
      end
  end.

(** [re.sub(r'^\d+\s*', '', x)] *)
Definition drop_leading_number (x : str) : str :=
  match x with
  | c :: _ =>
      if is_decimal c then dropwhile isspace (dropwhile is_decimal x) else x
  | [] => []
  end.

(** [re.sub(r'\d+\s*$', '', x)] *)
Definition drop_trailing_number (x : str) : str :=
  sub_to_end (Cat (Plus d) (Star s)) x.

Definition reply_indicators : list str :=
  map u ["@"; "Reply to"; "Thanks"; "Thank you"; "Yes"; "No"; "Agree";
         "Same here"]%string.

(** Author and body as read off [full_text], lines 1271-1342. *)
Definition split_author_text (full : str) : str * str :=
  let parts := split (u " · ") full in
  match parts with
  | part0 :: ((_ :: _) as rest) =>
      let author_location := strip part0 in
      let author_name :=
        if contains (u ", CA") author_location
        then strip (hd [] (split (u ", CA") author_location))
        else strip (sub_to_end trailing_state
                      (author_before_location locations author_location)) in
      let remaining := join (u " · ") rest in
      let post_text :=
        if contains (u " ago") remaining then
          match split1 (u " ago") remaining with
          | [_; after] => strip after
          | _ => []
          end
        else remaining in
      let post_text :=
        if truthy post_text then cut_reply reply_patterns post_text
        else post_text in
      (author_name, post_text)
  | _ => ([], full)
  end.

(** One round of the container loop; [None] stands for [continue] and for a
    container that is skipped as a reply. *)
Definition extract_container (c : container) : option post :=
  let post_url :=
    match href c with
    | Some h => if truthy h then u "https://nextdoor.com" ++ h else []
    | None => []
    end in
  let full := full_text c in
  if contains (u "Traffic Alerts") full || negb (truthy full) then None
  else
    let '(author_name, post_text) := split_author_text full in
    let post_text :=
      if truthy post_text
      then strip (drop_trailing_number (drop_leading_number post_text))
      else post_text in
    if negb (truthy author_name) || negb (truthy post_text)
       || (List.length post_text <? 20)
    then None
    else if truthy post_text && (30 <? List.length post_text)
            && truthy author_name && negb (eqb author_name (u "Unknown"))
    then
      let is_main_post :=
        negb (List.length post_text <? 40)
        && negb (existsb (fun indicator => contains indicator (upto 30 post_text))
                   reply_indicators) in
      if is_main_post
      then Some {| text := post_text; author := author_name; url := post_url;
                   search_term := []; debug_full_text := upto 200 full;
                   scroll_found := None; analysis := None |}
      else None
    else None.

(** The key of the duplicate filters: [post['text'][:50].lower().strip()]. *)
Definition text_key (p : post) : str := strip (lower (upto 50 (text p))).

(** The "Remove duplicates" loop, lines 1390-1400 (and 698-706). *)
Fixpoint remove_duplicates (posts : list post) (seen_texts : list str)
  : list post :=
  match posts with
  | [] => []
  | p :: rest =>
      if mem (text_key p) seen_texts
      then remove_duplicates rest seen_texts
      else p :: remove_duplicates rest (text_key p :: seen_texts)
  end.

Fixpoint filter_map {A B} (f : A -> option B) (l : list A) : list B :=
  match l with
  | [] => []
  | a :: l' => match f a with
               | Some b => b :: filter_map f l'
               | None => filter_map f l'
               end
  end.

(** A rendered page as the extractor sees it: [None] when the main content
    area is missing (or the extraction fails as a whole, which the outer
    handler turns into an empty result), else the post containers selected
    by the fallback ladder. *)
Definition page : Type := option (list container).

Definition _extract_nextdoor_posts (pg : page) : list post :=
  match pg with
  | None => []
  | Some post_containers =>
      remove_duplicates (filter_map extract_container post_containers) []
  end.

End Extractor.

(* ================================================================== *)
(** * Harvester: [_scroll_and_collect_posts] *)
(* ================================================================== *)

Module Harvester.

Import Extractor.

(** How a call ends: with a value, or with an exception that leaves the
    function. *)
Inductive outcome (A : Type) : Type :=
| Returned (a : A)
| Raised.
Arguments Returned {A} a.
Arguments Raised {A}.

(** What the browser does during one round of the loop: the page the
    extractor reads, and whether the driver scripts of the round (reading
    the page height before extraction, scrolling after it) run or raise. *)
Record scroll_env : Type := {
  shown : page;
  height_ok : bool;
  scrolling_ok : bool
}.

(** The feed lists the rounds by scroll number, starting at 1. *)
Definition feed : Type := nat -> scroll_env.

(** The comparison of the loop: [existing['text'][:50] == post['text'][:50]]. *)
Definition prefix50 (p : post) : str := upto 50 (text p).

Definition same_prefix (existing p : post) : bool :=
  eqb (prefix50 existing) (prefix50 p).

Definition found_at (scroll_count : nat) (p : post) : post :=
  {| text := text p; author := author p; url := url p;
     search_term := search_term p; debug_full_text := debug_full_text p;
     scroll_found := Some scroll_count; analysis := analysis p |}.

(** The [for post in posts] loop, lines 1485-1490. *)
Fixpoint add_new_posts (posts all_posts : list post)
    (scroll_count new_posts_added : nat) : list post * nat :=
  match posts with
  | [] => (all_posts, new_posts_added)
  | p :: rest =>
      if existsb (fun existing => same_prefix existing p) all_posts
      then add_new_posts rest all_posts scroll_count new_posts_added
      else add_new_posts rest (all_posts ++ [found_at scroll_count p])
             scroll_count (S new_posts_added)
  end.

Record loop_state : Type := {
  all_posts : list post;
  scroll_count : nat;
  no_new_posts_count : nat
}.

Definition initial : loop_state :=
  {| all_posts := []; scroll_count := 0; no_new_posts_count := 0 |}.

(** The [while scroll_count < max_scrolls] loop.  [fuel] bounds the number
    of rounds the model may unfold; [None] means the fuel ran out.  The
    result pairs the outcome with the value of [scroll_count] at exit. *)
Fixpoint scroll_loop (fuel : nat) (f : feed) (max_scrolls : nat)
    (st : loop_state) : option (outcome (list post) * nat) :=
  if scroll_count st <? max_scrolls then
    match fuel with
    | O => None
    | S fuel' =>
        let count := S (scroll_count st) in
        let env := f count in
        if negb (height_ok env) then Some (Raised, count)
        else
          let posts := _extract_nextdoor_posts (shown env) in
          let '(all, new_posts_added) :=
            add_new_posts posts (all_posts st) count 0 in
          let no_new :=
            if new_posts_added =? 0 then S (no_new_posts_count st) else 0 in
          if 3 <=? no_new then Some (Returned all, count)
          else if negb (scrolling_ok env) then Some (Raised, count)
          else scroll_loop fuel' f max_scrolls
                 {| all_posts := all; scroll_count := count;
                    no_new_posts_count := no_new |}
    end
  else Some (Returned (all_posts st), scroll_count st).

Definition _scroll_and_collect_posts (f : feed) (max_scrolls : nat)
  : option (outcome (list post) * nat) :=
  scroll_loop max_scrolls f max_scrolls initial.

(** The default of the keyword argument. *)
Definition default_max_scrolls : nat := 20.

(** The dedup key as the specification words it, for comparison with
    [prefix50]: the lowercased first 50 characters of the text. *)
Definition dedup_key (p : post) : str := lower (upto 50 (text p)).

End Harvester.

(* ================================================================== *)
(** * CredentialPool and Classifier *)
(* ================================================================== *)

Module Classifier.

(** [BulqitGroqClient]: the keys, the cursor and the usage counter.  The
    [Groq] handle [self.client] is always the one built from
    [api_keys[current_key_index]], so it is not stored. *)
Record client : Type := {
  api_keys : list str;
  current_key_index : nat;
  daily_request_count : nat
}.

(** [__init__], once the keys have been read from the file or from the
    environment; [None] is the [ValueError] for an empty list. *)
Definition BulqitGroqClient_init (keys : list str) : option client :=
  match keys with
  | [] => None
  | _ :: _ => Some {| api_keys := keys; current_key_index := 0;
                      daily_request_count := 0 |}
  end.

(** [_rotate_api_key].  On naturals [len - 1] is [0] for an empty list, where
    Python has [-1]; the test fails in both readings. *)
Definition _rotate_api_key (c : client) : bool * client :=
  if current_key_index c <? List.length (api_keys c) - 1
  then (true, {| api_keys := api_keys c;
                 current_key_index := current_key_index c + 1;
                 daily_request_count := 0 |})
  else (false, c).

(** The answer of the remote service to one request. *)
Inductive reply : Type :=
| Answer (content : str)
| Fails (error_str : str).

(** The client together with the log of the requests sent so far: the key
    index each one was sent with, oldest first. *)
Record world : Type := {
  pool : client;
  attempts : list nat
}.

Definition all_keys_exhausted : verdict :=
  {| relevant := false; service_type := None;
     reason := Some (u "all_keys_exhausted") |}.

Definition analysis_error (error_str : str) : verdict :=
  {| relevant := false; service_type := None;
     reason := Some (u "analysis_error: " ++ error_str) |}.

(** ["rate_limit_exceeded" in error_str or "429" in error_str] *)
Definition is_rate_limit (error_str : str) : bool :=
  contains (u "rate_limit_exceeded") error_str || contains (u "429") error_str.

Section Remote.

(** The remote model: its reply to a request depends on the requests seen
    before, on the key used and on the post. *)
Variable remote : list nat -> nat -> str -> str -> reply.

(** Lines 211-225: cleaning the answer and [json.loads]; on the right the
    text of the exception raised for an answer that does not parse. *)
Variable parse : str -> verdict + str.

Definition send (w : world) (post_text author_name : str) : reply * world :=
  (remote (attempts w) (current_key_index (pool w)) post_text author_name,
   {| pool := pool w;
      attempts := attempts w ++ [current_key_index (pool w)] |}).

Definition count_request (w : world) : world :=
  {| pool := {| api_keys := api_keys (pool w);
                current_key_index := current_key_index (pool w);
                daily_request_count := daily_request_count (pool w) + 1 |};
     attempts := attempts w |}.

Definition rotate (w : world) : bool * world :=
  let '(ok, c) := _rotate_api_key (pool w) in
  (ok, {| pool := c; attempts := attempts w |}).

(** [analyze_nextdoor_post]; each unfolding of the recursive retry uses one
    unit of [fuel], [None] means the fuel ran out. *)
Fixpoint analyze_fuel (fuel : nat) (w : world) (post_text author_name : str)
  : option (verdict * world) :=
  match fuel with
  | O => None
  | S fuel' =>
      let on_exception (error_str : str) (w : world) :=
        if is_rate_limit error_str then
          let '(rotated, w') := rotate w in
          if rotated then analyze_fuel fuel' w' post_text author_name
          else Some (all_keys_exhausted, w')
        else Some (analysis_error error_str, w) in
      let '(r, w1) := send w post_text author_name in
      match r with
      | Fails error_str => on_exception error_str w1
      | Answer content =>
          let w2 := count_request w1 in
          match parse content with
          | inl v => Some (v, w2)
          | inr error_str => on_exception error_str w2
          end
      end
  end.

(** The world once a request has been logged. *)
Definition logged (w : world) : world :=
  {| pool := pool w; attempts := attempts w ++ [current_key_index (pool w)] |}.

(** What the handler of [analyze_nextdoor_post] does with an exception,
    as a function of its own. *)
Definition on_exception (fuel : nat) (post_text author_name error_str : str)
    (w : world) : option (verdict * world) :=
  if is_rate_limit error_str then
    if fst (rotate w)
    then analyze_fuel fuel (snd (rotate w)) post_text author_name
    else Some (all_keys_exhausted, snd (rotate w))
  else Some (analysis_error error_str, w).

(** A retry follows a rotation, and there are fewer rotations than keys. *)
Definition analyze_nextdoor_post (w : world) (post_text author_name : str)
  : option (verdict * world) :=
  analyze_fuel (S (List.length (api_keys (pool w)))) w post_text author_name.

Definition with_analysis (p : post) (v : verdict) : post :=
  {| text := text p; author := author p; url := url p;
     search_term := search_term p; debug_full_text := debug_full_text p;
     scroll_found := scroll_found p; analysis := Some v |}.

(** [filter_posts] *)
Fixpoint filter_posts (w : world) (posts : list post)
  : option (list post * world) :=
  match posts with
  | [] => Some ([], w)
  | p :: rest =>
      match analyze_nextdoor_post w (text p) (author p) with
      | None => None
      | Some (v, w') =>
          match filter_posts w' rest with
          | None => None
          | Some (relevant_posts, w'') =>
              Some (if relevant v
                    then with_analysis p v :: relevant_posts
                    else relevant_posts, w'')
          end
      end
  end.

(** [filter_posts] together with the list it was given, as the loop leaves
    it: [post['analysis'] = analysis] (line 256) writes into the
    dictionaries of that list, so that its relevant posts carry their
    analysis afterwards. *)
Fixpoint filter_posts_in_place (w : world) (posts : list post)
  : option (list post * list post * world) :=
  match posts with
  | [] => Some ([], [], w)
  | p :: rest =>
      match analyze_nextdoor_post w (text p) (author p) with
      | None => None
      | Some (v, w') =>
          match filter_posts_in_place w' rest with
          | None => None
          | Some (relevant_posts, rest', w'') =>
              Some (if relevant v
                    then (with_analysis p v :: relevant_posts,
                          with_analysis p v :: rest', w'')
                    else (relevant_posts, p :: rest', w''))
          end
      end
  end.

(** [_detect_post_selector_with_ai]: one request with the current key, no
    rotation whatever the reply. *)
Definition _detect_post_selector_with_ai (w : world) (html_source : str)
  : option str * world :=
  let '(r, w1) := send w (upto (50 * 1000) html_source) [] in
  match r with
  | Answer content =>
      let selector := strip content in
      if startswith (u ".") selector || startswith (u "[") selector
      then (Some selector, w1) else (None, w1)
  | Fails _ => (None, w1)
  end.

(** The operations of a run that reach the credential pool. *)
Inductive operation : Type :=
| Rotate
| Analyze (post_text author_name : str)
| FilterPosts (posts : list post)
| DetectSelector (html_source : str).

Definition run_operation (o : operation) (w : world) : option world :=
  match o with
  | Rotate => Some (snd (rotate w))
  | Analyze t a => option_map snd (analyze_nextdoor_post w t a)
  | FilterPosts posts => option_map snd (filter_posts w posts)
  | DetectSelector html => Some (snd (_detect_post_selector_with_ai w html))
  end.

Fixpoint run_operations (ops : list operation) (w : world) : option world :=
  match ops with
  | [] => Some w
  | o :: rest =>
      match run_operation o w with
      | None => None
      | Some w' => run_operations rest w'
      end
  end.

(** Every request of the remote model fails with a rate-limit error. *)
Definition always_rate_limited : Prop :=
  forall seen key t a,
    exists error_str,
      remote seen key t a = Fails error_str
      /\ is_rate_limit error_str = true.

End Remote.

(** The invariant of the cursor between two states of a run. *)
Definition advances (w w' : world) : Prop :=
  api_keys (pool w') = api_keys (pool w)
  /\ current_key_index (pool w) <= current_key_index (pool w')
  /\ current_key_index (pool w')
     <= Nat.max (current_key_index (pool w))
          (List.length (api_keys (pool w)) - 1).

Definition fresh (c : client) : world := {| pool := c; attempts := [] |}.

End Classifier.

(* ================================================================== *)
(** * VerificationChannel: the 2FA gist *)
(* ================================================================== *)

Module Verification.

(** What a call can raise: an exception of class [Exception], which the
    handlers of the source catch, or a [KeyboardInterrupt], which is not an
    [Exception] and which they let through. *)
Inductive exn : Type :=
| Exception (msg : str)
| KeyboardInterrupt.

(** The calls that leave the process. *)
Inductive call : Type :=
| CreateGist
| SendNotification (gist_url : str)
| ReadGist (gist_id : str)
| DeleteGist (gist_id : str)
| Sleep (seconds : nat).

(** An HTTP response: the status and the fields the source reads from its
    JSON body, [None] for a field that is missing. *)
Record response : Type := {
  status_code : nat;
  json_id : option str;
  json_html_url : option str;
  json_content : option str
}.

Inductive reply : Type :=
| Replies (r : response)
| Raises (e : exn).

(** The outside world: its reply to the [n]-th call of the run. *)
Definition env : Type := nat -> call -> reply.

(** The fields of [NextdoorScanner] the channel uses ([github_token] is
    empty when [GIST_TOKEN] is not set), and the calls made so far. *)
Record scanner : Type := {
  github_token : str;
  current_gist_id : option str;
  trace : list call
}.

Inductive result (A : Type) : Type :=
| Ok (a : A)
| Err (e : exn).
Arguments Ok {A} a.
Arguments Err {A} e.

(** State and exceptions. *)
Definition M (A : Type) : Type := scanner -> result A * scanner.

Definition ret {A} (a : A) : M A := fun st => (Ok a, st).

Definition raise {A} (e : exn) : M A := fun st => (Err e, st).

Definition bind {A B} (m : M A) (k : A -> M B) : M B :=
  fun st =>
    match m st with
    | (Ok a, st') => k a st'
    | (Err e, st') => (Err e, st')
    end.

Notation "x <- m ;; k" := (bind m (fun x => k))
  (at level 61, m at next level, right associativity).
Notation "m ;;; k" := (bind m (fun _ => k))
  (at level 61, right associativity).

(** [try: m  except Exception as e: handler] *)
Definition try_except {A} (m : M A) (handler : str -> M A) : M A :=
  fun st =>
    match m st with
    | (Err (Exception msg), st') => handler msg st'
    | other => other
    end.

Definition get_gist_id : M (option str) := fun st => (Ok (current_gist_id st), st).
Definition get_token : M str := fun st => (Ok (github_token st), st).

Definition set_gist_id (g : option str) : M unit :=
  fun st => (Ok tt, {| github_token := github_token st;
                       current_gist_id := g; trace := trace st |}).

(** A dictionary lookup: [KeyError] on a missing key. *)
Definition lookup {A} (field : option A) : M A :=
  match field with
  | Some a => ret a
  | None => raise (Exception (u "KeyError"))
  end.

Definition truthy_opt (x : option str) : bool :=
  match x with Some v => truthy v | None => false end.

Section World.

Variable world : env.

Definition perform (c : call) : M response :=
  fun st =>
    let st' := {| github_token := github_token st;
                  current_gist_id := current_gist_id st;
                  trace := trace st ++ [c] |} in
    match world (List.length (trace st)) c with
    | Replies r => (Ok r, st')
    | Raises e => (Err e, st')
    end.

(** [_create_2fa_gist] *)
Definition _create_2fa_gist : M (option str) :=
  token <- get_token ;;
  if negb (truthy token) then ret None
  else
    try_except
      (r <- perform CreateGist ;;
       if status_code r =? 201 then
         gist_id <- lookup (json_id r) ;;
         set_gist_id (Some gist_id) ;;;
         gist_url <- lookup (json_html_url r) ;;
         ret (Some gist_url)
       else ret None)
      (fun _ => ret None).

Definition sentinel : str := u "ENTER_2FA_CODE_HERE".

(** The [for line in lines] loop of [_poll_gist_for_code]. *)
Fixpoint find_code (lines : list str) : option str :=
  match lines with
  | [] => None
  | raw :: rest =>
      let line := strip raw in
      if truthy line && isdigit line && (List.length line =? 6)
      then Some line
      else if truthy line && negb (eqb line sentinel)
              && negb (startswith (u "Instructions:") line)
      then
        let digits := filter is_digit line in
        if List.length digits =? 6 then Some digits else find_code rest
      else find_code rest
  end.

Definition newline : str := [10%N].

(** [_poll_gist_for_code] *)
Definition _poll_gist_for_code : M (option str) :=
  token <- get_token ;;
  gist <- get_gist_id ;;
  match gist with
  | Some gist_id =>
      if negb (truthy token) || negb (truthy gist_id) then ret None
      else
        try_except
          (r <- perform (ReadGist gist_id) ;;
           if status_code r =? 200 then
             file_content <- lookup (json_content r) ;;
             ret (find_code (split newline file_content))
           else ret None)
          (fun _ => ret None)
  | None => ret None
  end.

(** [_delete_2fa_gist] *)
Definition _delete_2fa_gist : M unit :=
  token <- get_token ;;
  gist <- get_gist_id ;;
  match gist with
  | Some gist_id =>
      if negb (truthy token) || negb (truthy gist_id) then ret tt
      else
        try_except
          (perform (DeleteGist gist_id) ;;;
           set_gist_id None)
          (fun _ => ret tt)
  | None => ret tt
  end.

Definition max_attempts : nat := 6.

(** The [while attempt < max_attempts] loop, by the number of attempts that
    remain ([max_attempts - attempt]). *)
Fixpoint poll_rounds (remaining : nat) : M (option str) :=
  match remaining with
  | O =>
      _delete_2fa_gist ;;;
      ret None
  | S remaining' =>
      code <- _poll_gist_for_code ;;
      if truthy_opt code then
        _delete_2fa_gist ;;;
        ret code
      else
        perform (Sleep 30) ;;;
        poll_rounds remaining'
  end.

(** [_wait_for_2fa_code] *)
Definition _wait_for_2fa_code : M (option str) :=
  try_except
    (gist_url <- _create_2fa_gist ;;
     match gist_url with
     | Some gist_url' =>
         if truthy gist_url' then
           perform (SendNotification gist_url') ;;;
           poll_rounds max_attempts
         else ret None
     | None => ret None
     end)
    (fun _ =>
       _delete_2fa_gist ;;;
       ret None).

End World.

(** A scanner with its token, before any gist exists. *)
Definition start (token : str) : scanner :=
  {| github_token := token; current_gist_id := None; trace := [] |}.

Definition is_delete (gist_id : str) (c : call) : bool :=
  match c with
  | DeleteGist g => eqb g gist_id
  | _ => false
  end.

(** The deletion of gist [gist_id] has been requested. *)
Definition deletion_invoked (gist_id : str) (t : list call) : bool :=
  existsb (is_delete gist_id) t.

(** The reply that creates the gist [gist_id]. *)
Definition created (gist_id gist_url : str) : response :=
  {| status_code := 201; json_id := Some gist_id;
     json_html_url := Some gist_url; json_content := None |}.

Definition is_interrupt (r : reply) : bool :=
  match r with
  | Raises KeyboardInterrupt => true
  | _ => false
  end.

Section Vocabulary.

Variable world : env.
Variable gist_id : str.

(** The state after one more call. *)
Definition pushed (st : scanner) (c : call) : scanner :=
  {| github_token := github_token st;
     current_gist_id := current_gist_id st;
     trace := trace st ++ [c] |}.

Definition forgotten (st : scanner) : scanner :=
  {| github_token := github_token st;
     current_gist_id := None;
     trace := trace st |}.

(** The scanner holds a token and the identifier of the gist. *)
Definition ready (st : scanner) : Prop :=
  truthy (github_token st) = true /\ current_gist_id st = Some gist_id.

(** How a run that started at [st] can end at [st'] with result [r]: with
    a value, and then the deletion was requested once, as the last call;
    with an [Exception], before any deletion; or with an interrupt that the
    world raised. *)
Definition ends_well {A} (st : scanner) (r : result A) (st' : scanner)
  : Prop :=
  exists t,
    trace st' = trace st ++ t
    /\ match r with
       | Ok _ =>
           exists t0, t = t0 ++ [DeleteGist gist_id]
                      /\ deletion_invoked gist_id t0 = false
       | Err (Exception _) =>
           deletion_invoked gist_id t = false /\ ready st'
       | Err KeyboardInterrupt =>
           exists n c, world n c = Raises KeyboardInterrupt
       end.

End Vocabulary.

End Verification.

(* ================================================================== *)
(** * [sorted] and [list.sort] on string keys *)
(* ================================================================== *)

Module PySort.

Section ByKey.

Variable A : Type.
Variable key : A -> str.

(** [x] goes in front of the first element whose key is not below its own,
    so that equal keys keep their order: the sort is stable, as Python's. *)
Fixpoint insert (x : A) (l : list A) : list A :=
  match l with
  | [] => [x]
  | y :: l' =>
      if leb (key x) (key y) then x :: y :: l' else y :: insert x l'
  end.

(** [sorted(l, key=key)] *)
Definition sorted (l : list A) : list A := fold_right insert [] l.

(** The order of the sort: Python's [<=] on the keys. *)
Definition key_le (x y : A) : Prop := leb (key x) (key y) = true.

End ByKey.

Arguments key_le {A} key x y.
Arguments insert {A} key x l.
Arguments sorted {A} key l.

(** [enumerate(l, start)] *)
Fixpoint enumerate {A} (start : nat) (l : list A) : list (nat * A) :=
  match l with
  | [] => []
  | x :: l' => (start, x) :: enumerate (S start) l'
  end.

End PySort.

(* ================================================================== *)
(** * Report: [generate_report] *)
(* ================================================================== *)

Module Report.

Import Harvester.

Fixpoint repeat_char (c : char) (n : nat) : str :=
  match n with
  | O => []
  | S n' => c :: repeat_char c n'
  end.

Definition rule : str := repeat_char 61%N 50.
Definition dashes : str := repeat_char 45%N 50.

Definition newline : str := [10%N].

(** [analysis.get('service_type', 'general').replace('_', ' ').title()]
    with [analysis = post.get('analysis', {})]; [None] is the
    [AttributeError] of a value that is not a string. *)
Definition service_label (p : post) : option str :=
  let service :=
    match analysis p with
    | Some v => match service_type v with
                | Some t => t
                | None => JStr (u "general")
                end
    | None => JStr (u "general")
    end in
  match service with
  | JStr t => Some (title (replace_char 95%N 32%N t))
  | JOther => None
  end.

(** The first line of an entry: number, author and service. *)
Definition entry_title (entry : nat * post) : option str :=
  match service_label (snd entry) with
  | Some label =>
      Some (of_nat (fst entry) ++ u ". " ++ author (snd entry) ++ u " - "
            ++ label)
  | None => None
  end.

(** The lines written for one post of the enumeration. *)
Definition entry_lines (entry : nat * post) : option (list str) :=
  let '(i, p) := entry in
  match entry_title entry with
  | Some title_line =>
      Some ([title_line;
             u "   📖 Post: " ++ upto 200 (text p)
               ++ (if 200 <? List.length (text p) then u "..." else [])]
            ++ (if truthy (url p) then [u "   🔗 Link: " ++ url p] else [])
            ++ [u "   " ++ dashes; []])
  | None => None
  end.

(** The [for i, post in enumerate(sorted_posts, 1)] loop: the lines of
    all entries, [None] when an entry raises. *)
Fixpoint entries (l : list (nat * post)) : option (list str) :=
  match l with
  | [] => Some []
  | entry :: rest =>
      match entry_lines entry with
      | Some lines =>
          match entries rest with
          | Some more => Some (lines ++ more)
          | None => None
          end
      | None => None
      end
  end.

(** [sorted(relevant_posts, key=lambda x: x.get('author', 'Unknown'))];
    every post dictionary of the scanner has the key. *)
Definition sorted_posts (relevant_posts : list post) : list post :=
  PySort.sorted author relevant_posts.

Definition header (term day_of_week generated : str) : list str :=
  [u "🏠 NEXTDOOR SEARCH RESULTS"; rule;
   u "Search: " ++ [34%N] ++ term ++ [34%N];
   u "Day: " ++ day_of_week;
   u "Generated: " ++ generated;
   rule; [];
   u "🏠 SERVICE OPPORTUNITIES:"; []].

Definition footer : list str :=
  [u "🤖 Generated by Bulqit Nextdoor Monitor"; rule].

(** [generate_report]; the two renderings of [datetime.now()] are given.
    [Raised] is the [AttributeError] of an entry. *)
Definition generate_report (day_of_week generated : str)
    (relevant_posts : list post) : outcome str :=
  match relevant_posts with
  | [] => Returned (u "No relevant Nextdoor posts found.")
  | first :: _ =>
      match entries (PySort.enumerate 1 (sorted_posts relevant_posts)) with
      | Some lines =>
          Returned
            (join newline
               (header (search_term first) day_of_week generated
                ++ lines ++ footer))
      | None => Raised
      end
  end.

End Report.

(* ================================================================== *)
(** * SessionManager: entering the 2FA code *)
(* ================================================================== *)

Module Session.

(** What the browser does while the code is entered. *)
Record driver : Type := {
  (** [find_elements] on the 2FA inputs: identifier and visibility of each
      element found, or [None] when the lookup raises *)
  find_inputs : option (list (str * bool));
  (** whether the field with this identifier is found within the wait and
      takes the digit at this position of the code *)
  accepts : nat -> str -> bool;
  (** [current_url] read after the digits are in; [None] when it raises *)
  url_after : option str
}.

Definition fallback_ids : list str :=
  map u ["_rd_"; "_re_"; "_rf_"; "_rg_"; "_rh_"; "_ri_"]%string.

(** The [for i, digit in enumerate(code)] loop; [input_ids[i]] out of range
    raises inside the handler that returns [False]. *)
Fixpoint enter_digits (d : driver) (input_ids : list str) (code : str)
    (i : nat) : bool :=
  match code with
  | [] => true
  | _ :: rest =>
      match nth_error input_ids i with
      | None => false
      | Some field_id =>
          if accepts d i field_id
          then enter_digits d input_ids rest (S i)
          else false
      end
  end.

(** [_enter_2fa_code] *)
Definition _enter_2fa_code (d : driver) (code : str) : bool :=
  let input_ids :=
    match find_inputs d with
    | Some elements =>
        PySort.sorted (fun x => x) (map fst (filter snd elements))
    | None => fallback_ids
    end in
  if negb (List.length code =? 6) then false
  else if enter_digits d input_ids code 0 then
    match url_after d with
    | Some current_url =>
        if negb (contains (u "/login/") current_url) then true
        else true
    | None => true
    end
  else false.

(** The same browser with another location after the digits. *)
Definition with_url (d : driver) (current_url : option str) : driver :=
  {| find_inputs := find_inputs d; accepts := accepts d;
     url_after := current_url |}.

(** How the 2FA branch of [_login_to_nextdoor] ends: with [return False],
    or by going on to the scan. *)
Inductive login_step : Type :=
| ReturnFalse
| Proceed.

(** Lines 589-604, given the result of [_wait_for_2fa_code]. *)
Definition automated_2fa (d : driver) (two_fa_code : option str)
  : login_step :=
  match two_fa_code with
  | Some code =>
      if truthy code then
        if _enter_2fa_code d code then Proceed else ReturnFalse
      else ReturnFalse
  | None => ReturnFalse
  end.

(** The [for i in range(60)] loop of the manual branch: [urls n] is the
    [n]-th reading of [current_url]; the result is the number of readings
    made. *)
Fixpoint manual_wait (urls : nat -> str) (remaining n : nat) : nat :=
  match remaining with
  | O => n
  | S remaining' =>
      if negb (contains (u "login") (lower (urls n))) then S n
      else manual_wait urls remaining' (S n)
  end.

(** Lines 606-623. *)
Definition manual_2fa (urls : nat -> str) : login_step :=
  let n := manual_wait urls 60 0 in
  if contains (u "login") (lower (urls n)) then ReturnFalse else Proceed.

End Session.

(* ================================================================== *)
(** * ScanOrchestrator: search, scan and [run_scan] *)
(* ================================================================== *)

Module Orchestrator.

Import Harvester.

(** The double quote of the attribute selectors. *)
Definition dq : str := [34%N].

Definition quoted (before inside after : string) : str :=
  u before ++ dq ++ u inside ++ dq ++ u after.

Definition search_selectors : list str :=
  [u "#search-input-field";
   quoted "input[aria-label=" "Search Nextdoor" "]";
   quoted "input[placeholder*=" "Search" "]";
   quoted "input[placeholder*=" "search" "]";
   quoted "input[type=" "search" "]";
   quoted "[data-testid=" "search-input" "]";
   u ".search-input";
   quoted "input[name=" "search" "]";
   u "#search";
   quoted "input[aria-label*=" "Search" "]"].

(** How the login form part of [_login_to_nextdoor] (lines 464-573) ends. *)
Inductive form_outcome : Type :=
| AlreadyLoggedIn
| FormFailed
| Submitted (needs_2fa : bool).

(** The mails of a run: the call of [send_2fa_notification_with_gist], the
    zero-posts alert, and the report of
    [send_email_report(relevant_posts, all_posts)], which is handed to
    [_send_with_custom_subject] once [generate_report] has returned. *)
Inductive sent : Type :=
| TwoFaNotification (gist_url : str)
| ZeroPostsAlert (term : str)
| EmailReport (relevant_posts all_posts : list post).

(** The surroundings of one run. *)
Record run_env : Type := {
  setup_ok : bool;
  form : form_outcome;
  is_github_actions : bool;
  token : str;
  (** the world of the 2FA gist *)
  gist_world : Verification.env;
  two_fa_driver : Session.driver;
  manual_urls : nat -> str;
  (** whether the wait for a search box selector finds an element *)
  search_box_found : str -> bool;
  (** whether the rest of [_search_for_term] runs without an exception *)
  typing_ok : bool;
  today_term : str;
  (** the result of [_scroll_and_collect_posts] *)
  harvest : outcome (list post);
  (** the remote model, [json.loads] after the cleaning of its answer, and
      the client with its request log when the classification starts *)
  remote : list nat -> nat -> str -> str -> Classifier.reply;
  parse : str -> verdict + str;
  classifier : Classifier.world;
  (** the two renderings of [datetime.now()] in the report *)
  day_of_week : str;
  generated : str
}.

(** How the authentication part of [_login_to_nextdoor] ends: [return
    False], an interrupt that leaves the function, or the way on to the
    scan; each with what was sent meanwhile. *)
Inductive auth_result : Type :=
| Failed (notices : list sent)
| Interrupted (notices : list sent)
| Authenticated (notices : list sent).

Definition notices_of (t : list Verification.call) : list sent :=
  flat_map (fun c => match c with
                     | Verification.SendNotification gist_url =>
                         [TwoFaNotification gist_url]
                     | _ => []
                     end) t.

(** Lines 464-624. *)
Definition authenticate (e : run_env) : auth_result :=
  match form e with
  | FormFailed => Failed []
  | AlreadyLoggedIn => Authenticated []
  | Submitted false => Authenticated []
  | Submitted true =>
      if is_github_actions e && truthy (token e) then
        let '(r, st) :=
          Verification._wait_for_2fa_code (gist_world e)
            (Verification.start (token e)) in
        let notices := notices_of (Verification.trace st) in
        match r with
        | Verification.Ok two_fa_code =>
            match Session.automated_2fa (two_fa_driver e) two_fa_code with
            | Session.Proceed => Authenticated notices
            | Session.ReturnFalse => Failed notices
            end
        | Verification.Err Verification.KeyboardInterrupt => Interrupted notices
        | Verification.Err (Verification.Exception _) => Failed notices
        end
      else
        match Session.manual_2fa (manual_urls e) with
        | Session.Proceed => Authenticated []
        | Session.ReturnFalse => Failed []
        end
  end.

(** The [for selector in search_selectors] loop. *)
Fixpoint first_found (found : str -> bool) (selectors : list str)
  : option str :=
  match selectors with
  | [] => None
  | selector :: rest =>
      if found selector then Some selector else first_found found rest
  end.

(** [_search_for_term] *)
Definition _search_for_term (e : run_env) : bool :=
  match first_found (search_box_found e) search_selectors with
  | None => false
  | Some _ => typing_ok e
  end.

Definition tag (term : str) (p : post) : post :=
  {| text := text p; author := author p; url := url p;
     search_term := term; debug_full_text := debug_full_text p;
     scroll_found := scroll_found p; analysis := analysis p |}.

Definition nonempty {A} (l : list A) : bool :=
  match l with [] => false | _ :: _ => true end.

(** [filter_posts(unique_posts)]: the relevant posts, and [unique_posts] as
    the call leaves it.  The classification always returns
    ([filter_posts_in_place_spec]), so the second branch is never taken. *)
Definition classify (e : run_env) (unique_posts : list post)
  : list post * list post :=
  match Classifier.filter_posts_in_place (remote e) (parse e) (classifier e)
          unique_posts with
  | Some (relevant_posts, unique_posts', _) => (relevant_posts, unique_posts')
  | None => ([], unique_posts)
  end.

(** Lines 627-726 of [_login_to_nextdoor]: the value returned and what was
    sent.  An exception of the harvest, and the [AttributeError] of
    [generate_report] inside [send_email_report], reach the handler of
    line 728. *)
Definition scan (e : run_env) : bool * list sent :=
  let term := today_term e in
  let searched :=
    if _search_for_term e then
      match harvest e with
      | Raised => None
      | Returned posts =>
          if nonempty posts then Some (map (tag term) posts, [])
          else Some ([], [ZeroPostsAlert term])
      end
    else Some ([], []) in
  match searched with
  | None => (false, [])
  | Some (found_posts, alerts) =>
      let unique_posts := Extractor.remove_duplicates found_posts [] in
      if nonempty unique_posts then
        let '(relevant_posts, unique_posts') := classify e unique_posts in
        if nonempty relevant_posts then
          match Report.generate_report (day_of_week e) (generated e)
                  relevant_posts with
          | Returned _ =>
              (true, alerts ++ [EmailReport relevant_posts unique_posts'])
          | Raised => (false, alerts)
          end
        else (true, alerts)
      else (true, alerts)
  end.

(** [run_scan]: the value it returns (the one [main] reports) and what the
    operator was sent.  [_login_to_nextdoor] is [authenticate] followed by
    [scan]; the handler of [KeyboardInterrupt] ends the run with [True]. *)
Definition run_scan (e : run_env) : bool * list sent :=
  if negb (setup_ok e) then (false, [])
  else
    match authenticate e with
    | Failed notices => (false, notices)
    | Interrupted notices => (true, notices)
    | Authenticated notices =>
        let '(ok, messages) := scan e in (ok, notices ++ messages)
    end.

End Orchestrator.

(* ================================================================== *)
(** * Vocabulary for the properties of lists of posts *)
(* ================================================================== *)

(** [Subseq l1 l2]: [l1] is [l2] with some elements left out, the others in
    their order. *)
Inductive Subseq {A : Type} : list A -> list A -> Prop :=
| Subseq_nil : Subseq [] []
| Subseq_keep (x : A) (l1 l2 : list A) :
    Subseq l1 l2 -> Subseq (x :: l1) (x :: l2)
| Subseq_skip (x : A) (l1 l2 : list A) :
    Subseq l1 l2 -> Subseq l1 (x :: l2).

(** [analysed p q]: [q] is the post [p] as a classification leaves it,
    untouched or with a relevant analysis written into it. *)
Definition analysed (p q : post) : Prop :=
  q = p
  \/ exists v, relevant v = true /\ q = Classifier.with_analysis p v.

(** [found_in f lo hi p]: [p] is a post that the extractor returned at some
    scroll between [lo] and [hi] of the feed [f], tagged with that scroll. *)
Definition found_in (f : Harvester.feed) (lo hi : nat) (p : post) : Prop :=
  exists k q,
    lo <= k <= hi
    /\ In q (Extractor._extract_nextdoor_posts (Harvester.shown (f k)))
    /\ p = Harvester.found_at k q.

(* ================================================================== *)
(** * Vocabulary for the properties of the 2FA channel *)
(* ================================================================== *)

Module ChannelSpec.

Import Verification.

Definition is_create (c : call) : bool :=
  match c with CreateGist => true | _ => false end.
Definition is_notification (c : call) : bool :=
  match c with SendNotification _ => true | _ => false end.
Definition is_read (c : call) : bool :=
  match c with ReadGist _ => true | _ => false end.
Definition is_deletion (c : call) : bool :=
  match c with DeleteGist _ => true | _ => false end.
Definition is_sleep (c : call) : bool :=
  match c with Sleep _ => true | _ => false end.

(** The number of calls of one kind in a trace. *)
Definition count (kind : call -> bool) (t : list call) : nat :=
  List.length (filter kind t).

(** At most [c] creations, [s] notifications, [r] readings, [w] waits and
    [d] deletions. *)
Definition within (t : list call) (c s r w d : nat) : Prop :=
  count is_create t <= c /\ count is_notification t <= s
  /\ count is_read t <= r /\ count is_sleep t <= w
  /\ count is_deletion t <= d.

(** The code a reading gives, after [_poll_gist_for_code]: none for a
    status other than 200, for a missing file content and for an
    [Exception]. *)
Definition code_read (r : reply) : option str :=
  match r with
  | Replies resp =>
      if status_code resp =? 200 then
        match json_content resp with
        | Some file_content => find_code (split newline file_content)
        | None => None
        end
      else None
  | Raises _ => None
  end.

(** A reading that returns (no interrupt) and gives no code. *)
Definition reads_nothing (r : reply) : bool :=
  negb (is_interrupt r) && negb (truthy_opt (code_read r)).

Definition returns (r : reply) : bool :=
  match r with Replies _ => true | Raises _ => false end.

(** The gist creation fails: the call raises an [Exception], or the status
    is not 201, or the answer has no id. *)
Definition creation_fails (r : reply) : bool :=
  match r with
  | Replies resp =>
      negb (status_code resp =? 201)
      || match json_id resp with Some _ => false | None => true end
  | Raises (Exception _) => true
  | Raises KeyboardInterrupt => false
  end.

(** [n] rounds of reading and waiting 30 seconds. *)
Fixpoint polling_rounds (gist_id : str) (n : nat) : list call :=
  match n with
  | O => []
  | S n' => ReadGist gist_id :: Sleep 30 :: polling_rounds gist_id n'
  end.

(** The [try] block of [_wait_for_2fa_code]: what runs before the
    handler. *)
Definition wait_body (world : env) : M (option str) :=
  gist_url <- _create_2fa_gist world ;;
  match gist_url with
  | Some gist_url' =>
      if truthy gist_url' then
        perform world (SendNotification gist_url') ;;;
        poll_rounds world max_attempts
      else ret None
  | None => ret None
  end.

End ChannelSpec.

(* ================================================================== *)
(** * Vocabulary for the properties of the session and of the run *)
(* ================================================================== *)

Module SessionSpec.

Import Session.

(** The identifiers [_enter_2fa_code] addresses the digits to: the sorted
    identifiers of the visible inputs found, or the fallback list when the
    lookup raises. *)
Definition input_ids (d : driver) : list str :=
  match find_inputs d with
  | Some elements => PySort.sorted (fun x => x) (map fst (filter snd elements))
  | None => fallback_ids
  end.

(** The location read at the [n]-th reading still is a login page. *)
Definition on_login (urls : nat -> str) (n : nat) : bool :=
  contains (u "login") (lower (urls n)).

End SessionSpec.

Module OrchestratorSpec.

Import Orchestrator Harvester.

(** The posts the scan hands on after its duplicate filter: those of the
    harvest, tagged with today's term. *)
Definition scanned_posts (e : run_env) : list post :=
  match harvest e with
  | Returned posts =>
      Extractor.remove_duplicates (map (tag (today_term e)) posts) []
  | Raised => []
  end.

(** The relevant posts of the scan, and the posts of the scan as the
    classification leaves them. *)
Definition relevant_of (e : run_env) : list post :=
  fst (classify e (scanned_posts e)).

Definition analysed_of (e : run_env) : list post :=
  snd (classify e (scanned_posts e)).

(** The report of the relevant posts raises. *)
Definition report_raises (e : run_env) : bool :=
  match Report.generate_report (day_of_week e) (generated e)
          (relevant_of e) with
  | Raised => true
  | Returned _ => false
  end.

(** What the authentication part sent. *)
Definition notices_in (a : auth_result) : list sent :=
  match a with
  | Failed notices | Interrupted notices | Authenticated notices => notices
  end.

Definition is_authenticated (a : auth_result) : bool :=
  match a with Authenticated _ => true | _ => false end.


Definition is_notice (m : sent) : bool :=
  match m with TwoFaNotification _ => true | _ => false end.

Definition is_report (m : sent) : bool :=
  match m with EmailReport _ _ => true | _ => false end.

End OrchestratorSpec.

(* ================================================================== *)
(** * CredentialPool: loading the keys ([BulqitGroqClient.__init__]) *)
(* ================================================================== *)

Module ClientSetup.

(** What opening and reading a key file gives: [FileNotFoundError], another
    exception, or the lines of the file. *)
Inductive key_file : Type :=
| Missing
| Unreadable
| Lines (lines : list str).

(** Where the keys can come from: the two files of [keys_paths], the
    numbered environment variables and the single one. *)
Record key_sources : Type := {
  keys_txt : key_file;
  parent_keys_txt : key_file;
  numbered_keys : list (option str);
  single_key : option str
}.

(** [[line.strip() for line in f.readlines() if line.strip()]] *)
Definition nonblank_lines (lines : list str) : list str :=
  map strip (filter (fun line => truthy (strip line)) lines).

(** The [for path in keys_paths] loop: the first file that exists is read
    and ends the loop; [None] is an exception other than
    [FileNotFoundError], which leaves the loop for the outer handler. *)
Fixpoint read_key_files (files : list key_file) : option (list str) :=
  match files with
  | [] => Some []
  | Missing :: rest => read_key_files rest
  | Unreadable :: _ => None
  | Lines lines :: _ => Some (nonblank_lines lines)
  end.

(** [[key for key in env_keys if key]] *)
Fixpoint set_keys (env_keys : list (option str)) : list str :=
  match env_keys with
  | [] => []
  | Some key :: rest => if truthy key then key :: set_keys rest
                        else set_keys rest
  | None :: rest => set_keys rest
  end.

(** Lines 57-83: the value of [self.api_keys] before the check. *)
Definition load_api_keys (src : key_sources) : list str :=
  match read_key_files [keys_txt src; parent_keys_txt src] with
  | Some keys =>
      match keys with
      | _ :: _ => keys
      | [] => set_keys (numbered_keys src)
      end
  | None =>
      match single_key src with
      | Some key => if truthy key then [key] else []
      | None => []
      end
  end.

(** [__init__] as a whole: [None] is the [ValueError]. *)
Definition BulqitGroqClient_new (src : key_sources)
  : option Classifier.client :=
  Classifier.BulqitGroqClient_init (load_api_keys src).

End ClientSetup.

(** [x] is a contiguous part of [s]: [x in s] as a proposition. *)
Definition part_of (x s : str) : Prop := exists a b, s = a ++ x ++ b.

(* ================================================================== *)
(** * Classifier: cleaning the answer (lines 211-223) *)
(* ================================================================== *)

Module Cleaning.

Definition fence_json : str := u "```json".
Definition fence : str := u "```".
Definition backtick : char := 96%N.
Definition open_brace : char := 123%N.
Definition close_brace : char := 125%N.

(** The last index of a character. *)
Fixpoint rfind_char (c : char) (x : str) : option nat :=
  match x with
  | [] => None
  | y :: x' =>
      match rfind_char c x' with
      | Some j => Some (S j)
      | None => if (y =? c)%N then Some 0 else None
      end
  end.

(** [re.search(r'\{.*\}', x, re.DOTALL).group()]: the match starts at the
    first opening brace that has a closing brace after it, which is the
    first opening brace of all when there is a match, and the greedy [.*]
    runs to the last closing brace. *)
Definition brace_group (x : str) : option str :=
  match find [open_brace] x with
  | Some i =>
      let tail := from (S i) x in
      match rfind_char close_brace tail with
      | Some j => Some (open_brace :: upto (S j) tail)
      | None => None
      end
  | None => None
  end.

(** [content.split(sep)[1].split('```')[0].strip()] *)
Definition fenced (sep content : str) : str :=
  strip (hd [] (split fence (nth 1 (split sep content) []))).

(** What is handed to [json.loads]. *)
Definition clean_response (raw : str) : str :=
  let content := strip raw in
  let content :=
    if contains fence_json content then fenced fence_json content
    else if contains fence content then fenced fence content
    else content in
  if negb (startswith [open_brace] content) then
    match brace_group content with
    | Some group => group
    | None => content
    end
  else content.

(** Lines 211-225 as the [parse] of [Classifier]: the cleaning followed by
    [json.loads]. *)
Definition parse_answer (loads : str -> verdict + str) (raw : str)
  : verdict + str :=
  loads (clean_response raw).

End Cleaning.

(* ================================================================== *)
(** * Concrete inputs used in the examples *)
(* ================================================================== *)

Module Inputs.

(** The raw text of the extractor example. *)
Definition jane_doe_text : str :=
  u "Jane DoeStudio City · 3 hr agoNeed a reliable pool guy, anyone have recs?2Bob SmithEncino".

(** A gist reader's world: every call is answered with status 200 and the
    given file content. *)
Definition serving (content : str) : Verification.env :=
  fun _ _ =>
    Verification.Replies
      {| Verification.status_code := 200; Verification.json_id := None;
         Verification.json_html_url := None;
         Verification.json_content := Some content |}.

(** A scanner that holds a token and the identifier of its gist. *)
Definition polling (token gist_id : str) : Verification.scanner :=
  {| Verification.github_token := token;
     Verification.current_gist_id := Some gist_id;
     Verification.trace := [] |}.

(** Two posts whose texts differ in letter case only. *)
Definition ann_container : Extractor.container :=
  {| Extractor.full_text :=
       u "Ann LeeEncino · 2 hr agoLooking for a reliable pool cleaner near Ventura Blvd";
     Extractor.href := Some (u "/p/1001") |}.

Definition bob_container : Extractor.container :=
  {| Extractor.full_text :=
       u "Bob RayTarzana · 5 hr agoLOOKING FOR A RELIABLE POOL CLEANER NEAR VENTURA BLVD";
     Extractor.href := Some (u "/p/1002") |}.

(** A feed that shows the first post at scroll 1 and the second one from
    scroll 2 on. *)
Definition case_feed : Harvester.feed :=
  fun scroll =>
    {| Harvester.shown :=
         Some (if scroll =? 1 then [ann_container] else [bob_container]);
       Harvester.height_ok := true;
       Harvester.scrolling_ok := true |}.

(** A feed that never shows a post. *)
Definition empty_feed : Harvester.feed :=
  fun _ => {| Harvester.shown := Some [];
              Harvester.height_ok := true;
              Harvester.scrolling_ok := true |}.

(** A remote model that is rate limited on every request, and an answer
    parser that is never reached. *)
Definition limited_remote : list nat -> nat -> str -> str -> Classifier.reply :=
  fun _ _ _ _ =>
    Classifier.Fails (u "Error code: 429 - rate_limit_exceeded").

Definition no_parse : str -> verdict + str :=
  fun _ => inr (u "Expecting value").

Definition three_keys : list str := [u "gsk_one"; u "gsk_two"; u "gsk_three"].

(** Two verdicts that keep a post. *)
Definition pool_verdict : verdict :=
  {| relevant := true; service_type := Some (JStr (u "pool"));
     reason := Some (u "asks for a pool service") |}.

Definition lawn_verdict : verdict :=
  {| relevant := true; service_type := Some (JStr (u "lawn_care"));
     reason := Some (u "asks for a gardener") |}.

(** The client as [__init__] builds it from three keys, before any request. *)
Definition fresh_pool : Classifier.world :=
  Classifier.fresh
    {| Classifier.api_keys := three_keys;
       Classifier.current_key_index := 0;
       Classifier.daily_request_count := 0 |}.

(** A remote model that answers every request. *)
Definition answering_remote
  : list nat -> nat -> str -> str -> Classifier.reply :=
  fun _ _ _ _ => Classifier.Answer (u "{relevant: true, service_type: pool}").

Definition lost_cat : post :=
  {| text := u "Lost cat near Ventura Blvd, grey with a white collar";
     author := u "Dana Fox"; url := []; search_term := u "pool";
     debug_full_text := []; scroll_found := Some 1; analysis := None |}.

(** A world in which the gist is created, the notification goes out, the
    gist still holds the placeholder, and the scan is interrupted during
    the first wait of 30 seconds. *)
Definition interrupted_world : Verification.env :=
  fun _ c =>
    match c with
    | Verification.CreateGist =>
        Verification.Replies
          (Verification.created (u "a1b2c3")
             (u "https://gist.github.com/a1b2c3"))
    | Verification.Sleep _ =>
        Verification.Raises Verification.KeyboardInterrupt
    | _ =>
        Verification.Replies
          {| Verification.status_code := 200; Verification.json_id := None;
             Verification.json_html_url := None;
             Verification.json_content := Some (u "ENTER_2FA_CODE_HERE") |}
    end.

(** A world in which GitHub answers the creation with 201 and an
    identifier, but without [html_url]. *)
Definition urlless_world : Verification.env :=
  fun _ _ =>
    Verification.Replies
      {| Verification.status_code := 201;
         Verification.json_id := Some (u "a1b2c3");
         Verification.json_html_url := None;
         Verification.json_content := None |}.

(** A world in which the gist holds the code at the first reading and the
    scan is interrupted during the deletion request. *)
Definition interrupted_deletion_world : Verification.env :=
  fun _ c =>
    match c with
    | Verification.CreateGist =>
        Verification.Replies
          (Verification.created (u "a1b2c3")
             (u "https://gist.github.com/a1b2c3"))
    | Verification.DeleteGist _ =>
        Verification.Raises Verification.KeyboardInterrupt
    | _ =>
        Verification.Replies
          {| Verification.status_code := 200; Verification.json_id := None;
             Verification.json_html_url := None;
             Verification.json_content := Some (u "654321") |}
    end.

(** A world in which the operator writes the code into the gist before the
    third reading (the call number 6 of the run). *)
Definition answering_world : Verification.env :=
  fun n c =>
    match c with
    | Verification.CreateGist =>
        Verification.Replies
          (Verification.created (u "a1b2c3")
             (u "https://gist.github.com/a1b2c3"))
    | Verification.DeleteGist _ =>
        Verification.Replies
          {| Verification.status_code := 204; Verification.json_id := None;
             Verification.json_html_url := None;
             Verification.json_content := None |}
    | _ =>
        Verification.Replies
          {| Verification.status_code := 200; Verification.json_id := None;
             Verification.json_html_url := None;
             Verification.json_content :=
               Some (if n <? 6 then u "ENTER_2FA_CODE_HERE" else u "654321") |}
    end.

(** A browser that shows six visible code fields, takes every digit, and
    is still on the login page afterwards. *)
Definition stuck_driver : Session.driver :=
  {| Session.find_inputs :=
       Some (map (fun field_id => (field_id, true)) Session.fallback_ids);
     Session.accepts := fun _ _ => true;
     Session.url_after := Some (u "https://nextdoor.com/login/?ucl=1") |}.

(** A run in GitHub Actions: the code arrives through the gist, the digits
    are entered, the browser stays on the login page; the search box is then
    found and the feed is empty. *)
Definition stuck_run : Orchestrator.run_env :=
  {| Orchestrator.setup_ok := true;
     Orchestrator.form := Orchestrator.Submitted true;
     Orchestrator.is_github_actions := true;
     Orchestrator.token := u "ghp_token";
     Orchestrator.gist_world := answering_world;
     Orchestrator.two_fa_driver := stuck_driver;
     Orchestrator.manual_urls := fun _ => u "https://nextdoor.com/login/";
     Orchestrator.search_box_found := fun _ => true;
     Orchestrator.typing_ok := true;
     Orchestrator.today_term := u "pool";
     Orchestrator.harvest := Harvester.Returned [];
     Orchestrator.remote := limited_remote;
     Orchestrator.parse := no_parse;
     Orchestrator.classifier := fresh_pool;
     Orchestrator.day_of_week := u "Monday";
     Orchestrator.generated := u "2025-01-06 09:00:00" |}.

(** A run of a session that is already logged in and finds no search box
    with any selector. *)
Definition no_search_box_run : Orchestrator.run_env :=
  {| Orchestrator.setup_ok := true;
     Orchestrator.form := Orchestrator.AlreadyLoggedIn;
     Orchestrator.is_github_actions := false;
     Orchestrator.token := [];
     Orchestrator.gist_world := answering_world;
     Orchestrator.two_fa_driver := stuck_driver;
     Orchestrator.manual_urls := fun _ => u "https://nextdoor.com/news_feed/";
     Orchestrator.search_box_found := fun _ => false;
     Orchestrator.typing_ok := true;
     Orchestrator.today_term := u "pool";
     Orchestrator.harvest := Harvester.Returned [lost_cat];
     Orchestrator.remote := limited_remote;
     Orchestrator.parse := no_parse;
     Orchestrator.classifier := fresh_pool;
     Orchestrator.day_of_week := u "Monday";
     Orchestrator.generated := u "2025-01-06 09:00:00" |}.

(** Three relevant posts, in the order of their harvest. *)
Definition post_by (name body : string) (v : verdict) : post :=
  {| text := u body; author := u name; url := []; search_term := u "pool";
     debug_full_text := []; scroll_found := Some 1; analysis := Some v |}.

Definition maria_post : post :=
  post_by "Maria Lopez" "Need a reliable pool guy, anyone have recs?"
    pool_verdict.
Definition adam_post : post :=
  post_by "Adam Berg" "Our pool pump died, who repairs them around here?"
    pool_verdict.
Definition jo_post : post :=
  post_by "Jo Chen" "Looking for someone to mow and edge every two weeks"
    lawn_verdict.

(** Two relevant posts whose authors differ in the case of their first
    letter, the first one with a link. *)
Definition adam_small_post : post :=
  {| text := u "Our pool pump died, who repairs them around here?";
     author := u "adam berg"; url := u "https://nextdoor.com/p/77";
     search_term := u "pool"; debug_full_text := [];
     scroll_found := Some 1; analysis := Some pool_verdict |}.

Definition zoe_post : post :=
  post_by "Zoe Hill" "Looking for someone to mow and edge every two weeks"
    lawn_verdict.

(** A world in which the gist is created and nobody ever writes the code
    into it. *)
Definition silent_world : Verification.env :=
  fun _ c =>
    match c with
    | Verification.CreateGist =>
        Verification.Replies
          (Verification.created (u "a1b2c3")
             (u "https://gist.github.com/a1b2c3"))
    | Verification.DeleteGist _ =>
        Verification.Replies
          {| Verification.status_code := 204; Verification.json_id := None;
             Verification.json_html_url := None;
             Verification.json_content := None |}
    | _ =>
        Verification.Replies
          {| Verification.status_code := 200; Verification.json_id := None;
             Verification.json_html_url := None;
             Verification.json_content :=
               Some (u "ENTER_2FA_CODE_HERE" ++ [10%N]
                     ++ u "Instructions:" ++ [10%N]
                     ++ u "2. Save this gist") |}
    end.

(** A world in which GitHub refuses to create the gist. *)
Definition refusing_world : Verification.env :=
  fun _ _ =>
    Verification.Replies
      {| Verification.status_code := 401; Verification.json_id := None;
         Verification.json_html_url := None;
         Verification.json_content := None |}.

(** The record the extractor builds from [bob_container]. *)
Definition bob_extracted : post :=
  {| text := u "LOOKING FOR A RELIABLE POOL CLEANER NEAR VENTURA BLVD";
     author := u "Bob Ray"; url := u "https://nextdoor.com/p/1002";
     search_term := [];
     debug_full_text := Extractor.full_text bob_container;
     scroll_found := None; analysis := None |}.

(** A run that finds posts and reports them: logged in already, the
    search box is found, the harvest returns three posts, two of them with
    the same text, and the classifier keeps every post. *)
Definition reporting_run : Orchestrator.run_env :=
  {| Orchestrator.setup_ok := true;
     Orchestrator.form := Orchestrator.AlreadyLoggedIn;
     Orchestrator.is_github_actions := false;
     Orchestrator.token := [];
     Orchestrator.gist_world := answering_world;
     Orchestrator.two_fa_driver := stuck_driver;
     Orchestrator.manual_urls := fun _ => u "https://nextdoor.com/news_feed/";
     Orchestrator.search_box_found := fun _ => true;
     Orchestrator.typing_ok := true;
     Orchestrator.today_term := u "pool";
     Orchestrator.harvest :=
       Harvester.Returned [maria_post; adam_post; maria_post];
     Orchestrator.remote := answering_remote;
     Orchestrator.parse := fun _ => inl pool_verdict;
     Orchestrator.classifier := fresh_pool;
     Orchestrator.day_of_week := u "Monday";
     Orchestrator.generated := u "2025-01-06 09:00:00" |}.


(** An answer that wraps its object in a [```json] block. *)
Definition fenced_answer : str :=
  u "Sure, here it is:" ++ [10%N] ++ u "```json" ++ [10%N]
  ++ u "{relevant: true}" ++ [10%N] ++ u "```" ++ [10%N] ++ u "Bye".

(** An answer that puts prose around its object. *)
Definition prose_answer : str :=
  u "The answer is {a: {b: 1}} and {c: 2} as requested".

(** No key file, no numbered variable, but [GROQ_API_KEY] is set. *)
Definition single_key_only : ClientSetup.key_sources :=
  {| ClientSetup.keys_txt := ClientSetup.Missing;
     ClientSetup.parent_keys_txt := ClientSetup.Missing;
     ClientSetup.numbered_keys := [None; None; None; None; None];
     ClientSetup.single_key := Some (u "gsk_single") |}.

(** A [keys.txt] with a blank line and padded keys. *)
Definition keys_file_only : ClientSetup.key_sources :=
  {| ClientSetup.keys_txt :=
       ClientSetup.Lines [u "gsk_one" ++ [10%N]; [10%N];
                          u "  gsk_two " ++ [10%N]];
     ClientSetup.parent_keys_txt := ClientSetup.Missing;
     ClientSetup.numbered_keys := [Some (u "gsk_env"); None; None; None; None];
     ClientSetup.single_key := None |}.

(** An answer whose service type is [null]. *)
Definition null_service_verdict : verdict :=
  {| relevant := true; service_type := Some JOther;
     reason := Some (u "asks for help") |}.

(** A run that is logged in, searches and harvests one post, for which the
    remote model answers with a relevant verdict whose service type is
    [null]. *)
Definition null_service_run : Orchestrator.run_env :=
  {| Orchestrator.setup_ok := true;
     Orchestrator.form := Orchestrator.AlreadyLoggedIn;
     Orchestrator.is_github_actions := false;
     Orchestrator.token := [];
     Orchestrator.gist_world := answering_world;
     Orchestrator.two_fa_driver := stuck_driver;
     Orchestrator.manual_urls := fun _ => u "https://nextdoor.com/news_feed/";
     Orchestrator.search_box_found := fun _ => true;
     Orchestrator.typing_ok := true;
     Orchestrator.today_term := u "pool";
     Orchestrator.harvest := Harvester.Returned [lost_cat];
     Orchestrator.remote := answering_remote;
     Orchestrator.parse := fun _ => inl null_service_verdict;
     Orchestrator.classifier := fresh_pool;
     Orchestrator.day_of_week := u "Monday";
     Orchestrator.generated := u "2025-01-06 09:00:00" |}.
End Inputs.

Import Inputs.

(* ================================================================== *)
(** * Properties *)
(* ================================================================== *)

(** ** Strings *)

Example u_middot : u " · " = [32; 183; 32]%N.
Proof. reflexivity. Qed.

Example split_example :
  split (u ", ") (u "a, b, , c") = [u "a"; u "b"; u ""; u "c"].
Proof. reflexivity. Qed.

Example strip_example : strip (u "  ab c  ") = u "ab c".
Proof. reflexivity. Qed.

Example title_example :
  title (replace_char 95%N 32%N (u "lawn_care")) = u "Lawn Care".
Proof. reflexivity. Qed.

Example of_nat_example : of_nat 120 = u "120".
Proof. reflexivity. Qed.

Example lower_example :
  lower (u "POOL İstanbul ΟΔΟΣ ΣΑΣ")
  = u "pool i" ++ [0x307%N] ++ u "stanbul οδος σας".
Proof. vm_compute. reflexivity. Qed.

Example title_unicode_example :
  title (u "ßa o'neil pool straße") = u "Ssa O'Neil Pool Straße".
Proof. vm_compute. reflexivity. Qed.

Example digit_example :
  map is_digit (u "7٣²x") = [true; true; true; false]
  /\ map is_decimal (u "7٣²x") = [true; true; false; false].
Proof. vm_compute. split; reflexivity. Qed.

Lemma eqb_refl (a : str) : eqb a a = true.
Proof.
  induction a as [|c a IH]; simpl; [reflexivity|].
  now rewrite N.eqb_refl.
Qed.

Lemma eqb_eq (a b : str) : eqb a b = true <-> a = b.
Proof.
  split.
  - revert b; induction a as [|c a IH]; intros [|c' b]; simpl; try discriminate.
    + reflexivity.
    + intros H. apply andb_true_iff in H as [Hc Hr].
      apply N.eqb_eq in Hc. f_equal; auto.
  - intros ->. apply eqb_refl.
Qed.

Lemma eqb_neq (a b : str) : eqb a b = false <-> a <> b.
Proof.
  rewrite <- eqb_eq. destruct (eqb a b); split; congruence.
Qed.

Lemma leb_refl (a : str) : leb a a = true.
Proof.
  induction a as [|c a IH]; simpl; [reflexivity|].
  now rewrite N.ltb_irrefl.
Qed.

Lemma leb_total (a b : str) : leb a b = false -> leb b a = true.
Proof.
  revert b; induction a as [|x a IH]; intros [|y b]; simpl; try discriminate;
    try reflexivity.
  destruct (N.ltb_spec x y), (N.ltb_spec y x); try discriminate; try lia;
    auto.
Qed.

Lemma leb_trans (a b c : str) :
  leb a b = true -> leb b c = true -> leb a c = true.
Proof.
  revert b c; induction a as [|x a IH]; intros [|y b] [|z c]; simpl;
    try discriminate; try reflexivity.
  destruct (N.ltb_spec x y), (N.ltb_spec y x), (N.ltb_spec y z),
    (N.ltb_spec z y), (N.ltb_spec x z), (N.ltb_spec z x);
    try discriminate; try lia; try reflexivity.
  apply IH.
Qed.

(** ** PostExtractor *)

Section ExtractorFacts.

Import Extractor.

Example jane_doe_author_location :
  author_before_location locations (u "Jane DoeStudio City") = u "Jane Doe".
Proof. vm_compute. reflexivity. Qed.

Example jane_doe_reply_cut :
  Regex.search reply_pattern1
    (u "Need a reliable pool guy, anyone have recs?2Bob SmithEncino")
  = Some 43.
Proof. vm_compute. reflexivity. Qed.

(** C7: a container whose concatenated text is the Jane Doe example yields,
    whatever its link, one post record with author "Jane Doe" and body
    "Need a reliable pool guy, anyone have recs?": the reply fragment
    "2Bob SmithEncino" is cut off.  The same record is the result of the
    extractor on a page holding this container alone. *)
Theorem extract_jane_doe (link : option str) :
  let c := {| full_text := jane_doe_text; href := link |} in
  exists p,
    extract_container c = Some p
    /\ author p = u "Jane Doe"
    /\ text p = u "Need a reliable pool guy, anyone have recs?"
    /\ _extract_nextdoor_posts (Some [c]) = [p].
Proof.
  destruct link as [[|h0 h]|]; eexists; (split; [vm_compute; reflexivity|]);
    repeat split; vm_compute; reflexivity.
Qed.

End ExtractorFacts.


(** ** VerificationChannel: reading the code *)

Section PollFacts.

Import Verification.

Lemma find_code_cons (raw : str) (rest : list str) :
  find_code (raw :: rest) =
  if truthy (strip raw) && isdigit (strip raw) && (List.length (strip raw) =? 6)
  then Some (strip raw)
  else if truthy (strip raw) && negb (eqb (strip raw) sentinel)
          && negb (startswith (u "Instructions:") (strip raw))
  then if List.length (filter is_digit (strip raw)) =? 6
       then Some (filter is_digit (strip raw))
       else find_code rest
  else find_code rest.
Proof. reflexivity. Qed.

Lemma startswith_cons (c : char) (p line : str) :
  startswith (c :: p) line = true -> exists rest, line = c :: rest.
Proof.
  destruct line as [|c' rest]; simpl; [discriminate|].
  intros H. apply andb_true_iff in H as [Hc _].
  apply N.eqb_eq in Hc. subst. now exists rest.
Qed.

Lemma find_code_ignores (raw : str) (rest : list str) :
  strip raw = sentinel \/ startswith (u "Instructions:") (strip raw) = true ->
  find_code (raw :: rest) = find_code rest.
Proof.
  intros H. rewrite find_code_cons. destruct H as [H|H].
  - rewrite H. reflexivity.
  - rewrite H.
    destruct (startswith_cons _ _ _ H) as [tl Htl].
    rewrite Htl. cbn. reflexivity.
Qed.

Lemma find_code_six_digits (lines : list str) (code : str) :
  find_code lines = Some code ->
  List.length code = 6 /\ forallb is_digit code = true.
Proof.
  induction lines as [|raw rest IH]; [discriminate|].
  rewrite find_code_cons.
  destruct (truthy (strip raw) && isdigit (strip raw)
            && (List.length (strip raw) =? 6)) eqn:E.
  - intros [= <-].
    apply andb_true_iff in E as [E Hlen].
    apply andb_true_iff in E as [_ Hdig].
    apply Nat.eqb_eq in Hlen. split; [exact Hlen|].
    unfold isdigit in Hdig. destruct (strip raw); [discriminate|exact Hdig].
  - destruct (truthy (strip raw) && negb (eqb (strip raw) sentinel)
              && negb (startswith (u "Instructions:") (strip raw))); auto.
    destruct (List.length (filter is_digit (strip raw)) =? 6) eqn:L; auto.
    intros [= <-]. apply Nat.eqb_eq in L. split; [exact L|].
    apply forallb_forall. intros x Hx. apply filter_In in Hx. tauto.
Qed.

(** C8: polling a gist whose file reads "Instructions:\n123456\n" returns
    "123456", polling one that reads "ENTER_2FA_CODE_HERE" returns None.  In
    general the code returned has six digits; a line that is six digits is
    returned whole; from another line, neither the sentinel nor one that
    starts with "Instructions:", the digits are taken out and returned when
    there are six of them; the sentinel line and the lines that start with
    "Instructions:" are passed over. *)
Theorem poll_extracts_code :
  (forall token gist_id, truthy token = true -> truthy gist_id = true ->
     fst (_poll_gist_for_code
            (serving (u "Instructions:" ++ newline ++ u "123456" ++ newline))
            (polling token gist_id)) = Ok (Some (u "123456"))
     /\ fst (_poll_gist_for_code (serving (u "ENTER_2FA_CODE_HERE"))
               (polling token gist_id)) = Ok None)
  /\ (forall lines code, find_code lines = Some code ->
        List.length code = 6 /\ forallb is_digit code = true)
  /\ (forall raw rest,
        isdigit (strip raw) = true -> List.length (strip raw) = 6 ->
        find_code (raw :: rest) = Some (strip raw))
  /\ (forall raw rest,
        truthy (strip raw) = true -> isdigit (strip raw) = false ->
        strip raw <> sentinel ->
        startswith (u "Instructions:") (strip raw) = false ->
        List.length (filter is_digit (strip raw)) = 6 ->
        find_code (raw :: rest) = Some (filter is_digit (strip raw)))
  /\ (forall raw rest,
        strip raw = sentinel
        \/ startswith (u "Instructions:") (strip raw) = true ->
        find_code (raw :: rest) = find_code rest).
Proof.
  split; [|split; [|split; [|split]]].
  - intros token gist_id Ht Hg.
    unfold _poll_gist_for_code, polling, bind, get_token, get_gist_id,
      try_except, perform, serving, lookup, ret; simpl.
    rewrite Ht, Hg; simpl. split; reflexivity.
  - apply find_code_six_digits.
  - intros raw rest Hd Hl. rewrite find_code_cons.
    rewrite Hd, Hl. simpl.
    destruct (strip raw); [discriminate|reflexivity].
  - intros raw rest Ht Hd Hs Hi Hl. rewrite find_code_cons.
    rewrite Ht, Hd, Hi, Hl. simpl.
    apply eqb_neq in Hs. rewrite Hs. reflexivity.
  - apply find_code_ignores.
Qed.

Lemma poll_extracts_code_witness :
  find_code [u "  123456  "; u "later"] = Some (u "123456")
  /\ find_code [u "code: 12-34-56"] = Some (u "123456")
  /\ find_code [u "Instructions: call 555123"; u "ENTER_2FA_CODE_HERE"]
     = None
  /\ fst (_poll_gist_for_code (serving (u "ENTER_2FA_CODE_HERE"))
            (polling (u "ghp_token") (u "abc123"))) = Ok None.
Proof.
  destruct poll_extracts_code as (Hex & _ & Hwhole & Hemb & Hign).
  split; [|split; [|split]].
  - apply (Hwhole (u "  123456  ") [u "later"]); reflexivity.
  - apply (Hemb (u "code: 12-34-56") []);
      [reflexivity | reflexivity | discriminate | reflexivity | reflexivity].
  - rewrite (Hign (u "Instructions: call 555123") [u "ENTER_2FA_CODE_HERE"]);
      [|right; reflexivity].
    rewrite (Hign (u "ENTER_2FA_CODE_HERE") []); [reflexivity|].
    left; reflexivity.
  - apply (Hex (u "ghp_token") (u "abc123")); reflexivity.
Defined.

End PollFacts.

(** ** Harvester *)

Section HarvesterFacts.

Import Extractor Harvester.

Lemma prefix50_found_at (k : nat) (p : post) :
  prefix50 (found_at k p) = prefix50 p.
Proof. reflexivity. Qed.

Lemma same_prefix_absent (p : post) (all : list post) :
  existsb (fun existing => same_prefix existing p) all = false ->
  ~ In (prefix50 p) (map prefix50 all).
Proof.
  intros H Hin. apply in_map_iff in Hin as (q & Hq & Hin).
  assert (existsb (fun existing => same_prefix existing p) all = true) as E.
  { apply existsb_exists. exists q. split; [exact Hin|].
    unfold same_prefix. rewrite Hq. apply eqb_refl. }
  congruence.
Qed.

Lemma NoDup_snoc {A} (l : list A) (x : A) :
  NoDup l -> ~ In x l -> NoDup (l ++ [x]).
Proof.
  intros Hl Hx. induction Hl as [|y l Hy Hl IH]; simpl.
  - constructor; [intros []|constructor].
  - constructor.
    + rewrite in_app_iff. simpl. intros [H|[H|[]]]; [tauto|].
      subst. apply Hx. now left.
    + apply IH. intros H. apply Hx. now right.
Qed.

(** The inner loop keeps the 50-character prefixes pairwise distinct. *)
Lemma add_new_posts_distinct (posts all : list post) (k added : nat) :
  NoDup (map prefix50 all) ->
  NoDup (map prefix50 (fst (add_new_posts posts all k added))).
Proof.
  revert all added. induction posts as [|p rest IH]; intros all added Hall;
    simpl; [exact Hall|].
  destruct (existsb (fun existing => same_prefix existing p) all) eqn:E.
  - apply IH; exact Hall.
  - apply IH. rewrite map_app. simpl. rewrite prefix50_found_at.
    apply NoDup_snoc; [exact Hall|]. now apply same_prefix_absent.
Qed.

Lemma scroll_loop_O (f : feed) (m : nat) (st : loop_state) :
  scroll_loop 0 f m st =
  if scroll_count st <? m then None
  else Some (Returned (all_posts st), scroll_count st).
Proof. reflexivity. Qed.

Lemma scroll_loop_S (fuel : nat) (f : feed) (m : nat) (st : loop_state) :
  scroll_loop (S fuel) f m st =
  if scroll_count st <? m then
    let count := S (scroll_count st) in
    if negb (height_ok (f count)) then Some (Raised, count)
    else
      let added :=
        add_new_posts (_extract_nextdoor_posts (shown (f count)))
          (all_posts st) count 0 in
      let no_new :=
        if snd added =? 0 then S (no_new_posts_count st) else 0 in
      if 3 <=? no_new then Some (Returned (fst added), count)
      else if negb (scrolling_ok (f count)) then Some (Raised, count)
      else scroll_loop fuel f m
             {| all_posts := fst added; scroll_count := count;
                no_new_posts_count := no_new |}
  else Some (Returned (all_posts st), scroll_count st).
Proof.
  simpl. destruct (scroll_count st <? m); [|reflexivity].
  destruct (negb (height_ok (f (S (scroll_count st))))); [reflexivity|].
  destruct (add_new_posts _ (all_posts st) (S (scroll_count st)) 0);
    reflexivity.
Qed.

Lemma scroll_loop_distinct (fuel : nat) (f : feed) (m : nat) :
  forall st posts n,
    NoDup (map prefix50 (all_posts st)) ->
    scroll_loop fuel f m st = Some (Returned posts, n) ->
    NoDup (map prefix50 posts).
Proof.
  induction fuel as [|fuel IH]; intros st posts n Hst.
  - rewrite scroll_loop_O.
    destruct (scroll_count st <? m); [discriminate|].
    intros [= <- _]. exact Hst.
  - rewrite scroll_loop_S. cbv zeta.
    destruct (scroll_count st <? m); [|intros [= <- _]; exact Hst].
    destruct (negb (height_ok (f (S (scroll_count st))))); [discriminate|].
    pose proof (add_new_posts_distinct
                  (_extract_nextdoor_posts (shown (f (S (scroll_count st)))))
                  (all_posts st) (S (scroll_count st)) 0 Hst) as Hadd.
    destruct (3 <=? _).
    + intros [= <- _]. exact Hadd.
    + destruct (negb (scrolling_ok (f (S (scroll_count st)))));
        [discriminate|].
      apply IH. exact Hadd.
Qed.

(** What the loop does guarantee: no two posts of a harvest have the same
    first 50 characters, compared as they are. *)
Lemma harvest_prefixes_distinct (f : feed) (m : nat) (posts : list post)
    (n : nat) :
  _scroll_and_collect_posts f m = Some (Returned posts, n) ->
  NoDup (map prefix50 posts).
Proof.
  apply scroll_loop_distinct. constructor.
Qed.

(** C1 (evaluation at the failing input): the feed that shows "Looking for
    a reliable pool cleaner near Ventura Blvd" at scroll 1 and the same
    words in capitals from scroll 2 on is harvested in 5 scrolls into two
    posts that have the same lowercased 50-character prefix: the loop
    compares the prefixes without lowercasing them. *)
Theorem harvest_keeps_case_variants :
  exists p1 p2,
    _scroll_and_collect_posts case_feed default_max_scrolls
      = Some (Returned [p1; p2], 5)
    /\ text p1 = u "Looking for a reliable pool cleaner near Ventura Blvd"
    /\ text p2 = u "LOOKING FOR A RELIABLE POOL CLEANER NEAR VENTURA BLVD"
    /\ scroll_found p1 = Some 1 /\ scroll_found p2 = Some 2
    /\ dedup_key p1 = dedup_key p2
    /\ ~ NoDup (map dedup_key [p1; p2]).
Proof.
  do 2 eexists.
  split; [vm_compute; reflexivity|].
  repeat split; try (vm_compute; reflexivity).
  intros H. inversion H as [|k l Hk _]; subst.
  apply Hk. left. vm_compute. reflexivity.
Qed.

(** With enough fuel for the remaining budget the loop ends, and it ends
    within the budget. *)
Lemma scroll_loop_ends (f : feed) (m : nat) :
  forall fuel st,
    m - scroll_count st <= fuel ->
    exists r n,
      scroll_loop fuel f m st = Some (r, n)
      /\ scroll_count st <= n /\ n <= Nat.max m (scroll_count st).
Proof.
  induction fuel as [|fuel IH]; intros st Hfuel.
  - rewrite scroll_loop_O.
    destruct (Nat.ltb_spec (scroll_count st) m) as [Hlt|Hge]; [lia|].
    eexists _, _. split; [reflexivity|lia].
  - rewrite scroll_loop_S. cbv zeta.
    destruct (Nat.ltb_spec (scroll_count st) m) as [Hlt|Hge];
      [|eexists _, _; split; [reflexivity|lia]].
    destruct (negb (height_ok (f (S (scroll_count st)))));
      [eexists _, _; split; [reflexivity|lia]|].
    destruct (3 <=? _); [eexists _, _; split; [reflexivity|lia]|].
    destruct (negb (scrolling_ok (f (S (scroll_count st)))));
      [eexists _, _; split; [reflexivity|lia]|].
    match goal with
    | |- context [scroll_loop fuel f m ?st'] =>
        destruct (IH st') as (r & n & Hr & Hlo & Hhi); [simpl; lia|]
    end.
    exists r, n. split; [exact Hr|]. simpl in Hlo, Hhi. lia.
Qed.

(** On a feed that never shows a post the loop stops when the stagnation
    counter reaches 3, or earlier at the end of the budget. *)
Lemma scroll_loop_stagnates (f : feed) (m : nat) :
  (forall i, _extract_nextdoor_posts (shown (f i)) = []) ->
  forall fuel st r n,
    no_new_posts_count st < 3 ->
    scroll_count st <= m ->
    scroll_loop fuel f m st = Some (r, n) ->
    n <= scroll_count st + (3 - no_new_posts_count st)
    /\ (forall posts, r = Returned posts ->
          posts = all_posts st
          /\ n = Nat.min m (scroll_count st + (3 - no_new_posts_count st))).
Proof.
  intros Hempty.
  induction fuel as [|fuel IH]; intros st r n Hnn Hsc.
  - rewrite scroll_loop_O.
    destruct (Nat.ltb_spec (scroll_count st) m) as [Hlt|Hge]; [discriminate|].
    intros [= <- <-]. split; [lia|].
    intros posts [= <-]. split; [reflexivity|lia].
  - rewrite scroll_loop_S. cbv zeta. rewrite Hempty. simpl add_new_posts.
    simpl fst. simpl snd. rewrite Nat.eqb_refl.
    destruct (Nat.ltb_spec (scroll_count st) m) as [Hlt|Hge].
    2:{ intros [= <- <-]. split; [lia|].
        intros posts [= <-]. split; [reflexivity|lia]. }
    destruct (negb (height_ok (f (S (scroll_count st))))).
    { intros [= <- <-]. split; [lia|]. intros posts; discriminate. }
    destruct (Nat.leb_spec 3 (S (no_new_posts_count st))) as [H3|H3].
    { intros [= <- <-]. split; [lia|].
      intros posts [= <-]. split; [reflexivity|lia]. }
    destruct (negb (scrolling_ok (f (S (scroll_count st))))).
    { intros [= <- <-]. split; [lia|]. intros posts; discriminate. }
    intros Hloop.
    apply IH in Hloop;
      cbn [scroll_count no_new_posts_count all_posts]; try lia.
    cbn [scroll_count no_new_posts_count all_posts] in Hloop.
    destruct Hloop as [Hn Hret]. split; [lia|].
    intros posts Hp. destruct (Hret posts Hp) as [-> ->].
    split; [reflexivity|]. f_equal. lia.
Qed.

(** C4: the harvest loop ends, after at most 20 rounds (the default scroll
    budget) whatever the feed shows; on a feed that never yields a post it
    ends within 3 rounds, and when it returns it does so at round 3, the
    round at which the stagnation counter reaches 3, with no post. *)
Theorem harvest_terminates (f : feed) :
  exists r n,
    _scroll_and_collect_posts f default_max_scrolls = Some (r, n)
    /\ n <= 20
    /\ ((forall i, _extract_nextdoor_posts (shown (f i)) = []) ->
        n <= 3
        /\ (forall posts, r = Returned posts -> posts = [] /\ n = 3)).
Proof.
  destruct (scroll_loop_ends f default_max_scrolls default_max_scrolls initial)
    as (r & n & Hr & _ & Hhi).
  { unfold default_max_scrolls, initial. cbn [scroll_count]. lia. }
  change (n <= 20) in Hhi.
  exists r, n. split; [exact Hr|]. split; [exact Hhi|].
  intros Hempty.
  destruct (scroll_loop_stagnates f default_max_scrolls Hempty
              default_max_scrolls initial r n) as [Hn Hret];
    [cbn; lia | unfold default_max_scrolls; cbn; lia | exact Hr |].
  cbn in Hn. split; [lia|].
  intros posts Hp. destruct (Hret posts Hp) as [-> ->].
  split; reflexivity.
Qed.

Lemma harvest_terminates_witness :
  (forall i, _extract_nextdoor_posts (shown (empty_feed i)) = [])
  /\ exists r n,
       _scroll_and_collect_posts empty_feed default_max_scrolls = Some (r, n)
       /\ n <= 3.
Proof.
  split; [intros i; reflexivity|].
  destruct (harvest_terminates empty_feed) as (r & n & Hr & _ & Hs).
  exists r, n. split; [exact Hr|].
  apply Hs. intros i. reflexivity.
Defined.

Example harvest_empty_feed :
  _scroll_and_collect_posts empty_feed default_max_scrolls
  = Some (Returned [], 3).
Proof. vm_compute. reflexivity. Qed.

End HarvesterFacts.

(** ** CredentialPool and Classifier *)

Section ClassifierFacts.

Import Classifier.

Variable remote : list nat -> nat -> str -> str -> reply.
Variable parse : str -> verdict + str.

Abbreviation cursor w := (current_key_index (pool w)).
Abbreviation keys w := (api_keys (pool w)).
Abbreviation on_exception := (Classifier.on_exception remote parse).
Abbreviation always_rate_limited := (Classifier.always_rate_limited remote).

Lemma analyze_fuel_S (fuel : nat) (w : world) (t a : str) :
  analyze_fuel remote parse (S fuel) w t a =
  match remote (attempts w) (cursor w) t a with
  | Fails error_str => on_exception fuel t a error_str (logged w)
  | Answer content =>
      match parse content with
      | inl v => Some (v, count_request (logged w))
      | inr error_str =>
          on_exception fuel t a error_str (count_request (logged w))
      end
  end.
Proof.
  unfold Classifier.on_exception, logged. cbn [analyze_fuel send].
  destruct (remote (attempts w) (cursor w) t a) as [content|e].
  - destruct (parse content) as [v|e]; [reflexivity|].
    destruct (is_rate_limit e); [|reflexivity].
    destruct (rotate _) as [[|] w']; reflexivity.
  - destruct (is_rate_limit e); [|reflexivity].
    destruct (rotate _) as [[|] w']; reflexivity.
Qed.

(** Rotation: the keys and the log stay, the cursor moves by one exactly
    when it is strictly below the last index. *)
Lemma rotate_spec (w : world) :
  keys (snd (rotate w)) = keys w
  /\ attempts (snd (rotate w)) = attempts w
  /\ (fst (rotate w) = true ->
      cursor w < List.length (keys w) - 1
      /\ cursor (snd (rotate w)) = S (cursor w))
  /\ (fst (rotate w) = false ->
      ~ cursor w < List.length (keys w) - 1 /\ snd (rotate w) = w).
Proof.
  unfold rotate, _rotate_api_key.
  destruct (Nat.ltb_spec (cursor w) (List.length (keys w) - 1)) as [H|H];
    cbn.
  - repeat split; try discriminate; try lia.
  - repeat split; try discriminate; try lia. now destruct w.
Qed.

Lemma advances_refl (w : world) : advances w w.
Proof. unfold advances. repeat split; lia. Qed.

Lemma advances_trans {w1 w2 w3 : world} :
  advances w1 w2 -> advances w2 w3 -> advances w1 w3.
Proof.
  unfold advances. intros (K1 & L1 & U1) (K2 & L2 & U2).
  rewrite K1 in *. repeat split; [congruence|lia|lia].
Qed.

Lemma advances_rotate (w : world) : advances w (snd (rotate w)).
Proof.
  destruct (rotate_spec w) as (K & _ & Ht & Hf).
  unfold advances. rewrite K. split; [reflexivity|].
  destruct (fst (rotate w)).
  - destruct (Ht eq_refl) as [Hlt ->]. lia.
  - destruct (Hf eq_refl) as [_ ->]. lia.
Qed.

Lemma advances_logged (w : world) : advances w (logged w).
Proof. unfold advances. cbn. repeat split; lia. Qed.

Lemma advances_counted (w : world) : advances w (count_request w).
Proof. unfold advances. cbn. repeat split; lia. Qed.

Lemma on_exception_advances (fuel : nat) (t a e : str) (w0 w : world) :
  (forall w1 v w', advances w0 w1 ->
     analyze_fuel remote parse fuel w1 t a = Some (v, w') -> advances w0 w') ->
  advances w0 w ->
  forall v w', on_exception fuel t a e w = Some (v, w') -> advances w0 w'.
Proof.
  intros IH Hw v w'. unfold Classifier.on_exception.
  pose proof (advances_trans Hw (advances_rotate w)) as Hrot.
  destruct (is_rate_limit e).
  - destruct (fst (rotate w)).
    + apply IH. exact Hrot.
    + intros [= _ <-]. exact Hrot.
  - intros [= _ <-]. exact Hw.
Qed.

Lemma analyze_fuel_advances (fuel : nat) (t a : str) :
  forall w0 w v w', advances w0 w ->
    analyze_fuel remote parse fuel w t a = Some (v, w') -> advances w0 w'.
Proof.
  induction fuel as [|fuel IH]; intros w0 w v w' Hw; [discriminate|].
  rewrite analyze_fuel_S.
  destruct (remote (attempts w) (cursor w) t a) as [content|e].
  - pose proof (advances_trans (advances_trans Hw (advances_logged w))
                  (advances_counted (logged w))) as Hc.
    destruct (parse content) as [v0|e].
    + intros [= _ <-]. exact Hc.
    + apply on_exception_advances; [|exact Hc].
      intros w1 v1 w1'. apply IH.
  - apply on_exception_advances.
    + intros w1 v1 w1'. apply IH.
    + exact (advances_trans Hw (advances_logged w)).
Qed.

(** The fuel of [analyze_nextdoor_post] is enough: one unit per rotation
    that is still possible, and one more. *)
Lemma analyze_fuel_total (t a : str) :
  forall fuel w,
    List.length (keys w) - 1 - cursor w < fuel ->
    exists v w', analyze_fuel remote parse fuel w t a = Some (v, w').
Proof.
  assert (forall fuel e w,
             (forall w1, List.length (keys w1) - 1 - cursor w1 < fuel ->
                exists v w', analyze_fuel remote parse fuel w1 t a
                             = Some (v, w')) ->
             List.length (keys w) - 1 - cursor w < S fuel ->
             exists v w', on_exception fuel t a e w = Some (v, w')) as Hexc.
  { intros fuel e w IH Hfuel. unfold Classifier.on_exception.
    destruct (is_rate_limit e); [|eexists _, _; reflexivity].
    destruct (rotate_spec w) as (K & _ & Ht & _).
    destruct (fst (rotate w)); [|eexists _, _; reflexivity].
    destruct (Ht eq_refl) as [Hlt Hc].
    apply IH. rewrite K, Hc. lia. }
  induction fuel as [|fuel IH]; intros w Hfuel; [lia|].
  rewrite analyze_fuel_S.
  destruct (remote (attempts w) (cursor w) t a) as [content|e].
  - destruct (parse content) as [v0|e]; [eexists _, _; reflexivity|].
    apply Hexc; [exact IH|exact Hfuel].
  - apply Hexc; [exact IH|exact Hfuel].
Qed.

Lemma analyze_total (w : world) (t a : str) :
  exists v w', analyze_nextdoor_post remote parse w t a = Some (v, w')
               /\ advances w w'.
Proof.
  destruct (analyze_fuel_total t a (S (List.length (keys w))) w)
    as (v & w' & H); [lia|].
  exists v, w'. split; [exact H|].
  eapply analyze_fuel_advances; [apply advances_refl|exact H].
Qed.

Lemma filter_posts_total (posts : list post) :
  forall w, exists kept w',
    filter_posts remote parse w posts = Some (kept, w') /\ advances w w'.
Proof.
  induction posts as [|p rest IH]; intros w; cbn [filter_posts].
  - exists [], w. split; [reflexivity|apply advances_refl].
  - destruct (analyze_total w (text p) (author p)) as (v & w1 & -> & H1).
    destruct (IH w1) as (kept & w2 & -> & H2).
    eexists _, w2. split; [reflexivity|].
    exact (advances_trans H1 H2).
Qed.

Lemma run_operation_total (o : operation) (w : world) :
  exists w', run_operation remote parse o w = Some w' /\ advances w w'.
Proof.
  destruct o as [|t a|posts|html]; cbn [run_operation].
  - eexists. split; [reflexivity|apply advances_rotate].
  - destruct (analyze_total w t a) as (v & w' & -> & H).
    exists w'. split; [reflexivity|exact H].
  - destruct (filter_posts_total posts w) as (kept & w' & -> & H).
    exists w'. split; [reflexivity|exact H].
  - eexists. split; [reflexivity|].
    unfold _detect_post_selector_with_ai, send.
    destruct (remote _ _ _ _) as [content|e]; cbn.
    + match goal with
      | |- context [if ?b then _ else _] => destruct b
      end; apply advances_logged.
    + apply advances_logged.
Qed.

(** C9: along every sequence of operations of a run the cursor of the
    credential pool never decreases and never leaves the key list: each
    sequence runs to an end, with the same keys, a cursor at least as large
    as before and at most the last index (or where it already was).  A
    rotation moves the cursor, by one, exactly when it is strictly below the
    last index; otherwise it leaves it where it is. *)
Theorem cursor_monotone (ops : list operation) (w : world) :
  (exists w',
     run_operations remote parse ops w = Some w'
     /\ keys w' = keys w
     /\ cursor w <= cursor w'
     /\ cursor w' <= Nat.max (cursor w) (List.length (keys w) - 1))
  /\ (let c := pool w in
      let below_last := current_key_index c <? List.length (api_keys c) - 1 in
      fst (_rotate_api_key c) = below_last
      /\ current_key_index (snd (_rotate_api_key c))
         = if below_last then S (current_key_index c)
           else current_key_index c).
Proof.
  split.
  - revert w. induction ops as [|o rest IH]; intros w; cbn [run_operations].
    + exists w. split; [reflexivity|]. apply advances_refl.
    + destruct (run_operation_total o w) as (w1 & -> & H1).
      destruct (IH w1) as (w2 & Hrun & H2).
      exists w2. split; [exact Hrun|].
      exact (advances_trans H1 H2).
  - cbv zeta. unfold _rotate_api_key.
    destruct (current_key_index (pool w) <? _); cbn; split;
      try reflexivity; lia.
Qed.

(** Under rate limiting a classification started with the cursor at [k]
    tries the keys [k], [k+1], ..., up to the last one. *)
Lemma exhausts_from (t a : str) :
  always_rate_limited ->
  forall d fuel w,
    cursor w + d = List.length (keys w) - 1 ->
    cursor w < List.length (keys w) ->
    d < fuel ->
    exists w',
      analyze_fuel remote parse fuel w t a = Some (all_keys_exhausted, w')
      /\ keys w' = keys w
      /\ cursor w' = List.length (keys w) - 1
      /\ attempts w' = attempts w ++ seq (cursor w) (S d).
Proof.
  intros Hlim.
  induction d as [|d IH]; intros fuel w Hd Hlt Hfuel;
    (destruct fuel as [|fuel]; [lia|]);
    rewrite analyze_fuel_S;
    destruct (Hlim (attempts w) (cursor w) t a) as (e & -> & He);
    unfold Classifier.on_exception; rewrite He;
    destruct (rotate_spec (logged w)) as (K & A & Ht & Hf);
    cbn [logged pool attempts] in K, A, Ht, Hf.
  - destruct (fst (rotate (logged w))) eqn:R.
    + destruct (Ht eq_refl) as [Hc _]. lia.
    + destruct (Hf eq_refl) as [_ ->].
      exists (logged w). cbn [logged pool attempts seq].
      repeat split; lia.
  - destruct (fst (rotate (logged w))) eqn:R.
    + destruct (Ht eq_refl) as [_ Hc].
      destruct (IH fuel (snd (rotate (logged w)))) as (w' & Hw' & K' & C' & A');
        try (rewrite ?K, ?Hc; lia).
      exists w'. split; [exact Hw'|].
      rewrite K', C', A', K, A, Hc.
      repeat split. cbn [seq]. rewrite <- app_assoc. reflexivity.
    + destruct (Hf eq_refl) as [Hc _]. lia.
Qed.

(** C2: with a pool of N credentials, as [BulqitGroqClient] builds it, and
    a remote model that answers every request with a rate-limit error, the
    classification of one post sends exactly N requests, one with each key
    in turn (keys 0, 1, ..., N-1), and then returns the
    "all_keys_exhausted" verdict, whose [relevant] field is false. *)
Theorem rate_limited_classification (api : list str) (c : client)
    (post_text author_name : str) :
  BulqitGroqClient_init api = Some c ->
  always_rate_limited ->
  exists w',
    analyze_nextdoor_post remote parse (fresh c) post_text author_name
      = Some (all_keys_exhausted, w')
    /\ relevant all_keys_exhausted = false
    /\ attempts w' = seq 0 (List.length api)
    /\ List.length (attempts w') = List.length api
    /\ cursor w' = List.length api - 1.
Proof.
  intros Hinit Hlim.
  destruct api as [|k0 api]; [discriminate|].
  injection Hinit as <-.
  destruct (exhausts_from post_text author_name Hlim
              (List.length api) (S (S (List.length api)))
              (fresh {| api_keys := k0 :: api; current_key_index := 0;
                        daily_request_count := 0 |}))
    as (w' & Hw' & K & C & A); cbn; try lia.
  exists w'. split; [exact Hw'|].
  cbn in C, A. rewrite A, C.
  repeat split; try lia.
  cbn [List.length]. rewrite length_seq. reflexivity.
Qed.

End ClassifierFacts.

Lemma rate_limited_classification_witness :
  exists w',
    Classifier.analyze_nextdoor_post limited_remote no_parse
      (Classifier.fresh
         {| Classifier.api_keys := three_keys;
            Classifier.current_key_index := 0;
            Classifier.daily_request_count := 0 |})
      (text lost_cat) (author lost_cat)
    = Some (Classifier.all_keys_exhausted, w')
    /\ Classifier.attempts w' = [0; 1; 2].
Proof.
  destruct (rate_limited_classification limited_remote no_parse three_keys
              _ (text lost_cat) (author lost_cat) eq_refl)
    as (w' & Hw' & _ & Ha & _).
  - intros seen key t a. eexists. split; reflexivity.
  - exists w'. split; [exact Hw'|exact Ha].
Defined.

(** Once the pool is exhausted the cursor stays on the last key: the next
    post is tried once. *)
Example second_post_one_attempt :
  option_map (fun r => Classifier.attempts (snd r))
    (Classifier.filter_posts limited_remote no_parse
       (Classifier.fresh
          {| Classifier.api_keys := three_keys;
             Classifier.current_key_index := 0;
             Classifier.daily_request_count := 0 |})
       [lost_cat; lost_cat])
  = Some [0; 1; 2; 2].
Proof. vm_compute. reflexivity. Qed.

(** ** VerificationChannel: the life of the gist *)

Section ChannelFacts.

Import Verification.

Variable world : env.
Variable gist_id : str.
Hypothesis gist_id_truthy : truthy gist_id = true.

Abbreviation ready := (Verification.ready gist_id).
Abbreviation ends_well := (Verification.ends_well world gist_id).

Lemma delete_run (st : scanner) :
  ready st ->
  _delete_2fa_gist world st =
  match world (List.length (trace st)) (DeleteGist gist_id) with
  | Replies _ => (Ok tt, forgotten (pushed st (DeleteGist gist_id)))
  | Raises (Exception _) => (Ok tt, pushed st (DeleteGist gist_id))
  | Raises KeyboardInterrupt =>
      (Err KeyboardInterrupt, pushed st (DeleteGist gist_id))
  end.
Proof.
  intros [Ht Hg].
  unfold _delete_2fa_gist, bind, get_token, get_gist_id, try_except, perform,
    set_gist_id, ret.
  rewrite Hg, Ht, gist_id_truthy. cbn [negb orb].
  destruct (world (List.length (trace st)) (DeleteGist gist_id)) as [r|[msg|]];
    reflexivity.
Qed.

Lemma poll_run (st : scanner) :
  ready st ->
  _poll_gist_for_code world st =
  match world (List.length (trace st)) (ReadGist gist_id) with
  | Replies r =>
      (Ok (if status_code r =? 200 then
             match json_content r with
             | Some file_content => find_code (split newline file_content)
             | None => None
             end
           else None), pushed st (ReadGist gist_id))
  | Raises (Exception _) => (Ok None, pushed st (ReadGist gist_id))
  | Raises KeyboardInterrupt =>
      (Err KeyboardInterrupt, pushed st (ReadGist gist_id))
  end.
Proof.
  intros [Ht Hg].
  unfold _poll_gist_for_code, bind, get_token, get_gist_id, try_except,
    perform, lookup, ret, raise.
  rewrite Hg, Ht, gist_id_truthy. cbn [negb orb].
  destruct (world (List.length (trace st)) (ReadGist gist_id)) as [r|[msg|]];
    try reflexivity.
  destruct (status_code r =? 200); [|reflexivity].
  destruct (json_content r); reflexivity.
Qed.

Lemma ready_pushed (st : scanner) (c : call) : ready st -> ready (pushed st c).
Proof. intros H. exact H. Qed.

Lemma deletion_invoked_app (t1 t2 : list call) :
  deletion_invoked gist_id (t1 ++ t2)
  = deletion_invoked gist_id t1 || deletion_invoked gist_id t2.
Proof. apply existsb_app. Qed.

Lemma is_delete_self : is_delete gist_id (DeleteGist gist_id) = true.
Proof. apply eqb_refl. Qed.

Lemma delete_ends_well {A} (st : scanner) (a : A) :
  ready st ->
  forall r st',
    (_delete_2fa_gist world ;;; ret a) st = (r, st') -> ends_well st r st'.
Proof.
  intros Hst r st'. unfold bind. rewrite (delete_run st Hst).
  destruct (world (List.length (trace st)) (DeleteGist gist_id))
    as [rp|[msg|]] eqn:W; cbn [ret]; intros [= <- <-];
    exists [DeleteGist gist_id]; (split; [reflexivity|]).
  - exists []. split; reflexivity.
  - exists []. split; reflexivity.
  - eauto.
Qed.

Lemma ends_well_after {A} {st st1 st' : scanner} {r : result A}
    {t1 : list call} :
  trace st1 = trace st ++ t1 ->
  deletion_invoked gist_id t1 = false ->
  ends_well st1 r st' -> ends_well st r st'.
Proof.
  intros Ht1 Hd1 (t & Ht & Hr).
  exists (t1 ++ t). split; [rewrite Ht, Ht1, app_assoc; reflexivity|].
  destruct r as [a|[msg|]].
  - destruct Hr as (t0 & -> & Hd0).
    exists (t1 ++ t0). split; [rewrite app_assoc; reflexivity|].
    rewrite deletion_invoked_app, Hd1, Hd0. reflexivity.
  - destruct Hr as [Hd Hready]. split; [|exact Hready].
    rewrite deletion_invoked_app, Hd1, Hd. reflexivity.
  - exact Hr.
Qed.

(** The step of the loop after a reading that gave no code. *)
Lemma sleep_then (st1 : scanner) (k : M (option str)) :
  (perform world (Sleep 30) ;;; k) st1 =
  match world (List.length (trace st1)) (Sleep 30) with
  | Replies _ => k (pushed st1 (Sleep 30))
  | Raises e => (Err e, pushed st1 (Sleep 30))
  end.
Proof.
  unfold bind, perform.
  destruct (world (List.length (trace st1)) (Sleep 30)); reflexivity.
Qed.

Lemma sleep_ends_well (remaining : nat) (st st1 : scanner) :
  (forall st2, ready st2 -> forall r st',
      poll_rounds world remaining st2 = (r, st') -> ends_well st2 r st') ->
  st1 = pushed st (ReadGist gist_id) ->
  ready st1 ->
  forall r st',
    (perform world (Sleep 30) ;;; poll_rounds world remaining) st1 = (r, st')
    -> ends_well st r st'.
Proof.
  intros IH Hst1 H1 r st'. rewrite sleep_then.
  assert (trace (pushed st1 (Sleep 30))
          = trace st ++ [ReadGist gist_id; Sleep 30]) as Htr.
  { rewrite Hst1. cbn. rewrite <- app_assoc. reflexivity. }
  destruct (world (List.length (trace st1)) (Sleep 30)) as [rp|[msg|]] eqn:W.
  - intros Hk.
    apply (ends_well_after (st1 := pushed st1 (Sleep 30))
             (t1 := [ReadGist gist_id; Sleep 30])); [exact Htr|reflexivity|].
    apply IH; [apply ready_pushed; exact H1|exact Hk].
  - intros [= <- <-]. exists [ReadGist gist_id; Sleep 30].
    split; [exact Htr|].
    split; [reflexivity|]. apply ready_pushed. exact H1.
  - intros [= <- <-]. exists [ReadGist gist_id; Sleep 30].
    split; [exact Htr|eauto].
Qed.

Lemma poll_rounds_ends_well (remaining : nat) :
  forall st, ready st ->
    forall r st', poll_rounds world remaining st = (r, st') ->
                  ends_well st r st'.
Proof.
  induction remaining as [|remaining IH]; intros st Hst r st'.
  - apply (delete_ends_well st None Hst).
  - cbn [poll_rounds]. unfold bind at 1. rewrite (poll_run st Hst).
    assert (ready (pushed st (ReadGist gist_id))) as H1
        by (apply ready_pushed; exact Hst).
    destruct (world (List.length (trace st)) (ReadGist gist_id))
      as [rp|[msg|]] eqn:W.
    + destruct (truthy_opt _).
      * intros Hd.
        apply (ends_well_after (st1 := pushed st (ReadGist gist_id))
                 (t1 := [ReadGist gist_id])); [reflexivity|reflexivity|].
        eapply delete_ends_well; [exact H1|exact Hd].
      * apply (sleep_ends_well remaining st _ IH eq_refl H1).
    + cbn [truthy_opt]. apply (sleep_ends_well remaining st _ IH eq_refl H1).
    + intros [= <- <-]. exists [ReadGist gist_id].
      split; [reflexivity|eauto].
Qed.

(** The handler of [_wait_for_2fa_code] turns the [Exception] of a body
    that ends well into a deletion. *)
Lemma guarded_ends_well (body : M (option str)) (st : scanner) :
  (forall r st', body st = (r, st') -> ends_well st r st') ->
  forall r st',
    try_except body (fun _ => _delete_2fa_gist world ;;; ret None) st
      = (r, st') ->
    ends_well st r st' /\ (forall msg, r <> Err (Exception msg)).
Proof.
  intros Hbody r st'. unfold try_except.
  destruct (body st) as [[code|[msg|]] st1] eqn:B;
    pose proof (Hbody _ _ eq_refl) as H1.
  - intros [= <- <-]. split; [exact H1|discriminate].
  - destruct H1 as (t & Ht & Hd & Hready). intros Hdel.
    pose proof (delete_ends_well st1 None Hready _ _ Hdel) as H2.
    split; [exact (ends_well_after Ht Hd H2)|].
    intros msg' ->. revert Hdel. unfold bind. rewrite (delete_run st1 Hready).
    destruct (world _ _) as [rp|[m|]]; discriminate.
  - intros [= <- <-]. split; [exact H1|discriminate].
Qed.

Lemma create_run (token gist_url : str) :
  truthy token = true ->
  world 0 CreateGist = Replies (created gist_id gist_url) ->
  _create_2fa_gist world (start token)
  = (Ok (Some gist_url),
     {| github_token := token; current_gist_id := Some gist_id;
        trace := [CreateGist] |}).
Proof.
  intros Ht Hw.
  unfold _create_2fa_gist, bind, get_token, try_except, perform, start.
  cbn. rewrite Ht. cbn. rewrite Hw. reflexivity.
Qed.

(** The body of the handler in [_wait_for_2fa_code], once the gist is
    there. *)
Lemma notified_ends_well (gist_url : str) (st : scanner) :
  ready st ->
  forall r st',
    (perform world (SendNotification gist_url) ;;;
     poll_rounds world max_attempts) st = (r, st') ->
    ends_well st r st'.
Proof.
  intros Hst r st'. unfold bind at 1. unfold perform.
  destruct (world (List.length (trace st)) (SendNotification gist_url))
    as [rp|[msg|]] eqn:W.
  - intros Hp.
    apply (ends_well_after
             (st1 := pushed st (SendNotification gist_url))
             (t1 := [SendNotification gist_url]));
      [reflexivity|reflexivity|].
    apply (poll_rounds_ends_well max_attempts); [exact Hst|exact Hp].
  - intros [= <- <-]. exists [SendNotification gist_url].
    split; [reflexivity|]. split; [reflexivity|exact Hst].
  - intros [= <- <-]. exists [SendNotification gist_url].
    split; [reflexivity|eauto].
Qed.

(** The exits that do clean up: once the gist has been created with its
    URL, every run of [_wait_for_2fa_code] that returns (with the code,
    after the timeout, or after an [Exception] raised by a call) has
    requested the deletion of the gist, exactly once and as its last call;
    the wait never ends with an [Exception]; and it does return in every
    world that raises no [KeyboardInterrupt]. *)
Lemma wait_deletes_gist (token gist_url : str) (r : result (option str))
    (st' : scanner) :
  truthy token = true ->
  truthy gist_url = true ->
  world 0 CreateGist = Replies (created gist_id gist_url) ->
  _wait_for_2fa_code world (start token) = (r, st') ->
  (forall code, r = Ok code ->
     deletion_invoked gist_id (trace st') = true
     /\ exists t, trace st' = t ++ [DeleteGist gist_id]
                  /\ deletion_invoked gist_id t = false)
  /\ (forall e, r = Err e -> e = KeyboardInterrupt)
  /\ ((forall n c, is_interrupt (world n c) = false) ->
      exists code, r = Ok code).
Proof.
  intros Ht Hu Hw Hrun.
  set (st1 := {| github_token := token; current_gist_id := Some gist_id;
                 trace := [CreateGist] |}).
  assert (ready st1) as H1 by (split; [exact Ht|reflexivity]).
  assert (ends_well (start token) r st'
          /\ (forall msg, r <> Err (Exception msg))) as [Hend Hexc].
  { revert Hrun. unfold _wait_for_2fa_code.
    apply guarded_ends_well. intros r0 st0.
    unfold bind at 1. rewrite (create_run token gist_url Ht Hw). rewrite Hu.
    intros Hbody.
    apply (ends_well_after (st1 := st1) (t1 := [CreateGist]));
      [reflexivity|reflexivity|].
    exact (notified_ends_well gist_url st1 H1 _ _ Hbody). }
  destruct Hend as (t & Htr & Hr). cbn in Htr.
  split; [|split].
  - intros code ->. destruct Hr as (t0 & -> & Hd).
    rewrite Htr. split.
    + rewrite deletion_invoked_app.
      unfold deletion_invoked at 2. cbn [existsb].
      rewrite is_delete_self. rewrite orb_true_l. apply orb_true_r.
    + exists t0. split; [reflexivity|exact Hd].
  - intros [msg|] ->; [|reflexivity]. now destruct (Hexc msg).
  - intros Hquiet. destruct r as [code|[msg|]].
    + now exists code.
    + now destruct (Hexc msg).
    + destruct Hr as (n & c & Hn). specialize (Hquiet n c).
      rewrite Hn in Hquiet. discriminate.
Qed.

End ChannelFacts.

(** C3 (evaluation at the failing input): the gist is created, the
    notification goes out, the first reading finds no code, and the scan is
    interrupted during the wait of 30 seconds that follows.  The interrupt
    leaves [_wait_for_2fa_code], whose handler catches [Exception] only:
    the scanner still holds the identifier of the gist and no deletion has
    been requested. *)
Theorem interrupt_leaves_gist :
  let run := Verification._wait_for_2fa_code interrupted_world
               (Verification.start (u "ghp_token")) in
  interrupted_world 0 Verification.CreateGist
    = Verification.Replies
        (Verification.created (u "a1b2c3")
           (u "https://gist.github.com/a1b2c3"))
  /\ fst run = Verification.Err Verification.KeyboardInterrupt
  /\ Verification.trace (snd run)
     = [Verification.CreateGist;
        Verification.SendNotification (u "https://gist.github.com/a1b2c3");
        Verification.ReadGist (u "a1b2c3");
        Verification.Sleep 30]
  /\ Verification.current_gist_id (snd run) = Some (u "a1b2c3")
  /\ Verification.deletion_invoked (u "a1b2c3")
       (Verification.trace (snd run)) = false.
Proof. vm_compute. repeat split; reflexivity. Qed.

(** A second exit without cleanup: GitHub answers 201 with an identifier
    and without [html_url].  The identifier is stored, the lookup of the
    URL raises inside [_create_2fa_gist], and the wait returns None at the
    check of the URL, before any deletion. *)
Example gist_without_url_is_left :
  let run := Verification._wait_for_2fa_code urlless_world
               (Verification.start (u "ghp_token")) in
  fst run = Verification.Ok None
  /\ Verification.trace (snd run) = [Verification.CreateGist]
  /\ Verification.current_gist_id (snd run) = Some (u "a1b2c3").
Proof. vm_compute. repeat split; reflexivity. Qed.

(** An interrupt that strikes the deletion request itself leaves the wait
    as well, after the deletion has been requested. *)
Example interrupted_deletion :
  let run := Verification._wait_for_2fa_code interrupted_deletion_world
               (Verification.start (u "ghp_token")) in
  fst run = Verification.Err Verification.KeyboardInterrupt
  /\ Verification.trace (snd run)
     = [Verification.CreateGist;
        Verification.SendNotification (u "https://gist.github.com/a1b2c3");
        Verification.ReadGist (u "a1b2c3");
        Verification.DeleteGist (u "a1b2c3")]
  /\ Verification.current_gist_id (snd run) = Some (u "a1b2c3").
Proof. vm_compute. repeat split; reflexivity. Qed.

Lemma wait_deletes_gist_witness :
  let run := Verification._wait_for_2fa_code answering_world
               (Verification.start (u "ghp_token")) in
  fst run = Verification.Ok (Some (u "654321"))
  /\ Verification.deletion_invoked (u "a1b2c3")
       (Verification.trace (snd run)) = true.
Proof.
  cbv zeta.
  destruct (Verification._wait_for_2fa_code answering_world
              (Verification.start (u "ghp_token"))) as [r st'] eqn:Hrun.
  destruct (wait_deletes_gist answering_world (u "a1b2c3") eq_refl
              (u "ghp_token") (u "https://gist.github.com/a1b2c3") r st'
              eq_refl eq_refl eq_refl Hrun) as (Hok & _ & _).
  assert (r = Verification.Ok (Some (u "654321"))) as Hr.
  { vm_compute in Hrun. now injection Hrun as <- _. }
  split; [exact Hr|]. apply (Hok _ Hr).
Defined.

Example answering_world_trace :
  Verification.trace
    (snd (Verification._wait_for_2fa_code answering_world
            (Verification.start (u "ghp_token"))))
  = [Verification.CreateGist;
     Verification.SendNotification (u "https://gist.github.com/a1b2c3");
     Verification.ReadGist (u "a1b2c3"); Verification.Sleep 30;
     Verification.ReadGist (u "a1b2c3"); Verification.Sleep 30;
     Verification.ReadGist (u "a1b2c3");
     Verification.DeleteGist (u "a1b2c3")].
Proof. vm_compute. reflexivity. Qed.

(** ** SessionManager: the 2FA code *)

Section SessionFacts.

Import Session.

Lemma enter_digits_with_url (d : driver) (current_url : option str)
    (ids : list str) (code : str) (i : nat) :
  enter_digits (with_url d current_url) ids code i = enter_digits d ids code i.
Proof.
  revert i. induction code as [|digit rest IH]; intros i; cbn; [reflexivity|].
  destruct (nth_error ids i); [|reflexivity].
  destruct (accepts d i s); [apply IH|reflexivity].
Qed.

(** The result of [_enter_2fa_code] does not depend on the location read
    after the digits are in. *)
Lemma enter_2fa_code_ignores_url (d : driver) (current_url : option str)
    (code : str) :
  _enter_2fa_code (with_url d current_url) code = _enter_2fa_code d code.
Proof.
  unfold _enter_2fa_code. cbn [find_inputs url_after with_url].
  rewrite enter_digits_with_url.
  destruct (negb (List.length code =? 6)); [reflexivity|].
  destruct (enter_digits d _ code 0); [|reflexivity].
  destruct current_url as [current_url|], (url_after d) as [other|];
    repeat match goal with
           | |- context [if ?b then _ else _] => destruct b
           end; reflexivity.
Qed.

(** C5 (evaluation at the failing input): the six digits of "654321" are
    entered into the six fields and the browser is still at
    "https://nextdoor.com/login/?ucl=1".  [_enter_2fa_code] returns True,
    the 2FA branch goes on to the scan, and the run ends with a success
    result: the authentication does not fail. *)
Theorem stuck_on_login_is_accepted :
  contains (u "/login/") (u "https://nextdoor.com/login/?ucl=1") = true
  /\ url_after stuck_driver = Some (u "https://nextdoor.com/login/?ucl=1")
  /\ _enter_2fa_code stuck_driver (u "654321") = true
  /\ automated_2fa stuck_driver (Some (u "654321")) = Proceed
  /\ Orchestrator.authenticate stuck_run
     = Orchestrator.Authenticated
         [Orchestrator.TwoFaNotification (u "https://gist.github.com/a1b2c3")]
  /\ fst (Orchestrator.run_scan stuck_run) = true.
Proof. vm_compute. repeat split; reflexivity. Qed.

(** The manual branch does fail in the same situation. *)
Example manual_2fa_stuck_on_login :
  manual_2fa (fun _ => u "https://nextdoor.com/login/?ucl=1") = ReturnFalse.
Proof. vm_compute. reflexivity. Qed.

End SessionFacts.

(** ** ScanOrchestrator *)

Section OrchestratorFacts.

Import Orchestrator.

Lemma first_found_none (found : str -> bool) (selectors : list str) :
  (forall selector, In selector selectors -> found selector = false) ->
  first_found found selectors = None.
Proof.
  induction selectors as [|selector rest IH]; intros H; cbn; [reflexivity|].
  rewrite (H selector (or_introl eq_refl)).
  apply IH. intros s Hs. apply H. now right.
Qed.

(** C6, as amended: when no selector locates the search box,
    [_search_for_term] returns False, nothing is harvested or classified,
    the scan part hands nothing to the report sink and still returns True,
    so that a run that got past the authentication ends with a success
    result and with no message but those of the authentication. *)
Theorem missing_search_box_is_silent (e : run_env) :
  (forall selector, In selector search_selectors ->
     search_box_found e selector = false) ->
  _search_for_term e = false
  /\ scan e = (true, [])
  /\ (forall notices,
        setup_ok e = true -> authenticate e = Authenticated notices ->
        run_scan e = (true, notices)).
Proof.
  intros Hnone.
  assert (_search_for_term e = false) as Hs.
  { unfold _search_for_term. now rewrite (first_found_none _ _ Hnone). }
  assert (scan e = (true, [])) as Hscan.
  { unfold scan. rewrite Hs. reflexivity. }
  split; [exact Hs|]. split; [exact Hscan|].
  intros notices Hsetup Hauth. unfold run_scan.
  rewrite Hsetup, Hauth, Hscan. cbn. rewrite app_nil_r. reflexivity.
Qed.

Lemma missing_search_box_is_silent_witness :
  _search_for_term no_search_box_run = false
  /\ scan no_search_box_run = (true, []).
Proof.
  destruct (missing_search_box_is_silent no_search_box_run) as (Hs & Hscan & _).
  - intros selector _. reflexivity.
  - split; [exact Hs|exact Hscan].
Defined.

(** C6, the claim as it stands, fails: in a session that is logged in and
    finds no search box with any of the selectors, the run ends with the
    success result and nothing is sent to the operator. *)
Lemma search_failure_reports_success :
  setup_ok no_search_box_run = true
  /\ authenticate no_search_box_run = Authenticated []
  /\ forallb (fun selector =>
                negb (search_box_found no_search_box_run selector))
       search_selectors = true
  /\ run_scan no_search_box_run = (true, []).
Proof. vm_compute. repeat split; reflexivity. Qed.

End OrchestratorFacts.

(** ** Report *)

Section SortFacts.

Context {A : Type} (key : A -> str).

Abbreviation key_le := (PySort.key_le key).

Lemma insert_permutation (x : A) (l : list A) :
  Permutation (PySort.insert key x l) (x :: l).
Proof.
  induction l as [|y l IH]; cbn; [reflexivity|].
  destruct (leb (key x) (key y)); [reflexivity|].
  rewrite IH. apply perm_swap.
Qed.

Lemma sorted_permutation (l : list A) : Permutation (PySort.sorted key l) l.
Proof.
  induction l as [|x l IH]; cbn; [reflexivity|].
  rewrite insert_permutation. now constructor.
Qed.

Lemma insert_HdRel (x y : A) (l : list A) :
  key_le y x -> HdRel key_le y l -> HdRel key_le y (PySort.insert key x l).
Proof.
  intros Hyx Hl. destruct l as [|z l]; cbn.
  - now constructor.
  - destruct (leb (key x) (key z)); constructor; [exact Hyx|].
    now inversion Hl.
Qed.

Lemma insert_Sorted (x : A) (l : list A) :
  Sorted key_le l -> Sorted key_le (PySort.insert key x l).
Proof.
  induction 1 as [|y l Hl IH Hy]; cbn.
  - repeat constructor.
  - destruct (leb (key x) (key y)) eqn:E.
    + constructor; [now constructor|]. now constructor.
    + constructor; [exact IH|].
      apply insert_HdRel; [|exact Hy].
      apply leb_total. exact E.
Qed.

Lemma sorted_Sorted (l : list A) : Sorted key_le (PySort.sorted key l).
Proof.
  induction l as [|x l IH]; cbn; [constructor|].
  now apply insert_Sorted.
Qed.

Lemma sorted_StronglySorted (l : list A) :
  StronglySorted key_le (PySort.sorted key l).
Proof.
  apply Sorted_StronglySorted; [|apply sorted_Sorted].
  intros x y z. unfold PySort.key_le. apply leb_trans.
Qed.

Lemma enumerate_numbers (l : list A) (start : nat) :
  map fst (PySort.enumerate start l) = seq start (List.length l).
Proof.
  revert start. induction l as [|x l IH]; intros start; cbn; [reflexivity|].
  now rewrite IH.
Qed.

Lemma enumerate_posts (l : list A) (start : nat) :
  map snd (PySort.enumerate start l) = l.
Proof.
  revert start. induction l as [|x l IH]; intros start; cbn; [reflexivity|].
  now rewrite IH.
Qed.

End SortFacts.

Section ReportFacts.

Import Report.



(** The report of a non-empty list of relevant posts is the header, the
    entries of a list [listed] and the footer, where [listed] holds the
    posts of the input in ascending order of the author field (Python's
    order on strings, by code point), numbered 1, 2, ... *)
Lemma report_sorted_by_author (day_of_week generated : str)
    (first : post) (others : list post) :
  let relevant_posts := first :: others in
  exists listed,
    Permutation listed relevant_posts
    /\ StronglySorted (fun p q => leb (author p) (author q) = true) listed
    /\ map fst (PySort.enumerate 1 listed)
       = seq 1 (List.length relevant_posts)
    /\ map snd (PySort.enumerate 1 listed) = listed
    /\ generate_report day_of_week generated relevant_posts
       = match entries (PySort.enumerate 1 listed) with
         | Some lines =>
             Harvester.Returned
               (join newline
                  (header (search_term first) day_of_week generated
                   ++ lines ++ footer))
         | None => Harvester.Raised
         end.
Proof.
  intros relevant_posts.
  exists (sorted_posts relevant_posts).
  pose proof (sorted_permutation author relevant_posts) as Hperm.
  split; [exact Hperm|].
  split; [apply (sorted_StronglySorted author)|].
  split; [|split].
  - rewrite enumerate_numbers. f_equal.
    apply Permutation_length. exact Hperm.
  - apply enumerate_posts.
  - reflexivity.
Qed.

Example report_of_three :
  generate_report (u "Monday") (u "2025-01-06 09:00:00")
    [maria_post; adam_post; jo_post]
  = Harvester.Returned
      (join newline
         (header (u "pool") (u "Monday") (u "2025-01-06 09:00:00")
          ++ [u "1. Adam Berg - Pool";
              u "   📖 Post: Our pool pump died, who repairs them around here?";
              u "   " ++ dashes; [];
              u "2. Jo Chen - Lawn Care";
              u "   📖 Post: Looking for someone to mow and edge every two weeks";
              u "   " ++ dashes; [];
              u "3. Maria Lopez - Pool";
              u "   📖 Post: Need a reliable pool guy, anyone have recs?";
              u "   " ++ dashes; []]
          ++ footer)).
Proof. vm_compute. reflexivity. Qed.

Example report_capitals_first :
  map author
    (sorted_posts [post_by "adam berg" "a" pool_verdict;
                   post_by "Zoe Hill" "b" pool_verdict])
  = [u "Zoe Hill"; u "adam berg"].
Proof. vm_compute. reflexivity. Qed.

(** C10 (evaluation at the failing input): two relevant posts, by
    "adam berg" and by "Zoe Hill", come in in alphabetical order.  The
    report lists "Zoe Hill" as number 1 and "adam berg" as number 2: the
    sort compares the author fields by code point, where every capital
    letter comes before every small one, although "adam berg" comes first
    in the alphabet (its lowercase is below the lowercase of "Zoe
    Hill"). *)
Theorem report_lists_capitals_first :
  generate_report (u "Monday") (u "2025-01-06 09:00:00")
    [adam_small_post; zoe_post]
  = Harvester.Returned
      (join [10%N]
         [u "🏠 NEXTDOOR SEARCH RESULTS";
          u "==================================================";
          u "Search: " ++ [34%N] ++ u "pool" ++ [34%N];
          u "Day: Monday";
          u "Generated: 2025-01-06 09:00:00";
          u "==================================================";
          u "";
          u "🏠 SERVICE OPPORTUNITIES:";
          u "";
          u "1. Zoe Hill - Lawn Care";
          u "   📖 Post: Looking for someone to mow and edge every two weeks";
          u "   --------------------------------------------------";
          u "";
          u "2. adam berg - Pool";
          u "   📖 Post: Our pool pump died, who repairs them around here?";
          u "   🔗 Link: https://nextdoor.com/p/77";
          u "   --------------------------------------------------";
          u "";
          u "🤖 Generated by Bulqit Nextdoor Monitor";
          u "=================================================="])
  /\ leb (lower (author adam_small_post)) (lower (author zoe_post)) = true
  /\ leb (lower (author zoe_post)) (lower (author adam_small_post)) = false
  /\ leb (author zoe_post) (author adam_small_post) = true.
Proof. vm_compute. repeat split; reflexivity. Qed.

End ReportFacts.

(* ================================================================== *)
(** * Further properties of the code *)
(* ================================================================== *)

(** ** Lists *)

Lemma mem_In (k : str) (seen : list str) : mem k seen = true <-> In k seen.
Proof.
  unfold mem. rewrite existsb_exists. split.
  - intros (x & Hx & E). apply eqb_eq in E. now subst.
  - intros H. exists k. split; [exact H|apply eqb_refl].
Qed.

Lemma mem_nil (k : str) : mem k [] = false.
Proof. reflexivity. Qed.

Lemma mem_not_In (k : str) (seen : list str) :
  mem k seen = false <-> ~ In k seen.
Proof.
  rewrite <- mem_In. destruct (mem k seen); split; congruence.
Qed.

Lemma Subseq_refl {A} (l : list A) : Subseq l l.
Proof. induction l; constructor; assumption. Qed.

Lemma Subseq_In {A} {l1 l2 : list A} {x : A} :
  Subseq l1 l2 -> In x l1 -> In x l2.
Proof.
  induction 1 as [|y l1 l2 _ IH|y l1 l2 _ IH]; cbn; intuition.
Qed.

Lemma Subseq_length {A} {l1 l2 : list A} :
  Subseq l1 l2 -> List.length l1 <= List.length l2.
Proof. induction 1; cbn; lia. Qed.

(** ** PostExtractor: the duplicate filter and the records it emits *)

Section ExtractorInvariants.

Import Extractor.

Lemma remove_duplicates_Subseq (posts : list post) :
  forall seen, Subseq (remove_duplicates posts seen) posts.
Proof.
  induction posts as [|p rest IH]; intros seen; cbn [remove_duplicates map]; [constructor|].
  destruct (mem (text_key p) seen); constructor; apply IH.
Qed.

Lemma remove_duplicates_fresh (posts : list post) :
  forall seen q, In q (remove_duplicates posts seen) ->
                 ~ In (text_key q) seen.
Proof.
  induction posts as [|p rest IH]; intros seen q; cbn [remove_duplicates In]; [intros []|].
  destruct (mem (text_key p) seen) eqn:E.
  - apply IH.
  - intros [<-|Hq]; [now apply mem_not_In|].
    intros Hin. apply (IH _ _ Hq). now right.
Qed.

Lemma remove_duplicates_NoDup (posts : list post) :
  forall seen, NoDup (map text_key (remove_duplicates posts seen)).
Proof.
  induction posts as [|p rest IH]; intros seen; cbn [remove_duplicates map]; [constructor|].
  destruct (mem (text_key p) seen) eqn:E; [apply IH|].
  cbn [map]. constructor; [|apply IH].
  intros Hin. apply in_map_iff in Hin as (q & Hk & Hq).
  apply (remove_duplicates_fresh _ _ _ Hq). left. now rewrite Hk.
Qed.

Lemma remove_duplicates_covers (posts : list post) :
  forall seen p, In p posts ->
    In (text_key p) seen
    \/ In (text_key p) (map text_key (remove_duplicates posts seen)).
Proof.
  induction posts as [|p0 rest IH]; intros seen p; cbn [remove_duplicates In map]; [intros []|].
  intros [->|Hp].
  - destruct (mem (text_key p) seen) eqn:E.
    + left. now apply mem_In.
    + right. now left.
  - destruct (mem (text_key p0) seen) eqn:E.
    + apply IH. exact Hp.
    + destruct (IH (text_key p0 :: seen) p Hp) as [[<-|H]|H].
      * right. now left.
      * now left.
      * right. now right.
Qed.

(** The first post with a given key is the one that stays. *)
Lemma remove_duplicates_first (before : list post) (p : post)
    (after : list post) (seen : list str) :
  ~ In (text_key p) seen ->
  ~ In (text_key p) (map text_key before) ->
  In p (remove_duplicates (before ++ p :: after) seen).
Proof.
  revert seen. induction before as [|b before IH]; intros seen Hs Hb; cbn [app remove_duplicates].
  - apply mem_not_In in Hs. rewrite Hs. now left.
  - cbn [map In] in Hb. destruct (mem (text_key b) seen).
    + apply IH; tauto.
    + right. apply IH; [|tauto].
      intros [E|H]; [|tauto]. apply Hb. now left.
Qed.

(** X1: the duplicate filter of the extractor (and of the scan) keeps
    exactly one post for each key [text[:50].lower().strip()], the first
    one: its result is the input with some posts left out, the keys of
    the result are pairwise distinct, every key of the input is still
    there, and a post that no earlier post shares its key with stays. *)
Theorem remove_duplicates_one_per_key (posts : list post) :
  let unique_posts := remove_duplicates posts [] in
  Subseq unique_posts posts
  /\ NoDup (map text_key unique_posts)
  /\ (forall p, In p posts ->
        In (text_key p) (map text_key unique_posts))
  /\ (forall before p after,
        posts = before ++ p :: after ->
        ~ In (text_key p) (map text_key before) ->
        In p unique_posts).
Proof.
  cbv zeta. split; [apply remove_duplicates_Subseq|].
  split; [apply remove_duplicates_NoDup|].
  split.
  - intros p Hp.
    destruct (remove_duplicates_covers posts [] p Hp) as [[]|H]. exact H.
  - intros before p after -> Hb.
    apply remove_duplicates_first; [intros []|exact Hb].
Qed.

Lemma filter_map_In {A B} (f : A -> option B) (l : list A) (b : B) :
  In b (filter_map f l) <-> exists a, In a l /\ f a = Some b.
Proof.
  induction l as [|a l IH]; cbn.
  - split; [intros []|intros (a & [] & _)].
  - destruct (f a) as [b'|] eqn:E; cbn; rewrite IH; split.
    + intros [<-|(a' & Ha & Hf)]; [exists a; auto|exists a'; auto].
    + intros (a' & [<-|Ha] & Hf); [left; congruence|right; eauto].
    + intros (a' & Ha & Hf). exists a'; auto.
    + intros (a' & [<-|Ha] & Hf); [congruence|eauto].
Qed.

Lemma extracted_from (pg : page) (p : post) :
  In p (_extract_nextdoor_posts pg) ->
  exists cs c, pg = Some cs /\ In c cs /\ extract_container c = Some p.
Proof.
  destruct pg as [cs|]; cbn; [|intros []].
  intros Hp.
  apply (Subseq_In (remove_duplicates_Subseq _ [])) in Hp.
  apply filter_map_In in Hp as (c & Hc & Hf).
  exists cs, c. auto.
Qed.

Lemma split_go_no_separator (sep s : str) :
  find sep s = None ->
  forall cur, split_go sep s 0 cur = [rev cur ++ s].
Proof.
  induction s as [|c s IH]; cbn [find split_go]; intros Hf cur.
  - now rewrite app_nil_r.
  - destruct (startswith sep (c :: s)); [discriminate|].
    destruct (find sep s) eqn:F; [discriminate|].
    rewrite (IH eq_refl). cbn. now rewrite <- app_assoc.
Qed.

Lemma split_no_separator (sep s : str) :
  contains sep s = false -> split sep s = [s].
Proof.
  unfold contains, split. destruct (find sep s) eqn:F; [discriminate|].
  intros _. now rewrite (split_go_no_separator _ _ F).
Qed.

Lemma no_separator_no_post (c : container) :
  contains (u " · ") (full_text c) = false -> extract_container c = None.
Proof.
  intros H. unfold extract_container.
  destruct (contains (u "Traffic Alerts") (full_text c)
            || negb (truthy (full_text c))); [reflexivity|].
  unfold split_author_text. rewrite (split_no_separator _ _ H).
  reflexivity.
Qed.

(** X2: what the extractor leaves out.  A container whose text is empty,
    contains "Traffic Alerts", or lacks the separator " · " between the
    author part and the rest yields no post; neither does a page without
    main content. *)
Theorem skipped_containers (c : container) :
  (truthy (full_text c) = false
   \/ contains (u "Traffic Alerts") (full_text c) = true
   \/ contains (u " · ") (full_text c) = false) ->
  extract_container c = None
  /\ _extract_nextdoor_posts (Some [c]) = []
  /\ _extract_nextdoor_posts None = [].
Proof.
  intros H.
  assert (extract_container c = None) as Hc.
  { unfold extract_container.
    destruct H as [H|[H|H]].
    - rewrite H. now rewrite orb_true_r.
    - now rewrite H.
    - now apply no_separator_no_post. }
  split; [exact Hc|]. split; [|reflexivity].
  cbn. now rewrite Hc.
Qed.

Lemma skipped_containers_witness :
  extract_container
    {| full_text := u "Traffic Alerts · 1 hr agoAccident reported on the 101 near Van Nuys Blvd exit";
       href := None |} = None
  /\ extract_container
       {| full_text := u "Sponsored post without any separator in its text at all";
          href := None |} = None.
Proof.
  split.
  - apply skipped_containers. right. left. reflexivity.
  - apply skipped_containers. right. right. reflexivity.
Defined.

(** X3: every post the extractor returns is a main post: the author is
    not empty and not "Unknown", the body has at least 40 characters and
    none of the reply indicators within its first 30, the link is empty or
    the container's href after "https://nextdoor.com", the search term and
    the scroll number are not set yet, and the container it comes from is
    on the page, has the separator and is no traffic alert. *)
Theorem extracted_posts_are_main_posts (pg : page) (p : post) :
  In p (_extract_nextdoor_posts pg) ->
  truthy (author p) = true
  /\ author p <> u "Unknown"
  /\ 40 <= List.length (text p)
  /\ (forall indicator, In indicator reply_indicators ->
        contains indicator (upto 30 (text p)) = false)
  /\ search_term p = [] /\ scroll_found p = None /\ analysis p = None
  /\ exists cs c,
       pg = Some cs /\ In c cs
       /\ contains (u "Traffic Alerts") (full_text c) = false
       /\ contains (u " · ") (full_text c) = true
       /\ debug_full_text p = upto 200 (full_text c)
       /\ (url p = []
           \/ exists h, href c = Some h
                        /\ url p = u "https://nextdoor.com" ++ h).
Proof.
  intros Hp. destruct (extracted_from pg p Hp) as (cs & c & -> & Hc & Hex).
  assert (contains (u " · ") (full_text c) = true) as Hsep.
  { destruct (contains (u " · ") (full_text c)) eqn:E; [reflexivity|].
    rewrite (no_separator_no_post c E) in Hex. discriminate. }
  revert Hex. unfold extract_container.
  destruct (contains (u "Traffic Alerts") (full_text c)) eqn:Ht;
    [discriminate|].
  destruct (negb (truthy (full_text c))); [discriminate|]. cbn [orb].
  destruct (split_author_text (full_text c)) as [author_name post_text0].
  set (post_text := if truthy post_text0 then _ else post_text0).
  destruct (negb (truthy author_name) || negb (truthy post_text)
            || (List.length post_text <? 20)); [discriminate|].
  destruct (truthy post_text && (30 <? List.length post_text)
            && truthy author_name && negb (eqb author_name (u "Unknown")))
    eqn:E1; [|discriminate].
  destruct (negb (List.length post_text <? 40)
            && negb (existsb (fun indicator =>
                                contains indicator (upto 30 post_text))
                       reply_indicators)) eqn:E2; [|discriminate].
  intros [= <-]. cbn [author text url search_term scroll_found analysis
                      debug_full_text].
  apply andb_true_iff in E1 as [E1 Hunk].
  apply andb_true_iff in E1 as [_ Hauth].
  apply andb_true_iff in E2 as [Hlen Hind].
  apply negb_true_iff in Hunk, Hlen, Hind.
  apply eqb_neq in Hunk. apply Nat.ltb_ge in Hlen.
  split; [exact Hauth|]. split; [exact Hunk|]. split; [exact Hlen|].
  split.
  { intros indicator Hin.
    destruct (contains indicator (upto 30 post_text)) eqn:E; [|reflexivity].
    assert (existsb (fun indicator => contains indicator (upto 30 post_text))
              reply_indicators = true) as Hex.
    { apply existsb_exists. exists indicator. auto. }
    congruence. }
  repeat (split; [reflexivity|]).
  exists cs, c. repeat (split; [assumption || reflexivity|]).
  destruct (href c) as [h|]; [|now left].
  destruct (truthy h); [right; exists h; auto|now left].
Qed.

Lemma extracted_posts_are_main_posts_witness :
  exists p,
    In p (_extract_nextdoor_posts (Some [ann_container]))
    /\ 40 <= List.length (text p)
    /\ author p <> u "Unknown".
Proof.
  exists {| text := u "Looking for a reliable pool cleaner near Ventura Blvd";
            author := u "Ann Lee"; url := u "https://nextdoor.com/p/1001";
            search_term := [];
            debug_full_text := Extractor.full_text ann_container;
            scroll_found := None; analysis := None |}.
  assert (In {| text := u "Looking for a reliable pool cleaner near Ventura Blvd";
            author := u "Ann Lee"; url := u "https://nextdoor.com/p/1001";
            search_term := [];
            debug_full_text := Extractor.full_text ann_container;
            scroll_found := None; analysis := None |}
            (_extract_nextdoor_posts (Some [ann_container]))) as Hin.
  { vm_compute. left. reflexivity. }
  split; [exact Hin|].
  destruct (extracted_posts_are_main_posts _ _ Hin) as (_ & Hu & Hl & _).
  split; [exact Hl|exact Hu].
Defined.

(** Hence the posts the extractor returns for one page have pairwise
    distinct keys [text[:50].lower().strip()], whatever the page holds. *)
Corollary extracted_keys_distinct (pg : page) :
  NoDup (map text_key (_extract_nextdoor_posts pg)).
Proof.
  destruct pg as [cs|]; cbn; [apply remove_duplicates_NoDup|constructor].
Qed.

End ExtractorInvariants.

(** ** Harvester: what a harvest holds *)

Section HarvestContents.

Import Extractor Harvester.

Lemma add_new_posts_spec (posts : list post) (k : nat) :
  forall all new0,
  exists added,
    add_new_posts posts all k new0 = (all ++ added, new0 + List.length added)
    /\ Forall (fun p => exists q, In q posts /\ p = found_at k q) added
    /\ (forall q, In q posts ->
          exists p, In p (all ++ added) /\ prefix50 p = prefix50 q).
Proof.
  induction posts as [|p rest IH]; intros all new0; cbn [add_new_posts].
  - exists []. rewrite app_nil_r, Nat.add_0_r.
    split; [reflexivity|]. split; [constructor|intros q []].
  - destruct (existsb (fun existing => same_prefix existing p) all) eqn:E.
    + destruct (IH all new0) as (added & -> & Hadded & Hrep).
      exists added. split; [reflexivity|]. split.
      * eapply Forall_impl; [|exact Hadded].
        intros x (q & Hq & ->). exists q. split; [now right|reflexivity].
      * intros q [<-|Hq]; [|now apply Hrep].
        apply existsb_exists in E as (existing & Hin & Hsame).
        exists existing. split; [apply in_or_app; now left|].
        now apply eqb_eq.
    + destruct (IH (all ++ [found_at k p]) (S new0))
        as (added & -> & Hadded & Hrep).
      exists (found_at k p :: added). rewrite <- app_assoc. cbn [app].
      split; [f_equal; cbn; lia|]. split.
      * constructor; [exists p; split; [now left|reflexivity]|].
        eapply Forall_impl; [|exact Hadded].
        intros x (q & Hq & ->). exists q. split; [now right|reflexivity].
      * intros q [<-|Hq].
        -- exists (found_at k p). split; [|reflexivity].
           apply in_or_app. right. now left.
        -- destruct (Hrep q Hq) as (x & Hx & Hpx).
           exists x. split; [|exact Hpx].
           rewrite <- app_assoc in Hx. exact Hx.
Qed.

Lemma found_in_weaken (f : feed) (lo hi hi' : nat) (p : post) :
  hi <= hi' -> found_in f lo hi p -> found_in f lo hi' p.
Proof.
  intros Hle (k & q & Hk & Hq & Hp). exists k, q. repeat split; auto; lia.
Qed.

Lemma scroll_loop_harvest (f : feed) (m : nat) :
  forall fuel st posts n,
    no_new_posts_count st <= scroll_count st ->
    Forall (found_in f 1 (scroll_count st - no_new_posts_count st))
      (all_posts st) ->
    scroll_loop fuel f m st = Some (Returned posts, n) ->
    scroll_count st <= n
    /\ (exists more, posts = all_posts st ++ more)
    /\ Forall (found_in f 1 n) posts
    /\ (n < m -> 3 <= n /\ Forall (found_in f 1 (n - 3)) posts)
    /\ (forall k q,
          scroll_count st < k <= n ->
          In q (_extract_nextdoor_posts (shown (f k))) ->
          exists p, In p posts /\ prefix50 p = prefix50 q).
Proof.
  assert (forall st posts n,
             no_new_posts_count st <= scroll_count st ->
             Forall (found_in f 1 (scroll_count st - no_new_posts_count st))
               (all_posts st) ->
             m <= scroll_count st ->
             Some (Returned (all_posts st), scroll_count st)
             = Some (Returned posts, n) ->
             scroll_count st <= n
             /\ (exists more, posts = all_posts st ++ more)
             /\ Forall (found_in f 1 n) posts
             /\ (n < m -> 3 <= n /\ Forall (found_in f 1 (n - 3)) posts)
             /\ (forall k q,
                   scroll_count st < k <= n ->
                   In q (_extract_nextdoor_posts (shown (f k))) ->
                   exists p, In p posts /\ prefix50 p = prefix50 q)) as Hexit.
  { intros st posts n Hnn Hinv Hge [= <- <-].
    split; [lia|]. split; [exists []; now rewrite app_nil_r|].
    split; [eapply Forall_impl; [|exact Hinv];
            intros p; apply found_in_weaken; lia|].
    split; [lia|]. intros k q Hk. lia. }
  induction fuel as [|fuel IH]; intros st posts n Hnn Hinv.
  - rewrite scroll_loop_O.
    destruct (Nat.ltb_spec (scroll_count st) m) as [Hlt|Hge]; [discriminate|].
    now apply Hexit.
  - rewrite scroll_loop_S. cbv zeta.
    destruct (Nat.ltb_spec (scroll_count st) m) as [Hlt|Hge];
      [|now apply Hexit].
    destruct (negb (height_ok (f (S (scroll_count st))))); [discriminate|].
    destruct (add_new_posts_spec
                (_extract_nextdoor_posts (shown (f (S (scroll_count st)))))
                (S (scroll_count st)) (all_posts st) 0)
      as (added & -> & Hadded & Hrep).
    cbn [fst snd]. rewrite Nat.add_0_l.
    set (count := S (scroll_count st)) in *.
    set (no_new := if List.length added =? 0
                   then S (no_new_posts_count st) else 0).
    assert (no_new <= count) as Hnn'.
    { unfold no_new, count. destruct (List.length added =? 0); lia. }
    assert (Forall (found_in f 1 (count - no_new)) (all_posts st ++ added))
      as Hinv'.
    { apply Forall_app. split.
      - eapply Forall_impl; [|exact Hinv].
        intros p. apply found_in_weaken.
        unfold no_new, count. destruct (List.length added =? 0); lia.
      - unfold no_new. destruct (List.length added =? 0) eqn:E.
        + apply Nat.eqb_eq in E. destruct added; [constructor|discriminate].
        + eapply Forall_impl; [|exact Hadded].
          intros p (q & Hq & ->). exists count, q.
          split; [unfold count; lia|]. split; [exact Hq|reflexivity]. }
    assert (forall posts' n',
               count <= n' ->
               (exists more, posts' = (all_posts st ++ added) ++ more) ->
               (forall k q, count < k <= n' ->
                  In q (_extract_nextdoor_posts (shown (f k))) ->
                  exists p, In p posts' /\ prefix50 p = prefix50 q) ->
               forall k q, scroll_count st < k <= n' ->
                 In q (_extract_nextdoor_posts (shown (f k))) ->
                 exists p, In p posts' /\ prefix50 p = prefix50 q) as Hcover.
    { intros posts' n' Hn' (more & ->) Hlater k q Hk Hq.
      destruct (Nat.eq_dec k count) as [->|Hne].
      - destruct (Hrep q Hq) as (p & Hp & Hpq).
        exists p. split; [apply in_or_app; now left|exact Hpq].
      - apply (Hlater k q); [unfold count in *; lia|exact Hq]. }
    destruct (Nat.leb_spec 3 no_new) as [H3|H3].
    + intros [= <- <-].
      split; [unfold count; lia|].
      split; [exists added; reflexivity|].
      split; [eapply Forall_impl; [|exact Hinv'];
              intros p; apply found_in_weaken; lia|].
      split.
      * intros _. split; [lia|].
        eapply Forall_impl; [|exact Hinv'].
        intros p; apply found_in_weaken; lia.
      * apply (Hcover _ count); [lia|exists []; now rewrite app_nil_r|].
        intros k q Hk. lia.
    + destruct (negb (scrolling_ok (f count))); [discriminate|].
      intros Hloop.
      apply IH in Hloop; cbn [scroll_count no_new_posts_count all_posts];
        [|exact Hnn'|exact Hinv'].
      cbn [scroll_count no_new_posts_count all_posts] in Hloop.
      destruct Hloop as (Hn & (more & ->) & Hall & Hearly & Hlater).
      split; [unfold count in *; lia|].
      split; [exists (added ++ more); now rewrite app_assoc|].
      split; [exact Hall|]. split; [exact Hearly|].
      apply (Hcover _ n); [exact Hn|now exists more|exact Hlater].
Qed.

(** X4: every post of a harvest is a post that the extractor returned at
    one of the scrolls performed, carrying the number of that scroll in
    [scroll_found] and otherwise unchanged. *)
Theorem harvested_posts_are_tagged (f : feed) (max_scrolls : nat)
    (posts : list post) (n : nat) (p : post) :
  _scroll_and_collect_posts f max_scrolls = Some (Returned posts, n) ->
  In p posts ->
  exists k q,
    1 <= k <= n
    /\ In q (_extract_nextdoor_posts (shown (f k)))
    /\ scroll_found p = Some k
    /\ text p = text q /\ author p = author q /\ url p = url q.
Proof.
  intros Hrun Hp.
  destruct (scroll_loop_harvest f max_scrolls max_scrolls initial posts n)
    as (_ & _ & Hall & _); [cbn; lia|constructor|exact Hrun|].
  rewrite Forall_forall in Hall.
  destruct (Hall p Hp) as (k & q & Hk & Hq & ->).
  exists k, q. repeat split; auto; lia.
Qed.

(** X5: a harvest that returns misses no post: for every post that the
    extractor returned at one of the scrolls performed, the harvest holds a
    post with the same first 50 characters. *)
Theorem harvest_is_complete (f : feed) (max_scrolls : nat)
    (posts : list post) (n k : nat) (q : post) :
  _scroll_and_collect_posts f max_scrolls = Some (Returned posts, n) ->
  1 <= k <= n ->
  In q (_extract_nextdoor_posts (shown (f k))) ->
  exists p, In p posts /\ prefix50 p = prefix50 q.
Proof.
  intros Hrun Hk Hq.
  destruct (scroll_loop_harvest f max_scrolls max_scrolls initial posts n)
    as (_ & _ & _ & _ & Hcover); [cbn; lia|constructor|exact Hrun|].
  apply (Hcover k q); [cbn; lia|exact Hq].
Qed.

(** X6: a harvest that returns before the scroll budget is used up has
    stagnated: at least 3 scrolls were made and none of the last three
    added a post, so every post was found at least 3 scrolls before the
    end. *)
Theorem early_stop_means_stagnation (f : feed) (max_scrolls : nat)
    (posts : list post) (n : nat) :
  _scroll_and_collect_posts f max_scrolls = Some (Returned posts, n) ->
  n < max_scrolls ->
  3 <= n
  /\ forall p, In p posts ->
       exists k, scroll_found p = Some k /\ 1 <= k /\ k + 3 <= n.
Proof.
  intros Hrun Hn.
  destruct (scroll_loop_harvest f max_scrolls max_scrolls initial posts n)
    as (_ & _ & _ & Hearly & _); [cbn; lia|constructor|exact Hrun|].
  destruct (Hearly Hn) as [H3 Hall]. split; [exact H3|].
  intros p Hp. rewrite Forall_forall in Hall.
  destruct (Hall p Hp) as (k & q & Hk & _ & ->).
  exists k. split; [reflexivity|lia].
Qed.

End HarvestContents.

Lemma case_feed_run :
  exists p1 p2,
    Harvester._scroll_and_collect_posts case_feed 20
    = Some (Harvester.Returned [p1; p2], 5).
Proof. do 2 eexists. vm_compute. reflexivity. Defined.

Lemma harvested_posts_are_tagged_witness :
  exists posts p k,
    Harvester._scroll_and_collect_posts case_feed 20
      = Some (Harvester.Returned posts, 5)
    /\ In p posts /\ scroll_found p = Some k /\ 1 <= k <= 5.
Proof.
  destruct case_feed_run as (p1 & p2 & Hrun).
  destruct (harvested_posts_are_tagged case_feed 20 [p1; p2] 5 p2 Hrun)
    as (k & q & Hk & _ & Hs & _); [right; now left|].
  exists [p1; p2], p2, k.
  split; [exact Hrun|]. split; [right; now left|].
  split; [exact Hs|exact Hk].
Defined.

Lemma harvest_is_complete_witness :
  exists posts p,
    Harvester._scroll_and_collect_posts case_feed 20
      = Some (Harvester.Returned posts, 5)
    /\ In p posts
    /\ Harvester.prefix50 p = Harvester.prefix50 bob_extracted.
Proof.
  destruct case_feed_run as (p1 & p2 & Hrun).
  destruct (harvest_is_complete case_feed 20 [p1; p2] 5 3 bob_extracted Hrun)
    as (p & Hp & Hpre); [lia|vm_compute; now left|].
  exists [p1; p2], p.
  split; [exact Hrun|]. split; [exact Hp|exact Hpre].
Defined.

Lemma early_stop_means_stagnation_witness :
  exists posts,
    Harvester._scroll_and_collect_posts case_feed 20
      = Some (Harvester.Returned posts, 5)
    /\ forall p, In p posts ->
         exists k, scroll_found p = Some k /\ 1 <= k /\ k + 3 <= 5.
Proof.
  destruct case_feed_run as (p1 & p2 & Hrun).
  exists [p1; p2]. split; [exact Hrun|].
  apply (early_stop_means_stagnation case_feed 20 [p1; p2] 5 Hrun). lia.
Defined.

(** ** Classifier: retries, verdicts and the filter *)

Section ClassifierMore.

Import Classifier.

Variable remote : list nat -> nat -> str -> str -> reply.
Variable parse : str -> verdict + str.

Abbreviation cursor w := (current_key_index (pool w)).
Abbreviation keys w := (api_keys (pool w)).

(** What one run of [analyze_fuel] does to the log and the cursor, and where
    a relevant verdict comes from. *)
Lemma analyze_fuel_requests (t a : str) :
  forall fuel w v w',
    analyze_fuel remote parse fuel w t a = Some (v, w') ->
    (exists m,
       1 <= m
       /\ attempts w' = attempts w ++ seq (cursor w) m
       /\ cursor w' = cursor w + m - 1
       /\ (cursor w < List.length (keys w) ->
           cursor w + m <= List.length (keys w)))
    /\ (relevant v = true ->
        exists seen key content,
          remote seen key t a = Answer content /\ parse content = inl v).
Proof.
  assert (forall fuel e w0 w v w',
             (forall w1 v1 w1',
                 analyze_fuel remote parse fuel w1 t a = Some (v1, w1') ->
                 (exists m,
                    1 <= m
                    /\ attempts w1' = attempts w1 ++ seq (cursor w1) m
                    /\ cursor w1' = cursor w1 + m - 1
                    /\ (cursor w1 < List.length (keys w1) ->
                        cursor w1 + m <= List.length (keys w1)))
                 /\ (relevant v1 = true ->
                     exists seen key content,
                       remote seen key t a = Answer content
                       /\ parse content = inl v1)) ->
             keys w = keys w0 -> cursor w = cursor w0 ->
             attempts w = attempts w0 ++ [cursor w0] ->
             Classifier.on_exception remote parse fuel t a e w = Some (v, w') ->
             (exists m,
                1 <= m
                /\ attempts w' = attempts w0 ++ seq (cursor w0) m
                /\ cursor w' = cursor w0 + m - 1
                /\ (cursor w0 < List.length (keys w0) ->
                    cursor w0 + m <= List.length (keys w0)))
             /\ (relevant v = true ->
                 exists seen key content,
                   remote seen key t a = Answer content
                   /\ parse content = inl v)) as Hexc.
  { intros fuel e w0 w v w' IH Hk Hc Ha. unfold Classifier.on_exception.
    destruct (rotate_spec w) as (K & A & Ht & Hf).
    destruct (is_rate_limit e).
    - destruct (fst (rotate w)) eqn:R.
      + destruct (Ht eq_refl) as [Hlt Hc'].
        intros Hrun. destruct (IH _ _ _ Hrun) as [(m & Hm & Hatt & Hcur & Hb) Hrel].
        split; [|exact Hrel].
        exists (S m). rewrite Hatt, A, Ha, Hcur, Hc', Hc, <- app_assoc.
        cbn [seq app]. repeat split; try lia.
        intros _. rewrite K, Hc', Hc, Hk in Hb. rewrite Hk, Hc in Hlt. lia.
      + destruct (Hf eq_refl) as [_ ->].
        intros [= <- <-]. split; [|discriminate].
        exists 1. rewrite Ha, Hc. cbn [seq]. repeat split; lia.
    - intros [= <- <-]. split; [|discriminate].
      exists 1. rewrite Ha, Hc. cbn [seq]. repeat split; lia. }
  induction fuel as [|fuel IH]; intros w v w'; [discriminate|].
  rewrite analyze_fuel_S.
  destruct (remote (attempts w) (cursor w) t a) as [content|e] eqn:R.
  - destruct (parse content) as [v0|e] eqn:P.
    + intros [= <- <-]. split.
      * exists 1. cbn. repeat split; lia.
      * intros _. eauto.
    + apply (Hexc fuel e w); [exact IH|reflexivity|reflexivity|reflexivity].
  - apply (Hexc fuel e w); [exact IH|reflexivity|reflexivity|reflexivity].
Qed.

(** X7: one classification sends its requests with consecutive keys,
    starting at the cursor: never the same key twice, never more requests
    than there are keys from the cursor on, and the cursor is left on the key
    of the last request. *)
Theorem classification_uses_consecutive_keys (w : world)
    (post_text author_name : str) :
  exists v w' m,
    analyze_nextdoor_post remote parse w post_text author_name = Some (v, w')
    /\ 1 <= m
    /\ attempts w' = attempts w ++ seq (cursor w) m
    /\ cursor w' = cursor w + m - 1
    /\ (cursor w < List.length (keys w) ->
        cursor w + m <= List.length (keys w)).
Proof.
  destruct (analyze_total remote parse w post_text author_name)
    as (v & w' & Hrun & _).
  destruct (analyze_fuel_requests post_text author_name _ _ _ _ Hrun)
    as [(m & Hm) _].
  exists v, w', m. split; [exact Hrun|exact Hm].
Qed.

(** X8: [filter_posts] returns posts of its input, in their order, each
    with the verdict it was kept for; that verdict is relevant and is the
    parsed answer of the remote model to a request for this post.  A post
    whose classification failed is never kept. *)
Theorem filter_posts_keeps_relevant (posts : list post) (w : world) :
  exists kept w' chosen,
    filter_posts remote parse w posts = Some (kept, w')
    /\ kept = map (fun pv => with_analysis (fst pv) (snd pv)) chosen
    /\ Subseq (map fst chosen) posts
    /\ Forall (fun pv =>
                 relevant (snd pv) = true
                 /\ exists seen key content,
                      remote seen key (text (fst pv)) (author (fst pv))
                        = Answer content
                      /\ parse content = inl (snd pv)) chosen.
Proof.
  revert w. induction posts as [|p rest IH]; intros w; cbn [filter_posts].
  - exists [], w, []. repeat split; constructor.
  - destruct (analyze_total remote parse w (text p) (author p))
      as (v & w1 & Hrun & _).
    rewrite Hrun.
    destruct (analyze_fuel_requests _ _ _ _ _ _ Hrun) as [_ Hrel].
    destruct (IH w1) as (kept & w2 & chosen & -> & -> & Hsub & Hall).
    destruct (relevant v) eqn:Rv.
    + exists (with_analysis p v
              :: map (fun pv => with_analysis (fst pv) (snd pv)) chosen),
        w2, ((p, v) :: chosen).
      split; [reflexivity|]. split; [reflexivity|].
      split; [now constructor|].
      constructor; [|exact Hall]. split; [exact Rv|now apply Hrel].
    + exists (map (fun pv => with_analysis (fst pv) (snd pv)) chosen),
        w2, chosen.
      split; [reflexivity|]. split; [reflexivity|].
      split; [now constructor|exact Hall].
Qed.

(** X9: with a remote model that is rate limited on every request,
    [filter_posts] keeps no post: the first post uses up the keys from the
    cursor on, and every later post costs one more request with the last
    key. *)
Theorem exhausted_pool_keeps_nothing (posts : list post) (w : world) :
  Classifier.always_rate_limited remote ->
  cursor w < List.length (keys w) ->
  exists w',
    filter_posts remote parse w posts = Some ([], w')
    /\ List.length (attempts w')
       = List.length (attempts w)
         + match posts with
           | [] => 0
           | _ :: rest =>
               (List.length (keys w) - cursor w) + List.length rest
           end.
Proof.
  intros Hlim.
  assert (forall t a w0, cursor w0 < List.length (keys w0) ->
            exists w1,
              analyze_nextdoor_post remote parse w0 t a
                = Some (all_keys_exhausted, w1)
              /\ keys w1 = keys w0
              /\ cursor w1 = List.length (keys w0) - 1
              /\ List.length (attempts w1)
                 = List.length (attempts w0)
                   + (List.length (keys w0) - cursor w0)) as Hone.
  { intros t a w0 Hlt.
    destruct (exhausts_from remote parse t a Hlim
                (List.length (keys w0) - 1 - cursor w0)
                (S (List.length (keys w0))) w0)
      as (w1 & Hrun & K & C & A); try lia.
    exists w1. split; [exact Hrun|]. split; [exact K|]. split; [exact C|].
    rewrite A, length_app, length_seq. lia. }
  revert w. induction posts as [|p rest IH]; intros w Hlt;
    cbn [filter_posts].
  - exists w. split; [reflexivity|lia].
  - destruct (Hone (text p) (author p) w Hlt) as (w1 & -> & K & C & A).
    destruct (IH w1) as (w2 & -> & A2); [rewrite K, C; lia|].
    exists w2. cbn [relevant all_keys_exhausted].
    split; [reflexivity|].
    rewrite A2, A, K, C. destruct rest as [|q rest']; cbn [List.length]; lia.
Qed.

(** The classification in place: it returns, its relevant posts are those
    of [filter_posts], every post of the list is left untouched or with a
    relevant analysis, and the relevant posts are among the posts left. *)
Lemma filter_posts_in_place_spec (posts : list post) :
  forall w,
    exists relevant_posts posts' w',
      filter_posts_in_place remote parse w posts
      = Some (relevant_posts, posts', w')
      /\ filter_posts remote parse w posts = Some (relevant_posts, w')
      /\ Forall2 analysed posts posts'
      /\ Subseq relevant_posts posts'.
Proof.
  induction posts as [|p rest IH]; intros w.
  - exists [], [], w. repeat split; constructor.
  - cbn [filter_posts_in_place filter_posts].
    destruct (analyze_total remote parse w (text p) (author p))
      as (v & w1 & -> & _).
    destruct (IH w1) as (rel & rest' & w2 & -> & -> & Hall & Hsub).
    destruct (relevant v) eqn:R.
    + exists (with_analysis p v :: rel), (with_analysis p v :: rest'), w2.
      repeat split; constructor; try assumption.
      right. now exists v.
    + exists rel, (p :: rest'), w2.
      repeat split; constructor; try assumption. now left.
Qed.

End ClassifierMore.

Lemma exhausted_pool_keeps_nothing_witness :
  exists w',
    Classifier.filter_posts limited_remote no_parse
      (Classifier.fresh
         {| Classifier.api_keys := three_keys;
            Classifier.current_key_index := 0;
            Classifier.daily_request_count := 0 |})
      [lost_cat; lost_cat; lost_cat] = Some ([], w')
    /\ List.length (Classifier.attempts w') = 5.
Proof.
  destruct (exhausted_pool_keeps_nothing limited_remote no_parse
              [lost_cat; lost_cat; lost_cat]
              (Classifier.fresh
                 {| Classifier.api_keys := three_keys;
                    Classifier.current_key_index := 0;
                    Classifier.daily_request_count := 0 |}))
    as (w' & Hrun & Hlen).
  - intros seen key t a. eexists. split; reflexivity.
  - cbn. lia.
  - exists w'. split; [exact Hrun|exact Hlen].
Defined.

(** ** VerificationChannel: bounds, timeout and failures *)

Section ChannelBounds.

Import Verification ChannelSpec.

Variable world : env.

Lemma count_app (kind : call -> bool) (t1 t2 : list call) :
  count kind (t1 ++ t2) = count kind t1 + count kind t2.
Proof. unfold count. now rewrite filter_app, length_app. Qed.

Lemma within_app {t1 t2 : list call} {c1 s1 r1 w1 d1 c2 s2 r2 w2 d2 : nat} :
  within t1 c1 s1 r1 w1 d1 -> within t2 c2 s2 r2 w2 d2 ->
  within (t1 ++ t2) (c1 + c2) (s1 + s2) (r1 + r2) (w1 + w2) (d1 + d2).
Proof.
  unfold within. rewrite !count_app. lia.
Qed.

Lemma within_weaken {t : list call} {c s r w d c' s' r' w' d' : nat} :
  within t c s r w d ->
  c <= c' -> s <= s' -> r <= r' -> w <= w' -> d <= d' ->
  within t c' s' r' w' d'.
Proof. unfold within. lia. Qed.

Lemma within_length {t : list call} {c s r w d : nat} :
  within t c s r w d -> List.length t <= c + s + r + w + d.
Proof.
  unfold within, count.
  assert (List.length t
          = List.length (filter is_create t)
            + List.length (filter is_notification t)
            + List.length (filter is_read t)
            + List.length (filter is_sleep t)
            + List.length (filter is_deletion t)) as ->;
    [|lia].
  induction t as [|x t IH]; [reflexivity|].
  destruct x; cbn; lia.
Qed.

(** One reading: at most one call, a [ReadGist]; no [Exception] comes out;
    a code that comes out has six digits. *)
Lemma poll_shape (st : scanner) (r : result (option str)) (st' : scanner) :
  _poll_gist_for_code world st = (r, st') ->
  exists t,
    trace st' = trace st ++ t
    /\ within t 0 0 1 0 0
    /\ (forall msg, r <> Err (Exception msg))
    /\ (forall code, r = Ok (Some code) ->
          List.length code = 6 /\ forallb is_digit code = true).
Proof.
  destruct (current_gist_id st) as [g|] eqn:G.
  2:{ unfold _poll_gist_for_code, bind, get_token, get_gist_id, ret.
      rewrite G. intros [= <- <-]. exists [].
      rewrite app_nil_r. repeat split; cbn; try lia; discriminate. }
  destruct (truthy (github_token st)) eqn:T, (truthy g) eqn:Tg.
  - rewrite (poll_run world g Tg st (conj T G)).
    destruct (world (List.length (trace st)) (ReadGist g)) as [rp|[msg|]];
      intros [= <- <-]; exists [ReadGist g];
      (split; [reflexivity|]); (split; [repeat split; cbn; lia|]);
      (split; [discriminate|]); try discriminate.
    intros code [= Hc].
    destruct (status_code rp =? 200); [|discriminate].
    destruct (json_content rp) as [content|]; [|discriminate].
    apply (find_code_six_digits _ _ Hc).
  - unfold _poll_gist_for_code, bind, get_token, get_gist_id, ret.
    rewrite G, T, Tg. cbn. intros [= <- <-]. exists [].
    rewrite app_nil_r. repeat split; cbn; try lia; discriminate.
  - unfold _poll_gist_for_code, bind, get_token, get_gist_id, ret.
    rewrite G, T. cbn. intros [= <- <-]. exists [].
    rewrite app_nil_r. repeat split; cbn; try lia; discriminate.
  - unfold _poll_gist_for_code, bind, get_token, get_gist_id, ret.
    rewrite G, T. cbn. intros [= <- <-]. exists [].
    rewrite app_nil_r. repeat split; cbn; try lia; discriminate.
Qed.

(** One deletion: at most one call, a [DeleteGist]; no [Exception] comes
    out. *)
Lemma delete_shape (st : scanner) (r : result unit) (st' : scanner) :
  _delete_2fa_gist world st = (r, st') ->
  exists t,
    trace st' = trace st ++ t
    /\ within t 0 0 0 0 1
    /\ (forall msg, r <> Err (Exception msg)).
Proof.
  destruct (current_gist_id st) as [g|] eqn:G.
  2:{ unfold _delete_2fa_gist, bind, get_token, get_gist_id, ret.
      rewrite G. intros [= <- <-]. exists [].
      rewrite app_nil_r. repeat split; cbn; try lia; discriminate. }
  destruct (truthy (github_token st)) eqn:T, (truthy g) eqn:Tg.
  - rewrite (delete_run world g Tg st (conj T G)).
    destruct (world (List.length (trace st)) (DeleteGist g)) as [rp|[msg|]];
      intros [= <- <-]; exists [DeleteGist g];
      (split; [reflexivity|]); (split; [repeat split; cbn; lia|]);
      discriminate.
  - unfold _delete_2fa_gist, bind, get_token, get_gist_id, ret.
    rewrite G, T, Tg. cbn. intros [= <- <-]. exists [].
    rewrite app_nil_r. repeat split; cbn; try lia; discriminate.
  - unfold _delete_2fa_gist, bind, get_token, get_gist_id, ret.
    rewrite G, T. cbn. intros [= <- <-]. exists [].
    rewrite app_nil_r. repeat split; cbn; try lia; discriminate.
  - unfold _delete_2fa_gist, bind, get_token, get_gist_id, ret.
    rewrite G, T. cbn. intros [= <- <-]. exists [].
    rewrite app_nil_r. repeat split; cbn; try lia; discriminate.
Qed.

(** A deletion followed by the return of [a]. *)
Lemma delete_then_shape {A} (a : A) (st : scanner) (r : result A)
    (st' : scanner) :
  (_delete_2fa_gist world ;;; ret a) st = (r, st') ->
  exists t,
    trace st' = trace st ++ t
    /\ within t 0 0 0 0 1
    /\ (forall msg, r <> Err (Exception msg))
    /\ (forall a', r = Ok a' -> a' = a).
Proof.
  unfold bind.
  destruct (_delete_2fa_gist world st) as [[[]|e] st1] eqn:D;
    destruct (delete_shape _ _ _ D) as (t & Ht & Hw & Hx);
    cbn [ret]; intros [= <- <-]; exists t;
    (split; [exact Ht|]); (split; [exact Hw|]).
  - split; [discriminate|]. now intros a' [= <-].
  - split; [|discriminate].
    intros msg [= ->]. now destruct (Hx msg).
Qed.

Lemma poll_rounds_shape (remaining : nat) :
  forall st r st',
    poll_rounds world remaining st = (r, st') ->
    exists t,
      trace st' = trace st ++ t
      /\ within t 0 0 remaining remaining 1
      /\ (forall msg, r = Err (Exception msg) -> count is_deletion t = 0)
      /\ (forall code, r = Ok (Some code) ->
            List.length code = 6 /\ forallb is_digit code = true).
Proof.
  induction remaining as [|remaining IH]; intros st r st'.
  - cbn [poll_rounds]. intros Hd.
    destruct (delete_then_shape _ _ _ _ Hd) as (t & Ht & Hw & Hx & Ha).
    exists t. split; [exact Ht|]. split; [exact Hw|]. split.
    + intros msg ->. now destruct (Hx msg).
    + intros code ->. now specialize (Ha _ eq_refl).
  - cbn [poll_rounds]. unfold bind at 1.
    destruct (_poll_gist_for_code world st) as [[code|e] st1] eqn:P;
      destruct (poll_shape _ _ _ P) as (t1 & Ht1 & Hw1 & Hx1 & Hc1).
    + destruct (truthy_opt code) eqn:Tc.
      * intros Hd.
        destruct (delete_then_shape _ _ _ _ Hd) as (t2 & Ht2 & Hw2 & Hx2 & Ha).
        exists (t1 ++ t2). split; [now rewrite Ht2, Ht1, app_assoc|].
        split; [apply (within_weaken (within_app Hw1 Hw2)); lia|].
        split; [intros msg ->; now destruct (Hx2 msg)|].
        intros code' ->. specialize (Ha _ eq_refl). subst code.
        now apply Hc1.
      * unfold bind, perform.
        destruct (world (List.length (trace st1)) (Sleep 30)) as [rp|e] eqn:W.
        -- intros Hrest.
           destruct (IH _ _ _ Hrest) as (t2 & Ht2 & Hw2 & Hx2 & Hc2).
           cbn [trace] in Ht2.
           exists (t1 ++ Sleep 30 :: t2). split.
           { rewrite Ht2, Ht1, <- !app_assoc. reflexivity. }
           split.
           { change (Sleep 30 :: t2) with ([Sleep 30] ++ t2).
             assert (within [Sleep 30] 0 0 0 1 0) as Hs
                 by (repeat split; cbn; lia).
             apply (within_weaken (within_app Hw1 (within_app Hs Hw2))); lia. }
           split.
           { intros msg Hr. specialize (Hx2 msg Hr).
             destruct Hw1 as (_ & _ & _ & _ & Hd1).
             rewrite count_app.
             change (Sleep 30 :: t2) with ([Sleep 30] ++ t2).
             rewrite count_app. cbn. cbn in Hd1. unfold count in *. lia. }
           exact Hc2.
        -- intros [= <- <-]. exists (t1 ++ [Sleep 30]). split.
           { cbn. now rewrite Ht1, <- app_assoc. }
           split.
           { assert (within [Sleep 30] 0 0 0 1 0) as Hs
                 by (repeat split; cbn; lia).
             apply (within_weaken (within_app Hw1 Hs)); lia. }
           split; [|discriminate].
           intros _ _. destruct Hw1 as (_ & _ & _ & _ & Hd1).
           rewrite count_app. cbn. unfold count in *. lia.
    + intros [= <- <-]. exists t1. split; [exact Ht1|].
      split; [apply (within_weaken Hw1); lia|].
      split; [|discriminate].
      intros msg [= ->]. now destruct (Hx1 msg).
Qed.

End ChannelBounds.

Section ChannelRuns.

Import Verification ChannelSpec.

Variable world : env.

Lemma within_nil : within [] 0 0 0 0 0.
Proof. repeat split; cbn; lia. Qed.

(** The creation: at most one call, no [Exception] comes out, and without
    a URL coming out no gist identifier is kept unless the answer had one. *)
Lemma create_shape (token : str) (r : result (option str)) (st' : scanner) :
  _create_2fa_gist world (start token) = (r, st') ->
  within (trace st') 1 0 0 0 0
  /\ (forall msg, r <> Err (Exception msg))
  /\ github_token st' = token
  /\ (truthy token = false \/ creation_fails (world 0 CreateGist) = true ->
      r = Ok None /\ current_gist_id st' = None).
Proof.
  unfold _create_2fa_gist, bind, get_token, try_except, perform, start,
    lookup, set_gist_id, ret, raise, creation_fails.
  cbn. destruct (truthy token) eqn:T; cbn.
  2:{ intros [= <- <-]. split; [repeat split; cbn; lia|].
      split; [discriminate|]. split; [reflexivity|]. auto. }
  destruct (world 0 CreateGist) as [rp|[msg|]] eqn:W; cbn.
  - destruct (status_code rp =? 201); cbn.
    + destruct (json_id rp) as [g|]; [destruct (json_html_url rp) as [url|]|];
        cbn; intros [= <- <-]; (split; [repeat split; cbn; lia|]);
        (split; [discriminate|]); (split; [reflexivity|]);
        try (intros [H|H]; discriminate); auto.
    + intros [= <- <-]. split; [repeat split; cbn; lia|].
      split; [discriminate|]. split; [reflexivity|]. auto.
  - intros [= <- <-]. split; [repeat split; cbn; lia|].
    split; [discriminate|]. split; [reflexivity|]. auto.
  - intros [= <- <-]. split; [repeat split; cbn; lia|].
    split; [discriminate|]. split; [reflexivity|].
    intros [H|H]; discriminate.
Qed.

Lemma wait_body_shape (token : str) (r : result (option str))
    (st' : scanner) :
  wait_body world (start token) = (r, st') ->
  within (trace st') 1 1 6 6 1
  /\ (forall msg, r = Err (Exception msg) ->
        count is_deletion (trace st') = 0)
  /\ (forall code, r = Ok (Some code) ->
        List.length code = 6 /\ forallb is_digit code = true)
  /\ (truthy token = false \/ creation_fails (world 0 CreateGist) = true ->
      r = Ok None /\ current_gist_id st' = None
      /\ within (trace st') 1 0 0 0 0).
Proof.
  unfold wait_body, bind at 1.
  destruct (_create_2fa_gist world (start token)) as [[gist_url|e] st1] eqn:C;
    destruct (create_shape _ _ _ C) as (Hw1 & Hx1 & Htok & Hfail).
  2:{ intros [= <- <-]. split; [apply (within_weaken Hw1); lia|].
      split; [intros msg [= ->]; now destruct (Hx1 msg)|].
      split; [discriminate|].
      intros H. destruct (Hfail H) as [? _]. discriminate. }
  assert (forall st2 : scanner, st2 = st1 ->
            within (trace st2) 1 1 6 6 1
            /\ (forall msg, @Ok (option str) None = Err (Exception msg) ->
                  count is_deletion (trace st2) = 0)
            /\ (forall code, Ok None = Ok (Some code) ->
                  List.length code = 6 /\ forallb is_digit code = true)
            /\ (truthy token = false
                \/ creation_fails (world 0 CreateGist) = true ->
                @Ok (option str) None = Ok None
                /\ current_gist_id st2 = None
                /\ within (trace st2) 1 0 0 0 0)) as Hnone.
  { intros st2 ->. split; [apply (within_weaken Hw1); lia|].
    split; [discriminate|]. split; [discriminate|].
    intros H. destruct (Hfail H) as [_ Hg]. auto. }
  destruct gist_url as [gist_url|];
    [|intros [= <- <-]; now apply Hnone].
  destruct (truthy gist_url); [|intros [= <- <-]; now apply Hnone].
  assert (truthy token = false \/ creation_fails (world 0 CreateGist) = true
          -> False) as Hok.
  { intros H. destruct (Hfail H) as [? _]. discriminate. }
  unfold bind, perform.
  destruct (world (List.length (trace st1)) (SendNotification gist_url))
    as [rp|e] eqn:W.
  - intros Hp.
    destruct (poll_rounds_shape world _ _ _ _ Hp) as (t & Ht & Hw & Hx & Hc).
    cbn [trace] in Ht.
    assert (within (trace st')  1 1 6 6 1) as Hall.
    { rewrite Ht, <- app_assoc.
      assert (within [SendNotification gist_url] 0 1 0 0 0) as Hs
          by (repeat split; cbn; lia).
      apply (within_weaken (within_app Hw1 (within_app Hs Hw)));
        unfold max_attempts; lia. }
    split; [exact Hall|]. split.
    + intros msg Hr. rewrite Ht, <- app_assoc, !count_app, (Hx msg Hr).
      destruct Hw1 as (_ & _ & _ & _ & Hd1). cbn. unfold count in *. lia.
    + split; [exact Hc|]. intros H. now destruct (Hok H).
  - intros [= <- <-]. cbn [trace].
    assert (within [SendNotification gist_url] 0 1 0 0 0) as Hs
        by (repeat split; cbn; lia).
    split; [apply (within_weaken (within_app Hw1 Hs)); lia|].
    split.
    + intros _ _. rewrite count_app.
      destruct Hw1 as (_ & _ & _ & _ & Hd1). cbn. unfold count in *. lia.
    + split; [discriminate|]. intros H. now destruct (Hok H).
Qed.

Lemma wait_unfold (st : scanner) :
  _wait_for_2fa_code world st
  = try_except (wait_body world) (fun _ => _delete_2fa_gist world ;;; ret None) st.
Proof. reflexivity. Qed.

(** The counts of the calls of a wait, and no [Exception] leaves it. *)
Lemma wait_within (token : str) :
  let run := _wait_for_2fa_code world (start token) in
  within (trace (snd run)) 1 1 6 6 1
  /\ (forall msg, fst run <> Err (Exception msg)).
Proof.
  cbv zeta. rewrite wait_unfold. unfold try_except.
  destruct (wait_body world (start token)) as [[code|[msg|]] st1] eqn:B;
    destruct (wait_body_shape _ _ _ B) as (Hw & Hx & _).
  - cbn [fst snd]. split; [exact Hw|discriminate].
  - destruct ((_delete_2fa_gist world ;;; ret None) st1) as [r st2] eqn:D.
    destruct (delete_then_shape world _ _ _ _ D) as (t & Ht & Hwd & Hxd & _).
    cbn [fst snd]. split; [|exact Hxd].
    rewrite Ht. specialize (Hx msg eq_refl).
    destruct Hw as (Hc & Hs & Hr & Hsl & _).
    destruct Hwd as (Hc' & Hs' & Hr' & Hsl' & Hd').
    unfold within. rewrite !count_app. lia.
  - cbn [fst snd]. split; [exact Hw|discriminate].
Qed.

(** X10: the 2FA wait is bounded in every world: it creates at most one
    gist, sends at most one notification, reads the gist at most 6 times,
    waits 30 seconds at most 6 times and requests at most one deletion, so
    at most 15 calls in all; and no [Exception] leaves it. *)
Theorem wait_is_bounded (token : str) :
  let run := _wait_for_2fa_code world (start token) in
  within (trace (snd run)) 1 1 6 6 1
  /\ List.length (trace (snd run)) <= 15
  /\ (forall msg, fst run <> Err (Exception msg)).
Proof.
  cbv zeta. destruct (wait_within token) as [Hw Hx].
  split; [exact Hw|]. split; [apply (within_length Hw)|exact Hx].
Qed.

(** X11: a code that the 2FA wait returns has exactly six digits. *)
Theorem waited_code_has_six_digits (token code : str) (st' : scanner) :
  _wait_for_2fa_code world (start token) = (Ok (Some code), st') ->
  List.length code = 6 /\ forallb is_digit code = true.
Proof.
  rewrite wait_unfold. unfold try_except.
  destruct (wait_body world (start token)) as [[code'|[msg|]] st1] eqn:B;
    destruct (wait_body_shape _ _ _ B) as (_ & _ & Hc & _).
  - intros [= -> _]. now apply Hc.
  - intros Hd.
    destruct (delete_then_shape world _ _ _ _ Hd) as (_ & _ & _ & _ & Ha).
    specialize (Ha _ eq_refl). discriminate.
  - discriminate.
Qed.

(** X12: when the gist cannot be created (no token, a call that raises an
    [Exception], a status other than 201, or an answer without id) the wait
    returns None at once: no notification is sent, the gist is neither read
    nor deleted, nothing is waited for, and no gist identifier is kept. *)
Theorem failed_creation_ends_wait (token : str) :
  truthy token = false \/ creation_fails (world 0 CreateGist) = true ->
  let run := _wait_for_2fa_code world (start token) in
  fst run = Ok None
  /\ current_gist_id (snd run) = None
  /\ within (trace (snd run)) 1 0 0 0 0.
Proof.
  intros H. cbv zeta. rewrite wait_unfold. unfold try_except.
  destruct (wait_body world (start token)) as [r st1] eqn:B.
  destruct (wait_body_shape _ _ _ B) as (_ & _ & _ & Hf).
  destruct (Hf H) as (-> & Hg & Hw). cbn [fst snd]. auto.
Qed.

End ChannelRuns.

Section ChannelTimeout.

Import Verification ChannelSpec.

Variable world : env.
Variable gist_id : str.
Hypothesis gist_id_truthy : truthy gist_id = true.
Hypothesis reads_give_nothing :
  forall n, reads_nothing (world n (ReadGist gist_id)) = true.
Hypothesis sleeps_return : forall n, returns (world n (Sleep 30)) = true.
Hypothesis deletion_not_interrupted :
  forall n, is_interrupt (world n (DeleteGist gist_id)) = false.

Lemma poll_rounds_timeout (remaining : nat) :
  forall st, Verification.ready gist_id st ->
    exists st',
      poll_rounds world remaining st = (Ok None, st')
      /\ trace st'
         = trace st ++ polling_rounds gist_id remaining
           ++ [DeleteGist gist_id].
Proof.
  induction remaining as [|remaining IH]; intros st Hst.
  - cbn [poll_rounds polling_rounds app]. unfold bind.
    rewrite (delete_run world gist_id gist_id_truthy st Hst).
    pose proof (deletion_not_interrupted (List.length (trace st))) as Hd.
    destruct (world (List.length (trace st)) (DeleteGist gist_id))
      as [rp|[msg|]]; try discriminate; cbn [ret];
      eexists; (split; [reflexivity|reflexivity]).
  - cbn [poll_rounds polling_rounds]. unfold bind at 1.
    rewrite (poll_run world gist_id gist_id_truthy st Hst).
    pose proof (reads_give_nothing (List.length (trace st))) as Hr.
    unfold reads_nothing, code_read in Hr.
    assert (exists st',
              (perform world (Sleep 30) ;;; poll_rounds world remaining)
                (pushed st (ReadGist gist_id)) = (Ok None, st')
              /\ trace st'
                 = trace st ++ (ReadGist gist_id :: Sleep 30
                                  :: polling_rounds gist_id remaining)
                   ++ [DeleteGist gist_id]) as Hsleep.
    { rewrite sleep_then.
      pose proof (sleeps_return
                    (List.length (trace (pushed st (ReadGist gist_id)))))
        as Hs.
      destruct (world _ (Sleep 30)) as [rp|e]; [|discriminate].
      destruct (IH (pushed (pushed st (ReadGist gist_id)) (Sleep 30)))
        as (st' & Hres & Htr); [exact Hst|].
      exists st'. split; [exact Hres|]. rewrite Htr. cbn [pushed trace].
      rewrite <- !app_assoc. reflexivity. }
    destruct (world (List.length (trace st)) (ReadGist gist_id))
      as [rp|[msg|]]; cbn [is_interrupt negb andb] in Hr.
    + apply negb_true_iff in Hr. rewrite Hr. exact Hsleep.
    + cbn [truthy_opt]. exact Hsleep.
    + discriminate.
Qed.

(** X13: the timeout.  Once the gist is created and the notification
    call has returned, if no reading gives a code (a reading that raises an
    [Exception] or is answered with another status than 200 counts as
    giving none) and the waits return, the 2FA wait returns None after
    exactly 6 readings, each followed by a wait of 30 seconds, and ends with
    the deletion of the gist. *)
Theorem wait_times_out (token gist_url : str) :
  truthy token = true ->
  truthy gist_url = true ->
  world 0 CreateGist = Replies (created gist_id gist_url) ->
  returns (world 1 (SendNotification gist_url)) = true ->
  let run := _wait_for_2fa_code world (start token) in
  fst run = Ok None
  /\ trace (snd run)
     = CreateGist :: SendNotification gist_url
       :: polling_rounds gist_id 6 ++ [DeleteGist gist_id].
Proof.
  intros Ht Hu Hc Hn. cbv zeta.
  assert (exists st',
            _wait_for_2fa_code world (start token) = (Ok None, st')
            /\ trace st'
               = CreateGist :: SendNotification gist_url
                 :: polling_rounds gist_id 6 ++ [DeleteGist gist_id])
    as (st' & Hrun & Htr).
  { unfold _wait_for_2fa_code, try_except, bind at 1.
    rewrite (create_run world gist_id token gist_url Ht Hc), Hu.
    unfold bind at 1. unfold perform at 1. cbn [trace List.length].
    destruct (world 1 (SendNotification gist_url)) as [rp|e];
      [|discriminate].
    set (st2 := {| github_token := token; current_gist_id := Some gist_id;
                   trace := [CreateGist] ++ [SendNotification gist_url] |}).
    destruct (poll_rounds_timeout max_attempts st2) as (st3 & Hres & Htr);
      [split; [exact Ht|reflexivity]|].
    exists st3. split; [|exact Htr].
    cbn [github_token current_gist_id]. fold st2. now rewrite Hres. }
  rewrite Hrun. split; [reflexivity|exact Htr].
Qed.

End ChannelTimeout.

Lemma waited_code_has_six_digits_witness :
  exists code st',
    Verification._wait_for_2fa_code answering_world
      (Verification.start (u "ghp_token"))
    = (Verification.Ok (Some code), st')
    /\ List.length code = 6.
Proof.
  destruct (Verification._wait_for_2fa_code answering_world
              (Verification.start (u "ghp_token"))) as [r st'] eqn:Hrun.
  assert (r = Verification.Ok (Some (u "654321"))) as ->.
  { vm_compute in Hrun. now injection Hrun as <- _. }
  exists (u "654321"), st'. split; [reflexivity|].
  apply (waited_code_has_six_digits answering_world _ _ _ Hrun).
Defined.

Lemma failed_creation_ends_wait_witness :
  fst (Verification._wait_for_2fa_code refusing_world
         (Verification.start (u "ghp_token"))) = Verification.Ok None
  /\ fst (Verification._wait_for_2fa_code answering_world
            (Verification.start [])) = Verification.Ok None.
Proof.
  split.
  - apply (failed_creation_ends_wait refusing_world (u "ghp_token")).
    right. reflexivity.
  - apply (failed_creation_ends_wait answering_world []).
    left. reflexivity.
Defined.

Lemma wait_times_out_witness :
  fst (Verification._wait_for_2fa_code silent_world
         (Verification.start (u "ghp_token"))) = Verification.Ok None
  /\ List.length
       (Verification.trace
          (snd (Verification._wait_for_2fa_code silent_world
                  (Verification.start (u "ghp_token"))))) = 15.
Proof.
  destruct (wait_times_out silent_world (u "a1b2c3") eq_refl
              (fun _ => eq_refl) (fun _ => eq_refl) (fun _ => eq_refl)
              (u "ghp_token") (u "https://gist.github.com/a1b2c3")
              eq_refl eq_refl eq_refl eq_refl) as [Hres Htr].
  split; [exact Hres|]. rewrite Htr. reflexivity.
Defined.

(** ** SessionManager: when the code is accepted *)

Section SessionMore.

Import Session SessionSpec.

Lemma enter_digits_spec (d : driver) (ids : list str) (code : str) :
  forall i,
    enter_digits d ids code i = true
    <-> forall j, j < List.length code ->
          exists field_id,
            nth_error ids (i + j) = Some field_id
            /\ accepts d (i + j) field_id = true.
Proof.
  induction code as [|digit rest IH]; intros i; cbn [enter_digits List.length].
  - split; [intros _ j Hj; lia|reflexivity].
  - destruct (nth_error ids i) as [field_id|] eqn:N.
    + destruct (accepts d i field_id) eqn:Acc.
      * rewrite IH. split.
        -- intros H [|j] Hj.
           ++ exists field_id. rewrite Nat.add_0_r. auto.
           ++ destruct (H j) as (f & Hn & Ha); [lia|].
              exists f. now rewrite <- Nat.add_succ_comm.
        -- intros H j Hj. destruct (H (S j)) as (f & Hn & Ha); [lia|].
           exists f. now rewrite Nat.add_succ_comm.
      * split; [discriminate|]. intros H.
        destruct (H 0) as (f & Hn & Ha); [lia|].
        rewrite Nat.add_0_r in Hn, Ha. congruence.
    + split; [discriminate|]. intros H.
      destruct (H 0) as (f & Hn & Ha); [lia|].
      rewrite Nat.add_0_r in Hn. congruence.
Qed.

(** X14: [_enter_2fa_code] returns True exactly when the code has six
    characters and, for each position, the list of input identifiers (the
    sorted visible inputs, or the fallback list) has a field at that
    position which takes the digit.  In particular a code of another length
    and a page with fewer than six visible inputs give False. *)
Theorem enter_2fa_code_spec (d : driver) (code : str) :
  (_enter_2fa_code d code = true
   <-> List.length code = 6
       /\ forall i, i < 6 ->
            exists field_id,
              nth_error (input_ids d) i = Some field_id
              /\ accepts d i field_id = true)
  /\ (List.length code <> 6 -> _enter_2fa_code d code = false)
  /\ (List.length (input_ids d) < 6 -> _enter_2fa_code d code = false).
Proof.
  assert (_enter_2fa_code d code = true
          <-> List.length code = 6
              /\ forall i, i < 6 ->
                   exists field_id,
                     nth_error (input_ids d) i = Some field_id
                     /\ accepts d i field_id = true) as Hiff.
  { unfold _enter_2fa_code. fold (input_ids d).
    destruct (Nat.eqb_spec (List.length code) 6) as [Hlen|Hlen]; cbn [negb].
    - destruct (enter_digits d (input_ids d) code 0) eqn:E.
      + pose proof (proj1 (enter_digits_spec d (input_ids d) code 0) E) as E'.
        rewrite Hlen in E'. cbn [Nat.add] in E'.
        split; [intros _; split; [exact Hlen|exact E']|].
        intros _. destruct (url_after d) as [current_url|]; [|reflexivity].
        destruct (negb (contains (u "/login/") current_url)); reflexivity.
      + split; [discriminate|]. intros [_ H].
        assert (enter_digits d (input_ids d) code 0 = true) as E'
            by (apply (proj2 (enter_digits_spec d (input_ids d) code 0));
                now rewrite Hlen).
        congruence.
    - split; [discriminate|]. intros [H _]. contradiction. }
  split; [exact Hiff|]. split.
  - intros Hlen. destruct (_enter_2fa_code d code); [|reflexivity].
    destruct (proj1 Hiff eq_refl) as [H _]. contradiction.
  - intros Hids. destruct (_enter_2fa_code d code); [|reflexivity].
    destruct (proj1 Hiff eq_refl) as [_ H].
    destruct (H 5) as (f & Hn & _); [lia|].
    assert (nth_error (input_ids d) 5 <> None) as Hsome by congruence.
    apply nth_error_Some in Hsome. lia.
Qed.

Lemma enter_2fa_code_spec_witness :
  _enter_2fa_code stuck_driver (u "12345") = false
  /\ _enter_2fa_code
       {| find_inputs := Some [(u "_rd_", true); (u "_re_", false)];
          accepts := fun _ _ => true; url_after := None |}
       (u "654321") = false.
Proof.
  split.
  - destruct (enter_2fa_code_spec stuck_driver (u "12345")) as (_ & Hlen & _).
    apply Hlen. intros H. vm_compute in H. discriminate.
  - match goal with
    | |- _enter_2fa_code ?d ?c = false =>
        destruct (enter_2fa_code_spec d c) as (_ & _ & Hids)
    end.
    apply Hids. vm_compute. lia.
Defined.

Lemma manual_wait_spec (urls : nat -> str) :
  forall remaining n,
    (exists k,
       n <= k < n + remaining
       /\ (forall j, n <= j < k -> on_login urls j = true)
       /\ on_login urls k = false
       /\ manual_wait urls remaining n = S k)
    \/ ((forall j, n <= j < n + remaining -> on_login urls j = true)
        /\ manual_wait urls remaining n = n + remaining).
Proof.
  induction remaining as [|remaining IH]; intros n; cbn [manual_wait].
  - right. split; [intros j Hj; lia|lia].
  - fold (on_login urls n). destruct (on_login urls n) eqn:L; cbn [negb].
    + destruct (IH (S n)) as [(k & Hk & Hb & Hl & Hw)|[Hall Hw]].
      * left. exists k. split; [lia|]. split; [|auto].
        intros j Hj. destruct (Nat.eq_dec j n) as [->|Hne]; [exact L|].
        apply Hb. lia.
      * right. split; [|lia].
        intros j Hj. destruct (Nat.eq_dec j n) as [->|Hne]; [exact L|].
        apply Hall. lia.
    + left. exists n. split; [lia|]. split; [intros j Hj; lia|auto].
Qed.

(** X15: the manual 2FA branch reads the location at most 61 times, once
    per second for up to 60 seconds and once more for the final check.  It
    goes on to the scan exactly when the first reading that is off the
    login page comes among the first 60 and the reading after it is off the
    login page too, or when all 60 readings are on the login page and the
    61st is not; a browser that stays on a login page ends the run. *)
Theorem manual_2fa_spec (urls : nat -> str) :
  (manual_2fa urls = Proceed
   <-> (exists k,
          k < 60
          /\ (forall j, j < k -> on_login urls j = true)
          /\ on_login urls k = false
          /\ on_login urls (S k) = false)
       \/ ((forall j, j < 60 -> on_login urls j = true)
           /\ on_login urls 60 = false))
  /\ manual_wait urls 60 0 <= 60
  /\ ((forall j, j <= 60 -> on_login urls j = true) ->
      manual_2fa urls = ReturnFalse).
Proof.
  assert (manual_2fa urls = Proceed
          <-> on_login urls (manual_wait urls 60 0) = false) as Hfinal.
  { unfold manual_2fa. fold (on_login urls (manual_wait urls 60 0)).
    destruct (on_login urls (manual_wait urls 60 0));
      split; congruence. }
  destruct (manual_wait_spec urls 60 0)
    as [(k & Hk & Hb & Hl & Hw)|[Hall Hw]].
  - split; [|split].
    + rewrite Hfinal, Hw. split.
      * intros H. left. exists k. split; [lia|]. split; [|auto].
        intros j Hj. apply Hb. lia.
      * intros [(k' & Hk' & Hb' & Hl' & Hn')|[Hall' _]].
        -- destruct (Nat.lt_trichotomy k k') as [Hlt|[->|Hgt]].
           ++ rewrite (Hb' k Hlt) in Hl. discriminate.
           ++ exact Hn'.
           ++ rewrite (Hb k') in Hl'; [discriminate|lia].
        -- rewrite (Hall' k) in Hl; [discriminate|lia].
    + lia.
    + intros Hstay. rewrite (Hstay k) in Hl; [discriminate|lia].
  - split; [|split].
    + rewrite Hfinal, Hw. cbn [Nat.add]. split.
      * intros H. right. split; [|exact H].
        intros j Hj. apply Hall. lia.
      * intros [(k' & Hk' & _ & Hl' & _)|[_ H]]; [|exact H].
        rewrite (Hall k') in Hl'; [discriminate|lia].
    + lia.
    + intros Hstay.
      destruct (manual_2fa urls); [reflexivity|].
      pose proof (proj1 Hfinal eq_refl) as E.
      rewrite Hw in E. cbn [Nat.add] in E.
      rewrite (Hstay 60) in E; [discriminate|lia].
Qed.

Lemma manual_2fa_spec_witness :
  manual_2fa (fun _ => u "https://nextdoor.com/login/?ucl=1") = ReturnFalse.
Proof.
  apply manual_2fa_spec. intros j _. reflexivity.
Defined.

End SessionMore.

(** ** ScanOrchestrator: results and messages of a run *)

Section OrchestratorMore.

Import Orchestrator Harvester OrchestratorSpec.

(** What [classify] returns, after [filter_posts_in_place_spec]. *)
Lemma classify_spec (e : run_env) (unique_posts : list post) :
  exists w',
    Classifier.filter_posts_in_place (remote e) (parse e) (classifier e)
      unique_posts
    = Some (fst (classify e unique_posts), snd (classify e unique_posts), w')
    /\ Classifier.filter_posts (remote e) (parse e) (classifier e)
         unique_posts
       = Some (fst (classify e unique_posts), w')
    /\ Forall2 analysed unique_posts (snd (classify e unique_posts))
    /\ Subseq (fst (classify e unique_posts))
         (snd (classify e unique_posts)).
Proof.
  unfold classify.
  destruct (filter_posts_in_place_spec (remote e) (parse e) unique_posts
              (classifier e))
    as (rel & posts' & w' & -> & Hf & Hall & Hsub).
  exists w'. cbn [fst snd]. auto.
Qed.

Lemma scan_cases (e : run_env) :
  (_search_for_term e = false /\ scan e = (true, []))
  \/ (_search_for_term e = true /\ harvest e = Raised
      /\ scan e = (false, []))
  \/ (_search_for_term e = true /\ harvest e = Returned []
      /\ scan e = (true, [ZeroPostsAlert (today_term e)]))
  \/ (_search_for_term e = true
      /\ (exists p posts, harvest e = Returned (p :: posts))
      /\ scan e
         = if nonempty (relevant_of e) then
             if report_raises e then (false, [])
             else (true, [EmailReport (relevant_of e) (analysed_of e)])
           else (true, [])).
Proof.
  unfold scan, report_raises, relevant_of, analysed_of, scanned_posts.
  destruct (_search_for_term e); [|now left].
  right. destruct (harvest e) as [[|p posts]|]; [right; left|right; right|left];
    try (split; [reflexivity|]; split; reflexivity).
  split; [reflexivity|]. split; [now exists p, posts|].
  cbn [nonempty map Extractor.remove_duplicates app].
  rewrite !mem_nil. cbn [nonempty].
  match goal with
  | |- context [classify e ?l] => destruct (classify e l) as [rel left_posts]
  end.
  cbn [fst snd]. destruct (nonempty rel); [|reflexivity].
  destruct (Report.generate_report _ _ rel); reflexivity.
Qed.

Lemma notices_of_are_notices (t : list Verification.call) :
  forallb is_notice (notices_of t) = true.
Proof.
  induction t as [|c t IH]; [reflexivity|].
  destruct c; cbn; exact IH.
Qed.

Lemma authenticate_notices (e : run_env) :
  forallb is_notice (notices_in (authenticate e)) = true.
Proof.
  unfold authenticate.
  destruct (form e) as [| |[|]]; try reflexivity.
  destruct (is_github_actions e && truthy (token e)).
  - destruct (Verification._wait_for_2fa_code _ _) as [[code|[msg|]] st];
      [destruct (Session.automated_2fa _ _)| |];
      apply notices_of_are_notices.
  - destruct (Session.manual_2fa _); reflexivity.
Qed.

(** The messages of a run: those of the authentication, then those of the
    scan when the run gets that far. *)
Lemma run_scan_messages (e : run_env) :
  snd (run_scan e)
  = if setup_ok e then
      notices_in (authenticate e)
      ++ (if is_authenticated (authenticate e) then snd (scan e) else [])
    else [].
Proof.
  unfold run_scan. destruct (setup_ok e); [|reflexivity]. cbn [negb].
  destruct (authenticate e) as [n|n|n]; cbn [notices_in is_authenticated snd];
    try (now rewrite app_nil_r).
  destruct (scan e). reflexivity.
Qed.



Example null_service_type_fails_run :
  fst (classify null_service_run (scanned_posts null_service_run))
  = [Classifier.with_analysis lost_cat null_service_verdict]
  /\ run_scan null_service_run = (false, []).
Proof. vm_compute. split; reflexivity. Qed.

Lemma in_notices (m : sent) (l : list sent) :
  forallb is_notice l = true -> In m l -> is_notice m = true.
Proof.
  intros H Hin. rewrite forallb_forall in H. now apply H.
Qed.

Lemma analysed_text (p q : post) :
  analysed p q ->
  text q = text p /\ search_term q = search_term p
  /\ Extractor.text_key q = Extractor.text_key p.
Proof. intros [->|(v & _ & ->)]; repeat split; reflexivity. Qed.

Lemma analysed_map {B : Type} (f : post -> B) (posts posts' : list post) :
  (forall p q, analysed p q -> f q = f p) ->
  Forall2 analysed posts posts' -> map f posts' = map f posts.
Proof.
  intros Hf. induction 1 as [|p q l l' Hpq _ IH]; [reflexivity|].
  cbn [map]. now rewrite (Hf p q Hpq), IH.
Qed.

(** X17: a report is sent at most once in a run, and only for posts:
    the run was set up and authenticated, the search worked and the harvest
    returned.  The relevant posts are what [filter_posts] returns for the
    posts of the harvest, tagged with today's term, after the duplicate
    filter; they are not empty and [generate_report] returns for them.  The
    posts attached are those posts as [filter_posts] leaves them, each
    untouched or with the relevant analysis written into it, and the
    relevant posts are among them; their keys [text[:50].lower().strip()]
    are pairwise distinct and each carries today's search term. *)
Theorem report_is_sent_for_posts (e : run_env)
    (relevant_posts all_posts : list post) :
  In (EmailReport relevant_posts all_posts) (snd (run_scan e)) ->
  setup_ok e = true
  /\ is_authenticated (authenticate e) = true
  /\ _search_for_term e = true
  /\ (exists posts w',
        harvest e = Returned posts
        /\ Classifier.filter_posts (remote e) (parse e) (classifier e)
             (Extractor.remove_duplicates
                (map (tag (today_term e)) posts) [])
           = Some (relevant_posts, w')
        /\ Forall2 analysed
             (Extractor.remove_duplicates
                (map (tag (today_term e)) posts) [])
             all_posts)
  /\ relevant_posts <> []
  /\ Subseq relevant_posts all_posts
  /\ (exists body,
        Report.generate_report (day_of_week e) (generated e) relevant_posts
        = Returned body)
  /\ NoDup (map Extractor.text_key all_posts)
  /\ (forall p, In p all_posts -> search_term p = today_term e)
  /\ List.length (filter is_report (snd (run_scan e))) = 1.
Proof.
  rewrite run_scan_messages.
  destruct (setup_ok e); [|intros []].
  pose proof (authenticate_notices e) as Hn.
  intros Hin. apply in_app_or in Hin as [Hin|Hin].
  { apply (in_notices _ _ Hn) in Hin. discriminate. }
  destruct (is_authenticated (authenticate e)); [|destruct Hin].
  assert (filter is_report (notices_in (authenticate e)) = []) as Hnone.
  { induction (notices_in (authenticate e)) as [|m l IH]; [reflexivity|].
    cbn [forallb] in Hn. apply andb_true_iff in Hn as [Hm Hl].
    cbn [filter]. destruct m; try discriminate. now apply IH. }
  rewrite filter_app, Hnone. cbn [app].
  destruct (scan_cases e)
    as [[Hs Hsc]|[(Hs & Hh & Hsc)|[(Hs & Hh & Hsc)|(Hs & (p & ps & Hh) & Hsc)]]];
    rewrite Hsc in *; cbn [snd] in *;
    try (destruct Hin as [Hin|[]]; discriminate); try (now destruct Hin).
  assert (scanned_posts e
          = Extractor.remove_duplicates
              (map (tag (today_term e)) (p :: ps)) []) as Hall
      by (unfold scanned_posts; now rewrite Hh).
  destruct (classify_spec e (scanned_posts e))
    as (w' & _ & Hfilter & Hleft & Hsub).
  fold (relevant_of e) in Hfilter, Hsub.
  fold (analysed_of e) in Hleft, Hsub.
  assert (exists body,
            report_raises e = false ->
            Report.generate_report (day_of_week e) (generated e)
              (relevant_of e) = Returned body) as (body & Hbody).
  { unfold report_raises.
    destruct (Report.generate_report _ _ (relevant_of e)) as [body|].
    - now exists body.
    - exists []. discriminate. }
  destruct (nonempty (relevant_of e)) eqn:Ne; [|destruct Hin].
  destruct (report_raises e); [destruct Hin|].
  cbn [snd] in Hin. destruct Hin as [[= <- <-]|[]].
  rewrite Hall in Hfilter, Hleft.
  split; [reflexivity|]. split; [reflexivity|]. split; [exact Hs|].
  split; [exists (p :: ps), w'; auto|].
  split; [intros H; rewrite H in Ne; discriminate|].
  split; [exact Hsub|].
  split; [exists body; now apply Hbody|].
  split.
  { rewrite (analysed_map Extractor.text_key _ _
               (fun p q H => proj2 (proj2 (analysed_text p q H))) Hleft).
    apply remove_duplicates_NoDup. }
  split; [|reflexivity].
  intros q Hq.
  assert (In (search_term q) (map search_term (analysed_of e))) as Hterm
      by now apply in_map.
  rewrite (analysed_map search_term _ _
             (fun p q H => proj1 (proj2 (analysed_text p q H))) Hleft)
    in Hterm.
  apply in_map_iff in Hterm as (q0 & <- & Hq0).
  apply (Subseq_In (remove_duplicates_Subseq _ _)) in Hq0.
  apply in_map_iff in Hq0 as (q1 & <- & _). reflexivity.
Qed.

Lemma report_is_sent_for_posts_witness :
  exists relevant_posts all_posts,
    In (EmailReport relevant_posts all_posts) (snd (run_scan reporting_run))
    /\ List.length all_posts = 2
    /\ map analysis all_posts = [Some pool_verdict; Some pool_verdict]
    /\ NoDup (map Extractor.text_key all_posts).
Proof.
  assert (exists all_posts,
            In (EmailReport all_posts all_posts)
              (snd (run_scan reporting_run))
            /\ List.length all_posts = 2
            /\ map analysis all_posts
               = [Some pool_verdict; Some pool_verdict])
    as (all_posts & Hin & Hlen & Han).
  { eexists. split; [vm_compute; left; reflexivity|split; reflexivity]. }
  exists all_posts, all_posts. split; [exact Hin|]. split; [exact Hlen|].
  split; [exact Han|].
  apply (report_is_sent_for_posts reporting_run all_posts all_posts Hin).
Defined.

(** X18: the zero-posts alert is sent exactly when the run was set up and
    authenticated, the search worked and the harvest returned no post at
    all; it names today's term, and no report is sent in that run. *)
Theorem zero_posts_alert_exactly_when (e : run_env) (term : str) :
  (In (ZeroPostsAlert term) (snd (run_scan e))
   <-> setup_ok e = true
       /\ is_authenticated (authenticate e) = true
       /\ _search_for_term e = true
       /\ harvest e = Returned []
       /\ term = today_term e)
  /\ (In (ZeroPostsAlert term) (snd (run_scan e)) ->
      filter is_report (snd (run_scan e)) = []).
Proof.
  rewrite run_scan_messages.
  destruct (setup_ok e).
  2:{ split; [split; [intros []|intros [H _]; discriminate]|intros []]. }
  pose proof (authenticate_notices e) as Hn.
  assert (filter is_report (notices_in (authenticate e)) = []) as Hnone.
  { induction (notices_in (authenticate e)) as [|m l IH]; [reflexivity|].
    cbn [forallb] in Hn. apply andb_true_iff in Hn as [Hm Hl].
    cbn [filter]. destruct m; try discriminate. now apply IH. }
  assert (In (ZeroPostsAlert term) (notices_in (authenticate e)) -> False)
    as Hnot.
  { intros Hin. apply (in_notices _ _ Hn) in Hin. discriminate. }
  rewrite filter_app, Hnone. cbn [app].
  destruct (is_authenticated (authenticate e)).
  2:{ rewrite app_nil_r. split; [split|]; try tauto.
      intros (_ & H & _). discriminate. }
  destruct (scan_cases e)
    as [[Hs Hsc]|[(Hs & Hh & Hsc)|[(Hs & Hh & Hsc)|(Hs & (p & ps & Hh) & Hsc)]]];
    rewrite Hsc; cbn [snd]; rewrite Hs, Hh || rewrite Hs.
  - rewrite app_nil_r. split; [split|]; try tauto.
    intros (_ & _ & H & _). discriminate.
  - rewrite app_nil_r. split; [split|]; try tauto.
    intros (_ & _ & _ & H & _). discriminate.
  - split; [split|].
    + intros Hin. apply in_app_or in Hin as [Hin|[[= <-]|[]]]; [tauto|].
      auto.
    + intros (_ & _ & _ & _ & ->). apply in_or_app. right. now left.
    + reflexivity.
  - match goal with
    | |- context [snd ?sc] =>
        assert (forall m, In m (snd sc) -> is_report m = true) as Honly
    end.
    { intros m. destruct (nonempty _); [destruct (report_raises e)|];
        cbn [snd]; intros Hm;
        [destruct Hm|destruct Hm as [<-|[]]; reflexivity|destruct Hm]. }
    split; [split|].
    + intros Hin. apply in_app_or in Hin as [Hin|Hin]; [tauto|].
      apply Honly in Hin. discriminate.
    + intros (_ & _ & _ & H & _). discriminate.
    + intros Hin. apply in_app_or in Hin as [Hin|Hin]; [tauto|].
      apply Honly in Hin. discriminate.
Qed.

End OrchestratorMore.

(** ** Report: the order of the entries *)

Section SortMore.

Context {A : Type} (key : A -> str).

Lemma leb_antisym (a b : str) :
  leb a b = true -> leb b a = true -> a = b.
Proof.
  revert b; induction a as [|x a IH]; intros [|y b]; cbn;
    try discriminate; try reflexivity.
  destruct (N.ltb_spec x y), (N.ltb_spec y x); try discriminate; try lia.
  intros H1 H2. assert (x = y) as -> by lia. f_equal. now apply IH.
Qed.

(** Among the elements with a given key the sort keeps the input order. *)
Lemma insert_filter (k : str) (x : A) (l : list A) :
  filter (fun y => eqb (key y) k) (PySort.insert key x l)
  = filter (fun y => eqb (key y) k) (x :: l).
Proof.
  induction l as [|y l IH]; [reflexivity|].
  cbn [PySort.insert]. destruct (leb (key x) (key y)) eqn:L; [reflexivity|].
  cbn [filter] in *. rewrite IH.
  destruct (eqb (key x) k) eqn:Ex; [|reflexivity].
  destruct (eqb (key y) k) eqn:Ey; [|reflexivity].
  apply eqb_eq in Ex, Ey. rewrite Ex, Ey, leb_refl in L. discriminate.
Qed.

Lemma sorted_filter (k : str) (l : list A) :
  filter (fun y => eqb (key y) k) (PySort.sorted key l)
  = filter (fun y => eqb (key y) k) l.
Proof.
  induction l as [|x l IH]; [reflexivity|].
  cbn [PySort.sorted fold_right]. fold (PySort.sorted key l).
  rewrite insert_filter. cbn [filter]. now rewrite IH.
Qed.

Lemma key_injective_on (l : list A) (x y : A) :
  NoDup (map key l) -> In x l -> In y l -> key x = key y -> x = y.
Proof.
  induction l as [|z l IH]; cbn [map In]; [intros _ []|].
  intros Hnd Hx Hy Hk. inversion Hnd as [|? ? Hz Hl]; subst.
  destruct Hx as [->|Hx], Hy as [->|Hy]; auto.
  - exfalso. apply Hz. rewrite Hk. now apply in_map.
  - exfalso. apply Hz. rewrite <- Hk. now apply in_map.
Qed.

(** Two sorted lists with the same elements and pairwise distinct keys are
    equal. *)
Lemma sorted_unique (l1 l2 : list A) :
  StronglySorted (PySort.key_le key) l1 ->
  StronglySorted (PySort.key_le key) l2 ->
  Permutation l1 l2 ->
  NoDup (map key l1) ->
  l1 = l2.
Proof.
  revert l2. induction l1 as [|x1 l1 IH]; intros l2 H1 H2 Hp Hnd.
  - apply Permutation_nil in Hp. now subst.
  - destruct l2 as [|x2 l2];
      [apply Permutation_sym, Permutation_nil in Hp; discriminate|].
    inversion H1 as [|? ? Hs1 Hall1]; subst.
    inversion H2 as [|? ? Hs2 Hall2]; subst.
    rewrite Forall_forall in Hall1, Hall2.
    assert (x1 = x2) as ->.
    { assert (In x1 (x2 :: l2)) as Hin1
          by (apply (Permutation_in _ Hp); now left).
      assert (In x2 (x1 :: l1)) as Hin2
          by (apply (Permutation_in _ (Permutation_sym Hp)); now left).
      destruct Hin1 as [->|Hin1]; [reflexivity|].
      destruct Hin2 as [->|Hin2]; [reflexivity|].
      apply (key_injective_on (x1 :: l1)); auto; [now left|now right|].
      apply leb_antisym; [apply (Hall1 _ Hin2)|apply (Hall2 _ Hin1)]. }
    f_equal. apply IH; auto.
    + now apply Permutation_cons_inv in Hp.
    + now inversion Hnd.
Qed.

End SortMore.

Section ReportMore.

Import Report.

(** X19: the sort of the report is stable: the posts of one author appear
    in the report in the order of the input. *)
Theorem report_keeps_order_within_author (name : str)
    (relevant_posts : list post) :
  filter (fun p => eqb (author p) name) (sorted_posts relevant_posts)
  = filter (fun p => eqb (author p) name) relevant_posts.
Proof. apply sorted_filter. Qed.

(** X20: for posts with pairwise distinct authors the report does not
    depend on the order in which the posts come in: two lists with the same
    posts are listed in the same order and, with the same search term on
    their first posts, give the same report. *)
Theorem report_is_order_independent (day_of_week generated : str)
    (posts1 posts2 : list post) :
  Permutation posts1 posts2 ->
  NoDup (map author posts1) ->
  sorted_posts posts1 = sorted_posts posts2
  /\ (option_map search_term (hd_error posts1)
      = option_map search_term (hd_error posts2) ->
      generate_report day_of_week generated posts1
      = generate_report day_of_week generated posts2).
Proof.
  intros Hp Hnd.
  assert (sorted_posts posts1 = sorted_posts posts2) as Hs.
  { apply (sorted_unique author).
    - apply sorted_StronglySorted.
    - apply sorted_StronglySorted.
    - unfold sorted_posts.
      rewrite (sorted_permutation author posts1),
        (sorted_permutation author posts2). exact Hp.
    - unfold sorted_posts.
      apply (Permutation_NoDup (l := map author posts1)); [|exact Hnd].
      apply Permutation_map. symmetry. apply sorted_permutation. }
  split; [exact Hs|].
  unfold generate_report. rewrite Hs.
  destruct posts1 as [|p1 l1], posts2 as [|p2 l2]; cbn [hd_error option_map].
  - reflexivity.
  - apply Permutation_nil in Hp. discriminate.
  - apply Permutation_sym, Permutation_nil in Hp. discriminate.
  - intros [= ->]. reflexivity.
Qed.

Lemma report_is_order_independent_witness :
  generate_report (u "Monday") (u "2025-01-06 09:00:00")
    [maria_post; adam_post; jo_post]
  = generate_report (u "Monday") (u "2025-01-06 09:00:00")
      [jo_post; maria_post; adam_post].
Proof.
  apply (report_is_order_independent (u "Monday") (u "2025-01-06 09:00:00")
           [maria_post; adam_post; jo_post] [jo_post; maria_post; adam_post]).
  - apply Permutation_sym.
    apply (Permutation_cons_app [maria_post; adam_post] []).
    rewrite app_nil_r. apply Permutation_refl.
  - repeat constructor; cbn; intros H;
      repeat (destruct H as [H|H]; [discriminate H|]); exact H.
  - reflexivity.
Defined.

End ReportMore.

(** ** ScanOrchestrator: how much a run sends *)

Section RunMessages.

Import Orchestrator OrchestratorSpec.

Lemma notices_of_length (t : list Verification.call) :
  List.length (notices_of t) = ChannelSpec.count ChannelSpec.is_notification t.
Proof.
  unfold ChannelSpec.count, notices_of.
  induction t as [|c t IH]; [reflexivity|].
  cbn [flat_map filter].
  destruct c; cbn [ChannelSpec.is_notification app List.length];
    rewrite ?IH; reflexivity.
Qed.

Lemma authenticate_sends_little (e : run_env) :
  List.length (notices_in (authenticate e)) <= 1
  /\ (notices_in (authenticate e) <> [] ->
      form e = Submitted true
      /\ is_github_actions e = true /\ truthy (token e) = true).
Proof.
  assert (forall l : list sent, l = [] ->
            List.length l <= 1
            /\ (l <> [] ->
                form e = Submitted true
                /\ is_github_actions e = true /\ truthy (token e) = true))
    as Hnil.
  { intros l ->. split; [cbn; lia|intros H; now destruct H]. }
  unfold authenticate.
  destruct (form e) as [| |[|]] eqn:F; try (now apply Hnil).
  destruct (is_github_actions e) eqn:G, (truthy (token e)) eqn:T;
    cbn [andb];
    try (destruct (Session.manual_2fa _); now apply Hnil).
  destruct (wait_within (gist_world e) (token e)) as ((_ & Hs & _) & _).
  cbv zeta in Hs. rewrite <- notices_of_length in Hs.
  destruct (Verification._wait_for_2fa_code _ _) as [[code|[msg|]] st];
    [destruct (Session.automated_2fa _ _)| |];
    cbn [notices_in snd] in *; (split; [exact Hs|auto]).
Qed.

(** X21: a run sends at most two messages: at most one 2FA notification,
    which goes out only in GitHub Actions mode with a token after a login
    that met the 2FA challenge, followed by at most one message of the scan,
    the zero-posts alert or the report. *)
Theorem run_sends_at_most_two (e : run_env) :
  List.length (snd (run_scan e)) <= 2
  /\ List.length (filter is_notice (snd (run_scan e))) <= 1
  /\ List.length (filter (fun m => negb (is_notice m)) (snd (run_scan e)))
     <= 1
  /\ (filter is_notice (snd (run_scan e)) <> [] ->
      form e = Submitted true
      /\ is_github_actions e = true /\ truthy (token e) = true).
Proof.
  rewrite run_scan_messages.
  destruct (setup_ok e).
  2:{ cbn [filter List.length]. split; [lia|]. split; [lia|]. split; [lia|].
      intros Hne. now destruct Hne. }
  destruct (authenticate_sends_little e) as [Hlen Hwhy].
  pose proof (authenticate_notices e) as Hn.
  set (notices := notices_in (authenticate e)) in *.
  assert (filter is_notice notices = notices) as Hkeep.
  { clearbody notices. clear Hlen Hwhy.
    induction notices as [|m l IH]; [reflexivity|].
    cbn [forallb] in Hn. apply andb_true_iff in Hn as [Hm Hl].
    cbn [filter]. rewrite Hm. f_equal. now apply IH. }
  assert (filter (fun m => negb (is_notice m)) notices = []) as Hdrop.
  { clearbody notices. clear Hlen Hwhy Hkeep.
    induction notices as [|m l IH]; [reflexivity|].
    cbn [forallb] in Hn. apply andb_true_iff in Hn as [Hm Hl].
    cbn [filter]. rewrite Hm. cbn [negb]. now apply IH. }
  assert (exists messages,
             (if is_authenticated (authenticate e) then snd (scan e) else [])
             = messages
             /\ List.length messages <= 1
             /\ filter is_notice messages = []) as (messages & -> & Hm & Hf).
  { destruct (is_authenticated (authenticate e));
      [|exists []; repeat split; cbn; lia].
    destruct (scan_cases e)
      as [[_ ->]|[(_ & _ & ->)|[(_ & _ & ->)|(_ & _ & ->)]]];
      cbn [snd]; eexists; (split; [reflexivity|]);
      try (split; [cbn; lia|reflexivity]).
    destruct (nonempty _); [destruct (report_raises e)|];
      split; cbn; try lia; reflexivity. }
  rewrite !filter_app, !length_app, Hkeep, Hdrop, Hf, app_nil_r.
  cbn [app List.length].
  assert (List.length (filter (fun m => negb (is_notice m)) messages)
          <= List.length messages) as Hle by apply filter_length_le.
  split; [lia|]. split; [lia|]. split; [lia|]. exact Hwhy.
Qed.

End RunMessages.

(** ** Strings: occurrences and splitting *)

Lemma startswith_app (p s : str) : startswith p (p ++ s) = true.
Proof.
  induction p as [|c p IH]; [reflexivity|].
  cbn. now rewrite N.eqb_refl.
Qed.

Lemma startswith_length (p s : str) :
  startswith p s = true -> List.length p <= List.length s.
Proof.
  revert s. induction p as [|c p IH]; intros [|y s]; cbn; try lia;
    try discriminate.
  intros H. apply andb_true_iff in H as [_ H]. apply IH in H. lia.
Qed.

Lemma find_cons (sep : str) (c : char) (s : str) :
  find sep (c :: s)
  = if startswith sep (c :: s) then Some 0 else option_map S (find sep s).
Proof. reflexivity. Qed.

Lemma find_nil (sep : str) :
  find sep [] = if startswith sep [] then Some 0 else None.
Proof. reflexivity. Qed.

Lemma find_here (sep rest : str) : find sep (sep ++ rest) = Some 0.
Proof.
  destruct (sep ++ rest) as [|c s] eqn:E.
  - rewrite find_nil. rewrite <- E, startswith_app. reflexivity.
  - rewrite find_cons. rewrite <- E, startswith_app. reflexivity.
Qed.

(** An occurrence cannot start inside a part that lacks the first character
    of what is looked for. *)
Lemma find_skip (c : char) (q a rest : str) :
  ~ In c a ->
  find (c :: q) (a ++ rest)
  = option_map (Nat.add (List.length a)) (find (c :: q) rest).
Proof.
  induction a as [|x a IH]; intros Hc.
  - cbn [app List.length]. destruct (find (c :: q) rest); reflexivity.
  - cbn [app]. rewrite find_cons.
    assert ((c =? x)%N = false) as Hx.
    { apply N.eqb_neq. intros ->. apply Hc. now left. }
    cbn [startswith]. rewrite Hx. cbn [andb].
    rewrite IH; [|intros H; apply Hc; now right].
    destruct (find (c :: q) rest); reflexivity.
Qed.

Lemma find_absent (c : char) (q a : str) :
  ~ In c a -> find (c :: q) a = None.
Proof.
  intros Hc. rewrite <- (app_nil_r a), (find_skip c q a [] Hc).
  reflexivity.
Qed.

Lemma split_go_skip (sep : str) :
  forall s k cur,
    k <= List.length s ->
    split_go sep s k cur = split_go sep (from k s) 0 cur.
Proof.
  induction s as [|c s IH]; intros k cur Hk.
  - cbn in Hk. assert (k = 0) as -> by lia. reflexivity.
  - destruct k as [|k]; [reflexivity|].
    cbn [split_go from skipn]. apply IH. cbn in Hk. lia.
Qed.

(** [split] cuts at the first occurrence and goes on behind it. *)
Lemma split_go_find (sep : str) :
  sep <> [] ->
  forall s cur,
    split_go sep s 0 cur
    = match find sep s with
      | None => [rev cur ++ s]
      | Some i =>
          (rev cur ++ upto i s)
            :: split_go sep (from (i + List.length sep) s) 0 []
      end.
Proof.
  intros Hsep. induction s as [|c s IH]; intros cur.
  - rewrite find_nil. destruct sep; [contradiction|].
    cbn [startswith split_go]. now rewrite app_nil_r.
  - rewrite find_cons. cbn [split_go].
    destruct (startswith sep (c :: s)) eqn:E.
    + cbn [upto firstn Nat.add]. rewrite app_nil_r. f_equal.
      apply startswith_length in E. cbn [List.length] in E.
      destruct sep as [|c0 sep]; [contradiction|].
      cbn [List.length from skipn Nat.add Nat.sub] in *.
      rewrite Nat.sub_0_r. apply split_go_skip. lia.
    + rewrite IH. destruct (find sep s) as [i|]; cbn [option_map].
      * cbn [rev upto firstn from skipn Nat.add]. rewrite <- app_assoc.
        reflexivity.
      * cbn [rev]. rewrite <- app_assoc. reflexivity.
Qed.

Lemma split_first (sep s : str) :
  sep <> [] ->
  hd [] (split sep s)
  = match find sep s with Some i => upto i s | None => s end.
Proof.
  intros Hsep. unfold split. rewrite (split_go_find sep Hsep).
  destruct (find sep s); reflexivity.
Qed.

Lemma split_second (sep s : str) :
  sep <> [] ->
  nth 1 (split sep s) []
  = match find sep s with
    | Some i => hd [] (split sep (from (i + List.length sep) s))
    | None => []
    end.
Proof.
  intros Hsep. unfold split. rewrite (split_go_find sep Hsep).
  destruct (find sep s) as [i|]; [|reflexivity].
  cbn [nth]. destruct (split_go sep _ 0 []); reflexivity.
Qed.

(** [x] is a contiguous part of [s]. *)
Lemma part_refl (s : str) : part_of s s.
Proof. exists [], []. now rewrite app_nil_r. Qed.

Lemma part_trans (x y z : str) : part_of x y -> part_of y z -> part_of x z.
Proof.
  intros (a & b & ->) (a' & b' & ->). exists (a' ++ a), (b ++ b').
  now rewrite <- !app_assoc.
Qed.

Lemma part_nil (s : str) : part_of [] s.
Proof. exists [], s. reflexivity. Qed.

Lemma part_upto (n : nat) (s : str) : part_of (upto n s) s.
Proof.
  exists [], (from n s). cbn [app]. symmetry. apply firstn_skipn.
Qed.

Lemma part_from (n : nat) (s : str) : part_of (from n s) s.
Proof.
  exists (upto n s), []. rewrite app_nil_r. symmetry. apply firstn_skipn.
Qed.

Lemma dropwhile_suffix (p : char -> bool) (s : str) :
  exists a, s = a ++ dropwhile p s.
Proof.
  induction s as [|c s [a IH]]; [now exists []|].
  cbn [dropwhile]. destruct (p c).
  - exists (c :: a). cbn [app]. now f_equal.
  - now exists [].
Qed.

Lemma part_strip (s : str) : part_of (strip s) s.
Proof.
  unfold strip, rstrip, lstrip.
  destruct (dropwhile_suffix isspace s) as [a Ha].
  destruct (dropwhile_suffix isspace (rev (dropwhile isspace s))) as [b Hb].
  exists a, (rev b). rewrite Ha at 1. f_equal.
  rewrite <- rev_app_distr, <- Hb. symmetry. apply rev_involutive.
Qed.

Lemma part_split_first (sep s : str) :
  sep <> [] -> part_of (hd [] (split sep s)) s.
Proof.
  intros Hsep. rewrite (split_first sep s Hsep).
  destruct (find sep s); [apply part_upto|apply part_refl].
Qed.

Lemma part_split_second (sep s : str) :
  sep <> [] -> part_of (nth 1 (split sep s) []) s.
Proof.
  intros Hsep. rewrite (split_second sep s Hsep).
  destruct (find sep s) as [i|]; [|apply part_nil].
  eapply part_trans; [apply part_split_first, Hsep|apply part_from].
Qed.

(** ** The answer of the model, cleaned *)

Section CleaningFacts.

Import Cleaning.

Lemma find_char_some (c : char) (x : str) (i : nat) :
  find [c] x = Some i -> x = upto i x ++ c :: from (S i) x.
Proof.
  revert i. induction x as [|y x IH]; intros i.
  - rewrite find_nil. discriminate.
  - rewrite find_cons. cbn [startswith]. rewrite andb_true_r.
    destruct (c =? y)%N eqn:E.
    + intros [= <-]. apply N.eqb_eq in E as ->. reflexivity.
    + destruct (find [c] x) as [j|]; [|discriminate].
      intros [= <-]. cbn [upto firstn from skipn app]. f_equal.
      now apply IH.
Qed.

Lemma find_char_first (c : char) (a rest : str) :
  exists i, find [c] (a ++ c :: rest) = Some i /\ i <= List.length a.
Proof.
  induction a as [|y a (i & Hi & Hle)].
  - exists 0. split; [|lia]. apply (find_here [c] rest).
  - cbn [app]. rewrite find_cons. cbn [startswith]. rewrite andb_true_r.
    destruct (c =? y)%N.
    + exists 0. split; [reflexivity|lia].
    + exists (S i). rewrite Hi. split; [reflexivity|cbn; lia].
Qed.

Lemma rfind_char_none (c : char) (x : str) :
  rfind_char c x = None -> ~ In c x.
Proof.
  induction x as [|y x IH]; [intros _ []|].
  cbn [rfind_char]. destruct (rfind_char c x); [discriminate|].
  destruct (y =? c)%N eqn:E; [discriminate|].
  intros _ [->|H]; [now rewrite N.eqb_refl in E|now apply IH].
Qed.

Lemma rfind_char_some (c : char) (x : str) (j : nat) :
  rfind_char c x = Some j -> upto (S j) x = upto j x ++ [c].
Proof.
  revert j. induction x as [|y x IH]; intros j; [discriminate|].
  cbn [rfind_char]. destruct (rfind_char c x) as [k|].
  - intros [= <-]. cbn [upto firstn app]. f_equal. now apply IH.
  - destruct (y =? c)%N eqn:E; [|discriminate].
    intros [= <-]. apply N.eqb_eq in E as ->. reflexivity.
Qed.

Lemma rfind_char_last (c : char) (m r : str) :
  ~ In c r -> rfind_char c (m ++ c :: r) = Some (List.length m).
Proof.
  intros Hr.
  assert (rfind_char c r = None) as Hnone.
  { induction r as [|y r IH]; [reflexivity|].
    cbn [rfind_char]. rewrite IH by (intros H; apply Hr; now right).
    destruct (y =? c)%N eqn:E; [|reflexivity].
    apply N.eqb_eq in E as ->. exfalso. apply Hr. now left. }
  induction m as [|y m IH].
  - cbn [app rfind_char List.length]. now rewrite Hnone, N.eqb_refl.
  - cbn [app rfind_char List.length]. now rewrite IH.
Qed.

(** What the pattern finds starts and ends with a brace and is a part of
    the text. *)
Lemma brace_group_some (x g : str) :
  brace_group x = Some g ->
  (exists m, g = open_brace :: m ++ [close_brace]) /\ part_of g x.
Proof.
  unfold brace_group.
  destruct (find [open_brace] x) as [i|] eqn:Hi; [|discriminate].
  destruct (rfind_char close_brace (from (S i) x)) as [j|] eqn:Hj;
    [|discriminate].
  intros [= <-]. split.
  - exists (upto j (from (S i) x)). f_equal. now apply rfind_char_some.
  - exists (upto i x), (from (S j) (from (S i) x)).
    rewrite (find_char_some _ _ _ Hi) at 1. apply f_equal.
    rewrite <- app_comm_cons. apply f_equal. symmetry.
    exact (firstn_skipn (S j) (from (S i) x)).
Qed.

(** Where the pattern finds nothing there is no opening brace with a
    closing brace behind it. *)
Lemma brace_group_none (x : str) :
  brace_group x = None ->
  forall a b r, x <> a ++ open_brace :: b ++ close_brace :: r.
Proof.
  unfold brace_group. intros H a b r ->.
  destruct (find_char_first open_brace a (b ++ close_brace :: r))
    as (i & Hi & Hle).
  rewrite Hi in H.
  destruct (rfind_char close_brace
              (from (S i) (a ++ open_brace :: b ++ close_brace :: r)))
    eqn:Hj; [discriminate|].
  apply rfind_char_none in Hj. apply Hj.
  unfold from. rewrite skipn_app. apply in_or_app. right.
  destruct (S i - List.length a) as [|[|k]] eqn:Hk; try lia.
  - cbn [skipn]. right. apply in_or_app. right. now left.
  - cbn [skipn]. apply in_or_app. right. now left.
Qed.

Lemma fence_json_nonempty : fence_json <> [].
Proof. discriminate. Qed.

Lemma fence_nonempty : fence <> [].
Proof. discriminate. Qed.

Lemma part_fenced (sep content : str) :
  sep <> [] -> part_of (fenced sep content) content.
Proof.
  intros Hsep. unfold fenced.
  eapply part_trans; [apply part_strip|].
  eapply part_trans; [apply part_split_first, fence_nonempty|].
  now apply part_split_second.
Qed.

(** X22: what [analyze_nextdoor_post] hands to [json.loads] is always a
    contiguous part of the answer of the model: the cleaning only cuts. *)
Theorem cleaned_answer_is_part_of_answer (raw : str) :
  part_of (clean_response raw) raw.
Proof.
  unfold clean_response.
  set (content := if contains fence_json (strip raw)
                  then fenced fence_json (strip raw)
                  else if contains fence (strip raw)
                       then fenced fence (strip raw)
                       else strip raw).
  assert (part_of content raw) as Hc.
  { subst content. apply part_trans with (strip raw); [|apply part_strip].
    destruct (contains fence_json (strip raw));
      [apply part_fenced, fence_json_nonempty|].
    destruct (contains fence (strip raw));
      [apply part_fenced, fence_nonempty|apply part_refl]. }
  destruct (negb (startswith [open_brace] content)); [|exact Hc].
  destruct (brace_group content) as [g|] eqn:Hg; [|exact Hc].
  apply part_trans with content; [|exact Hc].
  now apply (brace_group_some content g).
Qed.

(** X23: what is handed to [json.loads] either starts with an opening
    brace, or has no opening brace with a closing brace anywhere behind
    it. *)
Theorem cleaned_answer_shape (raw : str) :
  (exists m, clean_response raw = open_brace :: m)
  \/ (forall a b r,
        clean_response raw <> a ++ open_brace :: b ++ close_brace :: r).
Proof.
  unfold clean_response.
  set (content := if contains fence_json (strip raw) then _ else _).
  destruct (startswith [open_brace] content) eqn:Hs; cbn [negb].
  - left. destruct content as [|y m]; [discriminate|].
    cbn [startswith] in Hs. rewrite andb_true_r in Hs.
    apply N.eqb_eq in Hs as <-. now exists m.
  - destruct (brace_group content) as [g|] eqn:Hg.
    + left. destruct (brace_group_some content g Hg) as [[m ->] _].
      now exists (m ++ [close_brace]).
    + right. now apply brace_group_none.
Qed.

Lemma fence_json_eq :
  fence_json = backtick :: backtick :: backtick :: u "json".
Proof. reflexivity. Qed.

Lemma fence_eq : fence = [backtick; backtick; backtick].
Proof. reflexivity. Qed.

Lemma from_behind (a b y : str) :
  from (List.length a + List.length b) (a ++ b ++ y) = y.
Proof.
  unfold from. rewrite app_assoc, <- length_app.
  rewrite skipn_app, skipn_all, Nat.sub_diag. reflexivity.
Qed.

Lemma upto_front (a y : str) : upto (List.length a) (a ++ y) = a.
Proof.
  unfold upto. rewrite firstn_app, firstn_all, Nat.sub_diag.
  cbn [firstn]. apply app_nil_r.
Qed.

(** Behind a closing fence that is not followed by a fourth backtick, the
    next [```json] starts either at the fence itself or behind it. *)
Lemma find_fence_json_behind_fence (post : str) :
  hd_error post <> Some backtick ->
  find fence_json (fence ++ post) = Some 0
  \/ find fence_json (fence ++ post)
     = option_map (Nat.add 3) (find fence_json post).
Proof.
  intros Hpost.
  assert (startswith fence_json (backtick :: backtick :: post) = false
          /\ startswith fence_json (backtick :: post) = false) as [H2 H1].
  { rewrite fence_json_eq. destruct post as [|y post]; [now split|].
    cbn [startswith]. rewrite !N.eqb_refl.
    destruct (backtick =? y)%N eqn:E; [|now split].
    apply N.eqb_eq in E as <-. now contradiction Hpost. }
  rewrite fence_eq. cbn [app]. rewrite find_cons.
  destruct (startswith fence_json
              (backtick :: backtick :: backtick :: post));
    [now left|]. right.
  rewrite find_cons, H2, find_cons, H1.
  destruct (find fence_json post); reflexivity.
Qed.

(** The text between a [```json] and the next fence is what the two
    [split]s select. *)
Lemma between_fences (inner post : str) :
  ~ In backtick inner ->
  hd_error post <> Some backtick ->
  hd [] (split fence
           (hd [] (split fence_json (inner ++ fence ++ post))))
  = inner.
Proof.
  intros Hinner Hpost.
  assert (forall z, hd [] (split fence (inner ++ fence ++ z)) = inner)
    as Hcut.
  { intros z. rewrite (split_first _ _ fence_nonempty).
    rewrite fence_eq at 1. rewrite (find_skip _ _ _ _ Hinner).
    rewrite <- fence_eq, find_here. cbn [option_map].
    rewrite Nat.add_0_r. apply upto_front. }
  rewrite (split_first fence_json _ fence_json_nonempty).
  rewrite fence_json_eq at 1. rewrite (find_skip _ _ _ _ Hinner).
  rewrite <- fence_json_eq.
  destruct (find_fence_json_behind_fence post Hpost) as [-> | ->].
  - cbn [option_map]. rewrite Nat.add_0_r, upto_front.
    rewrite (split_first _ _ fence_nonempty), fence_eq.
    now rewrite (find_absent _ _ _ Hinner).
  - destruct (find fence_json post) as [k|]; cbn [option_map];
      [|apply Hcut].
    unfold upto. rewrite firstn_app.
    replace (List.length inner + (3 + k) - List.length inner)
      with (List.length fence + k) by (cbn; lia).
    rewrite firstn_all2 by lia.
    rewrite firstn_app, firstn_all2 by lia.
    replace (List.length fence + k - List.length fence) with k by lia.
    apply Hcut.
Qed.

(** X24: an answer that wraps its object in a [```json] block, the first
    fence of the answer, has the stripped inside of that block handed to
    [json.loads], whatever prose surrounds the block. *)
Theorem fenced_json_is_recovered (raw pre inner post : str) :
  strip raw = pre ++ fence_json ++ inner ++ fence ++ post ->
  ~ In backtick pre ->
  ~ In backtick inner ->
  hd_error post <> Some backtick ->
  startswith [open_brace] (strip inner) = true ->
  clean_response raw = strip inner.
Proof.
  intros Hraw Hpre Hinner Hpost Hbrace.
  unfold clean_response. rewrite Hraw.
  assert (find fence_json (pre ++ fence_json ++ inner ++ fence ++ post)
          = Some (List.length pre + 0)) as Hfind.
  { rewrite fence_json_eq at 1. rewrite (find_skip _ _ _ _ Hpre).
    rewrite <- fence_json_eq, find_here. reflexivity. }
  assert (contains fence_json
            (pre ++ fence_json ++ inner ++ fence ++ post) = true) as ->
    by (unfold contains; now rewrite Hfind).
  assert (fenced fence_json (pre ++ fence_json ++ inner ++ fence ++ post)
          = strip inner) as ->.
  { unfold fenced. rewrite (split_second _ _ fence_json_nonempty), Hfind.
    rewrite Nat.add_0_r, from_behind.
    now rewrite (between_fences inner post Hinner Hpost). }
  cbv beta iota zeta. rewrite Hbrace. reflexivity.
Qed.

(** X25: an answer without any backtick that puts prose around its
    object has the object handed to [json.loads]: from the first opening
    brace to the last closing brace. *)
Theorem wrapped_object_is_recovered (raw pre body post : str) :
  strip raw = pre ++ open_brace :: body ++ close_brace :: post ->
  pre <> [] ->
  ~ In backtick (strip raw) ->
  ~ In open_brace pre ->
  ~ In close_brace post ->
  clean_response raw = open_brace :: body ++ [close_brace].
Proof.
  intros Hraw Hne Htick Hpre Hpost.
  unfold clean_response.
  assert (contains fence_json (strip raw) = false) as ->
    by (unfold contains; rewrite fence_json_eq;
        now rewrite (find_absent _ _ _ Htick)).
  assert (contains fence (strip raw) = false) as ->
    by (unfold contains; rewrite fence_eq;
        now rewrite (find_absent _ _ _ Htick)).
  rewrite Hraw.
  assert (startswith [open_brace]
            (pre ++ open_brace :: body ++ close_brace :: post) = false)
    as ->.
  { destruct pre as [|y pre]; [contradiction|].
    cbn [app startswith]. rewrite andb_true_r.
    apply N.eqb_neq. intros E. apply Hpre. left. now symmetry. }
  assert (brace_group (pre ++ open_brace :: body ++ close_brace :: post)
          = Some (open_brace :: body ++ [close_brace])) as ->;
    [|reflexivity].
  unfold brace_group.
  rewrite (find_skip open_brace [] pre _ Hpre).
  change (find [open_brace] (open_brace :: body ++ close_brace :: post))
    with (find [open_brace]
            ([open_brace] ++ body ++ close_brace :: post)).
  rewrite find_here. cbn [option_map]. rewrite Nat.add_0_r.
  assert (from (S (List.length pre))
            (pre ++ open_brace :: body ++ close_brace :: post)
          = body ++ close_brace :: post) as ->.
  { rewrite <- (from_behind pre [open_brace]
                  (body ++ close_brace :: post)) at 2.
    cbn [List.length]. now rewrite Nat.add_1_r. }
  rewrite (rfind_char_last _ _ _ Hpost).
  f_equal. f_equal.
  change (close_brace :: post) with ([close_brace] ++ post).
  rewrite app_assoc.
  replace (S (List.length body))
    with (List.length (body ++ [close_brace]))
    by (rewrite length_app; cbn; lia).
  apply upto_front.
Qed.

End CleaningFacts.

Lemma fenced_json_is_recovered_witness :
  Cleaning.clean_response fenced_answer = u "{relevant: true}".
Proof.
  apply (fenced_json_is_recovered fenced_answer
           (u "Sure, here it is:" ++ [10%N])
           ([10%N] ++ u "{relevant: true}" ++ [10%N])
           ([10%N] ++ u "Bye")).
  - vm_compute. reflexivity.
  - vm_compute. intros H.
    repeat (destruct H as [H|H]; [discriminate H|]). exact H.
  - vm_compute. intros H.
    repeat (destruct H as [H|H]; [discriminate H|]). exact H.
  - vm_compute. discriminate.
  - vm_compute. reflexivity.
Defined.

Lemma wrapped_object_is_recovered_witness :
  Cleaning.clean_response prose_answer = u "{a: {b: 1}} and {c: 2}".
Proof.
  apply (wrapped_object_is_recovered prose_answer
           (u "The answer is ") (u "a: {b: 1}} and {c: 2")
           (u " as requested")).
  - vm_compute. reflexivity.
  - vm_compute. discriminate.
  - vm_compute. intros H.
    repeat (destruct H as [H|H]; [discriminate H|]). exact H.
  - vm_compute. intros H.
    repeat (destruct H as [H|H]; [discriminate H|]). exact H.
  - vm_compute. intros H.
    repeat (destruct H as [H|H]; [discriminate H|]). exact H.
Defined.

(** ** The keys of a client *)

Section ClientSetupFacts.

Import Classifier ClientSetup.

Lemma nonblank_lines_nonempty (lines : list str) :
  Forall (fun key => key <> []) (nonblank_lines lines).
Proof.
  unfold nonblank_lines. apply Forall_forall. intros key Hin.
  apply in_map_iff in Hin as (line & <- & Hin).
  apply filter_In in Hin as [_ Hin].
  destruct (strip line); [discriminate|discriminate].
Qed.

Lemma set_keys_nonempty (env_keys : list (option str)) :
  Forall (fun key => key <> []) (set_keys env_keys).
Proof.
  induction env_keys as [|[[|c key]|] rest IH]; cbn [set_keys truthy];
    auto.
  constructor; [discriminate|exact IH].
Qed.

Lemma read_key_files_nonempty (files : list key_file) (keys : list str) :
  read_key_files files = Some keys -> Forall (fun key => key <> []) keys.
Proof.
  induction files as [|[| |lines] files IH]; cbn [read_key_files].
  - intros [= <-]. constructor.
  - exact IH.
  - discriminate.
  - intros [= <-]. apply nonblank_lines_nonempty.
Qed.

Lemma load_api_keys_nonempty (src : key_sources) :
  Forall (fun key => key <> []) (load_api_keys src).
Proof.
  unfold load_api_keys.
  destruct (read_key_files _) as [keys|] eqn:E.
  - destruct keys as [|k keys]; [apply set_keys_nonempty|].
    exact (read_key_files_nonempty _ _ E).
  - destruct (single_key src) as [[|c key]|]; cbn [truthy];
      repeat constructor. discriminate.
Qed.

(** X26: a client that [__init__] builds has at least one key and no
    empty key, starts at the first key with no request counted; and
    [__init__] raises exactly when no source gave a key. *)
Theorem new_client_has_usable_keys (src : key_sources) :
  match BulqitGroqClient_new src with
  | Some c =>
      api_keys c = load_api_keys src
      /\ current_key_index c < List.length (api_keys c)
      /\ Forall (fun key => key <> []) (api_keys c)
      /\ current_key_index c = 0
      /\ daily_request_count c = 0
  | None => load_api_keys src = []
  end.
Proof.
  unfold BulqitGroqClient_new, BulqitGroqClient_init.
  pose proof (load_api_keys_nonempty src) as Hall.
  destruct (load_api_keys src) as [|k keys]; [reflexivity|].
  cbn [api_keys current_key_index daily_request_count List.length].
  repeat split; [lia|exact Hall].
Qed.

(** X27: [GROQ_API_KEY] is read only when a key file exists and cannot be
    read: as long as every key file is either missing or readable, the
    client does not depend on that variable. *)
Theorem single_key_is_a_last_resort (src : key_sources) (other : option str) :
  keys_txt src <> Unreadable ->
  (keys_txt src = Missing -> parent_keys_txt src <> Unreadable) ->
  BulqitGroqClient_new
    {| keys_txt := keys_txt src; parent_keys_txt := parent_keys_txt src;
       numbered_keys := numbered_keys src; single_key := other |}
  = BulqitGroqClient_new src.
Proof.
  intros Hfirst Hsecond.
  unfold BulqitGroqClient_new, load_api_keys.
  cbn [keys_txt parent_keys_txt numbered_keys single_key read_key_files].
  destruct (keys_txt src); [|contradiction|reflexivity].
  destruct (parent_keys_txt src); [reflexivity| |reflexivity].
  now contradiction Hsecond.
Qed.

End ClientSetupFacts.

Lemma single_key_is_a_last_resort_witness :
  ClientSetup.BulqitGroqClient_new single_key_only = None.
Proof.
  rewrite <- (single_key_is_a_last_resort single_key_only None).
  - vm_compute. reflexivity.
  - discriminate.
  - intros _. discriminate.
Defined.
